(** * javatools.manifest: JAR manifest reading, writing, digesting and diffing

    A shallow embedding of [javatools/manifest.py] (Python 2).

    - A Python 2 [str] is a byte string: [list ascii].
    - [None]-able arguments are [option str].
    - An [OrderedDict] is an association list in insertion order.
    - A stream opened for writing ([cStringIO]) is the byte string written so
      far; the code that writes to it lives in a state-and-exception monad.
    - A generator is the list of the values it yields, followed by the
      exception that ended it, if any. *)

From Stdlib Require Import String Ascii.
From Stdlib Require Import List Arith Lia Bool Permutation Sorted.
From stdpp Require Import base gmap sets strings.
Import ListNotations.
Open Scope list_scope.

(** ** Byte strings *)

Definition str := list ascii.

Definition py (s : string) : str := list_ascii_of_string s.

Definition NUL : ascii := "000"%char.
Definition LF : ascii := "010"%char.
Definition CR : ascii := "013"%char.
Definition SP : ascii := " "%char.
Definition COLON : ascii := ":"%char.

Definition str_eqb (a b : str) : bool :=
  bool_decide (a = b).

(** [x or d] where [x] is [None] or a string: the empty string is false. *)
Definition or_str (x : option str) (d : str) : str :=
  match x with
  | Some (c :: s) => c :: s
  | _ => d
  end.

(** [str(x)] where [x] is [None] or a string. *)
Definition str_of (x : option str) : str :=
  match x with
  | None => py "None"
  | Some s => s
  end.

(** ** Exceptions and the state monad *)

Inductive exn : Type :=
| ManifestKeyException (msg : str) (key : str)
| MalformedManifest (lineno : nat)
| StopIteration
| TypeError
| ValueError
| IndexError
| KeyError (key : str).

Inductive result (A : Type) : Type :=
| Ok (a : A)
| Raise (e : exn).

Arguments Ok {A} a.
Arguments Raise {A} e.

Definition M (S A : Type) : Type := S -> result A * S.

Definition ret {S A} (a : A) : M S A := fun s => (Ok a, s).

Definition raise {S A} (e : exn) : M S A := fun s => (Raise e, s).

Definition bind {S A B} (c : M S A) (k : A -> M S B) : M S B :=
  fun s =>
    match c s with
    | (Ok a, s') => k a s'
    | (Raise e, s') => (Raise e, s')
    end.

Definition modify {S} (f : S -> S) : M S unit := fun s => (Ok tt, f s).

Declare Scope py_scope.
Delimit Scope py_scope with py.
Notation "x <- c ;; k" := (bind c (fun x => k))
  (at level 100, c at next level, right associativity) : py_scope.
Notation "c ;; k" := (bind c (fun _ => k))
  (at level 100, right associativity) : py_scope.
Open Scope py_scope.

Fixpoint for_each {S A} (body : A -> M S unit) (l : list A) : M S unit :=
  match l with
  | [] => ret tt
  | a :: l' => body a ;; for_each body l'
  end.

(** ** Streams *)

(** [stream.write(s)]: a [cStringIO] refuses [None]. *)
Definition write (s : option str) : M str unit :=
  match s with
  | Some s => modify (fun stream => stream ++ s)
  | None => raise TypeError
  end.

(** [kvbuffer.read(n)] on a buffer holding [kvbuffer] from its read position
    on: the bytes read and what is left. *)
Definition read (n : nat) (kvbuffer : str) : str * str :=
  (firstn n kvbuffer, skipn n kvbuffer).

(** [linesep + " "] *)
Definition add_str {S} (a : option str) (b : str) : M S str :=
  match a with
  | Some a => ret (a ++ b)
  | None => raise TypeError
  end.

(** [StringIO(); ...; stream.getvalue()] *)
Definition getvalue {A} (c : M str A) : result str :=
  match c [] with
  | (Ok _, stream) => Ok stream
  | (Raise e, _) => Raise e
  end.

(** ** write_key_val *)

(** The [while part:] loop of [write_key_val]. Every turn reads at least one
    byte, so the length of the buffer bounds the number of turns. *)
Fixpoint write_parts (fuel : nat) (linesep : option str) (part kvbuffer : str)
  : M str unit :=
  match fuel with
  | 0 => ret tt
  | S fuel' =>
    match part with
    | [] => ret tt
    | _ :: _ =>
      sep <- add_str linesep [SP] ;;
      write (Some sep) ;;
      write (Some part) ;;
      let (part', kvbuffer') := read 69 kvbuffer in
      write_parts fuel' linesep part' kvbuffer'
    end
  end.

Definition write_key_val (key val : option str) (linesep : option str)
  : M str unit :=
  let key := or_str key [] in
  let val := or_str val [] in
  if negb ((0 <? length key) && (length key <? 69)) then
    raise (ManifestKeyException (py "bad key length") key)
  else
    (if 68 <? length key + length val then
       let kvbuffer := key ++ py ": " ++ val in
       let (chunk, kvbuffer) := read 70 kvbuffer in
       write (Some chunk) ;;
       let (part, kvbuffer) := read 69 kvbuffer in
       write_parts (S (length kvbuffer)) linesep part kvbuffer
     else
       write (Some key) ;;
       write (Some (py ": ")) ;;
       write (Some val)) ;;
    write linesep.

(** ** OrderedDict *)

Section OrderedDict.

Context {K V : Type} (eqb : K -> K -> bool).

Fixpoint od_set (k : K) (v : V) (d : list (K * V)) : list (K * V) :=
  match d with
  | [] => [(k, v)]
  | (k', v') :: d' =>
    if eqb k k' then (k', v) :: d' else (k', v') :: od_set k v d'
  end.

Fixpoint od_get (k : K) (d : list (K * V)) : option V :=
  match d with
  | [] => None
  | (k', v') :: d' => if eqb k k' then Some v' else od_get k d'
  end.

Definition od_values (d : list (K * V)) : list V := map snd d.

Definition od_keys (d : list (K * V)) : list K := map fst d.

End OrderedDict.

(** ** class ManifestSection(OrderedDict) *)

Definition section := list (str * str).

Module ManifestSection.

Definition primary_key : str := py "Name".

Definition __setitem__ (k : str) (v : option str) : M section unit :=
  if 68 <? length k then
    raise (ManifestKeyException (py "key too long") k)
  else
    modify (od_set str_eqb k (str_of v)).

(** [ManifestSection(name)] for a class whose [primary_key] is [pk]. *)
Definition __init__ (pk : str) (name : option str) : M section unit :=
  modify (fun _ => []) ;;
  __setitem__ pk name.

Definition primary (pk : str) (self : section) : option str :=
  od_get str_eqb pk self.

Definition load (items : list (str * list str)) : M section unit :=
  for_each (fun kv => __setitem__ (fst kv) (Some (concat (snd kv)))) items.

Definition store (self : section) (linesep : option str) : M str unit :=
  for_each
    (fun kv => write_key_val (Some (fst kv)) (Some (snd kv)) linesep) self ;;
  write linesep.

Definition get_data (self : section) (linesep : option str) : result str :=
  getvalue (store self linesep).

End ManifestSection.

(** [ManifestSection(name)] as a value: a fresh object after [__init__]. *)
Definition new_section (pk : str) (name : option str) : result section :=
  match ManifestSection.__init__ pk name [] with
  | (Ok _, s) => Ok s
  | (Raise e, _) => Raise e
  end.

(** ** parse_sections *)

(** Iterating over [StringIO(data)]: the lines of [data], each with its
    terminating newline (the last one may have none). *)
Fixpoint readlines (data : str) : list str :=
  match data with
  | [] => []
  | c :: data' =>
    if Ascii.eqb c LF then [c] :: readlines data'
    else
      match readlines data' with
      | [] => [[c]]
      | line :: lines => (c :: line) :: lines
      end
  end.

(** [line.replace('\x00', '')] *)
Definition replace_nul (line : str) : str :=
  List.filter (fun c => negb (Ascii.eqb c NUL)) line.

(** The first element of [s.splitlines()] for a non-empty byte string [s]:
    the bytes before its first carriage return or newline. *)
Fixpoint first_line (s : str) : str :=
  match s with
  | [] => []
  | c :: s' =>
    if Ascii.eqb c LF || Ascii.eqb c CR then [] else c :: first_line s'
  end.

(** [line.replace('\x00', '').splitlines()[0]]: [''.splitlines()] is the
    empty list. *)
Definition cleanline (line : str) : result str :=
  match replace_nul line with
  | [] => Raise IndexError
  | c :: s => Ok (first_line (c :: s))
  end.

(** [cleanline.split(':', 1)] unpacked into two names. *)
Fixpoint split_colon (s : str) : result (str * str) :=
  match s with
  | [] => Raise ValueError
  | c :: s' =>
    if Ascii.eqb c COLON then Ok ([], s')
    else
      match split_colon s' with
      | Ok (key, val) => Ok (c :: key, val)
      | Raise e => Raise e
      end
  end.

(** One tokenized section: [[(key, [val, ...]), ...]]. *)
Definition tokens := list (str * list str).

(** [curr[-1][1].append(x)] *)
Fixpoint append_last (curr : tokens) (x : str) : result tokens :=
  match curr with
  | [] => Raise IndexError
  | [(key, vals)] => Ok [(key, vals ++ [x])]
  | kv :: curr' =>
    match append_last curr' x with
    | Ok curr'' => Ok (kv :: curr'')
    | Raise e => Raise e
    end
  end.

(** What a generator did: the values it yielded, in order, and how it
    stopped. *)
Definition generated (A R : Type) : Type := (list A * R)%type.

Definition yield {A R} (a : A) (g : generated A R) : generated A R :=
  (a :: fst g, snd g).

(** The [for lineno, line in enumerate(data)] loop, from line [lineno] on
    with the current section [curr]; it stops with the value of [curr] at the
    end of the input or with an exception. *)
Fixpoint scan (lineno : nat) (lines : list str) (curr : option tokens)
  : generated tokens (result (option tokens)) :=
  match lines with
  | [] => ([], Ok curr)
  | line :: lines' =>
    match cleanline line with
    | Raise e => ([], Raise e)
    | Ok [] =>
      match curr with
      | Some (kv :: c) => yield (kv :: c) (scan (S lineno) lines' None)
      | _ => scan (S lineno) lines' curr
      end
    | Ok (c0 :: tl) =>
      if Ascii.eqb c0 SP then
        match curr with
        | None => ([], Raise (MalformedManifest lineno))
        | Some c =>
          match append_last c tl with
          | Ok c' => scan (S lineno) lines' (Some c')
          | Raise e => ([], Raise e)
          end
        end
      else
        let c := match curr with None => [] | Some c => c end in
        match split_colon (c0 :: tl) with
        | Ok (key, val) =>
          scan (S lineno) lines' (Some (c ++ [(key, [List.tl val])]))
        | Raise e => ([], Raise e)
        end
    end
  end.

Definition parse_sections (data : str) : generated tokens (option exn) :=
  match data with
  | [] => ([], None)
  | _ :: _ =>
    match scan 0 (readlines data) None with
    | (ys, Raise e) => (ys, Some e)
    | (ys, Ok (Some (kv :: c))) => (ys ++ [kv :: c], None)
    | (ys, Ok _) => (ys, None)
    end
  end.


(** A line of NUL bytes only, which [replace] leaves empty. *)
Definition nul_only (line : str) : bool :=
  forallb (fun c => Ascii.eqb c NUL) line.

(** ** The ordering of sections under [sorted]

    [ManifestSection] inherits from [OrderedDict], which defines [__eq__]
    and [__ne__] only, so [sorted] compares two sections with [dict]'s own
    three-way comparison: the shorter dictionary is the smaller one, and at
    equal lengths the smallest key whose value differs decides. *)

Fixpoint str_compare (a b : str) : comparison :=
  match a, b with
  | [], [] => Eq
  | [], _ :: _ => Lt
  | _ :: _, [] => Gt
  | x :: a', y :: b' =>
    match Ascii.compare x y with
    | Eq => str_compare a' b'
    | c => c
    end
  end.

Definition str_ltb (a b : str) : bool :=
  match str_compare a b with Lt => true | _ => false end.

(** The smallest key of [a] whose value differs in [b], with its value. *)
Definition characterize (a b : section) : option (str * str) :=
  fold_left
    (fun best kv =>
       let skip :=
         match best with
         | Some (akey, _) => str_ltb akey (fst kv)
         | None => false
         end in
       if skip then best
       else
         match od_get str_eqb (fst kv) b with
         | Some bval => if str_eqb (snd kv) bval then best else Some kv
         | None => Some kv
         end)
    a None.

Definition dict_compare (a b : section) : comparison :=
  match Nat.compare (length a) (length b) with
  | Lt => Lt
  | Gt => Gt
  | Eq =>
    match characterize a b with
    | None => Eq
    | Some (adiff, aval) =>
      match characterize b a with
      | None => Eq
      | Some (bdiff, bval) =>
        match str_compare adiff bdiff with
        | Eq => str_compare aval bval
        | c => c
        end
      end
    end
  end.

Definition section_ltb (a b : section) : bool :=
  match dict_compare a b with Lt => true | _ => false end.

(** [sorted]: a stable sort that compares with [<] only. *)
Section Sorted.

Context {A : Type} (ltb : A -> A -> bool).

Fixpoint insert_sorted (x : A) (l : list A) : list A :=
  match l with
  | [] => [x]
  | y :: l' => if ltb y x then y :: insert_sorted x l' else x :: y :: l'
  end.

Definition sorted (l : list A) : list A := fold_right insert_sorted [] l.

End Sorted.

(** ** class Manifest(ManifestSection) *)

Record Manifest : Type := mkManifest {
  primary_key : str;
  attrs : section;
  sub_sections : list (option str * section);
  linesep : option str
}.

Definition name_eqb (a b : option str) : bool := bool_decide (a = b).

(** Run on the object's own items (the [OrderedDict] it inherits from). *)
Definition on_attrs {A} (c : M section A) : M Manifest A :=
  fun self =>
    let (r, a) := c (attrs self) in
    (r, mkManifest (primary_key self) a (sub_sections self) (linesep self)).

Definition set_sub (name : option str) (sect : section) : M Manifest unit :=
  modify (fun self =>
    mkManifest (primary_key self) (attrs self)
      (od_set name_eqb name sect (sub_sections self)) (linesep self)).

(** Run on the section object bound to [name] in [sub_sections]. *)
Definition on_sub {A} (name : option str) (c : M section A) : M Manifest A :=
  fun self =>
    match od_get name_eqb name (sub_sections self) with
    | None => (Raise (KeyError (str_of name)), self)
    | Some sect =>
      let (r, sect') := c sect in
      (r, mkManifest (primary_key self) (attrs self)
            (od_set name_eqb name sect' (sub_sections self)) (linesep self))
    end.

Definition lift {S A} (r : result A) : M S A :=
  match r with
  | Ok a => ret a
  | Raise e => raise e
  end.

Module Manifest.

Definition primary_key : str := py "Manifest-Version".

(** [Manifest(version, linesep)], and [SignatureManifest(version, linesep)]
    with its own [primary_key]. *)
Definition __init__ (pk : str) (version : option str) (linesep : option str)
  : result Manifest :=
  match new_section pk version with
  | Ok a => Ok (mkManifest pk a [] linesep)
  | Raise e => Raise e
  end.

(** The section object it returns is the one bound to [name] in
    [sub_sections]. *)
Definition create_section (name : option str) (overwrite : bool)
  : M Manifest (option str) :=
  if overwrite then
    sect <- lift (new_section ManifestSection.primary_key name) ;;
    set_sub name sect ;;
    ret name
  else
    fun self =>
      match od_get name_eqb name (sub_sections self) with
      | Some _ => ret name self
      | None =>
        (sect <- lift (new_section ManifestSection.primary_key name) ;;
         set_sub name sect ;;
         ret name) self
      end.

Definition parse (data : str) : M Manifest unit :=
  let sections := parse_sections data in
  match fst sections with
  | [] =>
    raise (match snd sections with Some e => e | None => StopIteration end)
  | first :: rest =>
    on_attrs (ManifestSection.load first) ;;
    for_each
      (fun section =>
         next_section <- lift (new_section ManifestSection.primary_key None) ;;
         match ManifestSection.load section next_section with
         | (Ok _, next_section) =>
           set_sub
             (ManifestSection.primary ManifestSection.primary_key next_section)
             next_section
         | (Raise e, _) => raise e
         end)
      rest ;;
    match snd sections with
    | Some e => raise e
    | None => ret tt
    end
  end.

Section Platform.

(** [os.linesep] *)
Variable os_linesep : str.

Definition store (self : Manifest) (linesep_arg : option str) : M str unit :=
  let linesep := or_str linesep_arg (or_str (linesep self) os_linesep) in
  ManifestSection.store (attrs self) (Some linesep) ;;
  for_each (fun sect => ManifestSection.store sect (Some linesep))
    (sorted section_ltb (od_values (sub_sections self))).

Definition get_main_section (self : Manifest) : result str :=
  getvalue (ManifestSection.store (attrs self) (linesep self)).

Definition get_data (self : Manifest) (linesep_arg : option str)
  : result str :=
  getvalue (store self linesep_arg).

End Platform.

End Manifest.

(** ** hashlib *)

Definition JAVA_TO_HASHLIB : list (str * str) :=
  [ (py "MD5", py "md5");
    (py "SHA1", py "sha1");
    (py "SHA-256", py "sha256");
    (py "SHA-384", py "sha384");
    (py "SHA-512", py "sha512") ].

(** A hash object: the algorithm and all the data it was fed so far
    ([update] calls are equivalent to one call on the concatenation). *)
Record hash_object : Type := mkHash {
  hash_name : str;
  hash_data : str
}.

Definition hash_new (name : str) : hash_object := mkHash name [].

Definition hash_update (h : hash_object) (data : str) : hash_object :=
  mkHash (hash_name h) (hash_data h ++ data).

(** ** class SignatureManifest(Manifest) *)

Module SignatureManifest.

Definition primary_key : str := py "Signature-Version".

Section Platform.

Variable os_linesep : str.

(** [hashlib]: the digest of a byte string under a named algorithm. *)
Variable hashlib : str -> str -> str.

Variable b64encode : str -> str.

Definition hash_digest (h : hash_object) : str :=
  hashlib (hash_name h) (hash_data h).

Fixpoint digest_sub_sections (linesep sect_key : str) (digest : str)
  (subs : list section) (h_all : hash_object) : M Manifest hash_object :=
  match subs with
  | [] => ret h_all
  | sub_section :: subs' =>
    sub_data <- lift (ManifestSection.get_data sub_section (Some linesep)) ;;
    let h_section := hash_update (hash_new digest) sub_data in
    sf_sect <- Manifest.create_section
      (ManifestSection.primary ManifestSection.primary_key sub_section) true ;;
    on_sub sf_sect
      (ManifestSection.__setitem__ sect_key
         (Some (b64encode (hash_digest h_section)))) ;;
    digest_sub_sections linesep sect_key digest subs'
      (hash_update h_all sub_data)
  end.

Definition digest_manifest (manifest : Manifest) (java_algorithm : str)
  : M Manifest unit :=
  let linesep := or_str (linesep manifest) os_linesep in
  let all_key := java_algorithm ++ py "-Digest-Manifest" in
  let main_key := java_algorithm ++ py "-Digest-Manifest-Main-Attributes" in
  let sect_key := java_algorithm ++ py "-Digest" in
  digest <- lift (match od_get str_eqb java_algorithm JAVA_TO_HASHLIB with
                  | Some name => Ok name
                  | None => Raise (KeyError java_algorithm)
                  end) ;;
  let h_all := hash_new digest in
  main <- lift (Manifest.get_main_section manifest) ;;
  let h_all := hash_update h_all main in
  on_attrs (ManifestSection.__setitem__ main_key
              (Some (b64encode (hash_digest h_all)))) ;;
  h_all <- digest_sub_sections linesep sect_key digest
             (od_values (sub_sections manifest)) h_all ;;
  on_attrs (ManifestSection.__setitem__ all_key
              (Some (b64encode (hash_digest h_all)))).

End Platform.

End SignatureManifest.

(** ** Change records *)

(** The options object: an attribute may be missing, [getattr] then gives
    the default. *)
Record options : Type := mkOptions {
  ignore_manifest : option bool;
  ignore_manifest_subsections : option bool;
  ignore_manifest_key : option (list str)
}.

Definition getattr {A} (attribute : option A) (default : A) : A :=
  match attribute with
  | Some a => a
  | None => default
  end.

(** [set(self.ldata.items())] *)
Definition items_set (data : section) : gset (str * str) :=
  list_to_set data.

(** [lset.symmetric_difference(rset)] *)
Definition symmetric_difference (lset rset : gset (str * str))
  : gset (str * str) :=
  (lset ∖ rset) ∪ (rset ∖ lset).

(** The key-based part shared by the two [is_ignored] of changed records. *)
Definition changed_keys_ignored (options : options) (ldata rdata : section)
  : bool :=
  let ikeys : gset str :=
    list_to_set (getattr (ignore_manifest_key options) []) in
  if bool_decide (ikeys ≠ ∅) then
    let lset := items_set ldata in
    let rset := items_set rdata in
    let changed : gset str :=
      set_map fst (symmetric_difference lset rset) in
    bool_decide (changed ⊆ ikeys)
  else false.

Module ManifestSectionChange.

Definition is_ignored (options : options) (ldata rdata : section) : bool :=
  if getattr (ignore_manifest_subsections options) false then true
  else changed_keys_ignored options ldata rdata.

End ManifestSectionChange.

Module ManifestSectionAdded.

Definition is_ignored (options : options) : bool :=
  getattr (ignore_manifest_subsections options) false.

End ManifestSectionAdded.

Module ManifestSectionRemoved.

Definition is_ignored (options : options) : bool :=
  getattr (ignore_manifest_subsections options) false.

End ManifestSectionRemoved.

Module ManifestMainChange.

Definition is_ignored (options : options) (ldata rdata : section) : bool :=
  changed_keys_ignored options ldata rdata.

End ManifestMainChange.

(** ** The key-value writer as the specification words it

    "Compute [key: value]; if its length exceeds 68, fold: write the first 70
    characters, then repeatedly write the line separator followed by a single
    space followed by the next 69 characters, until exhausted; always
    terminate with the line separator. If the combined length is at most 68,
    write [key: value] followed directly by the line separator." *)

(** The successive pieces of at most [n] bytes of [s]. *)
Fixpoint chunks_upto (fuel n : nat) (s : str) : list str :=
  match fuel with
  | 0 => []
  | S fuel' =>
    match s with
    | [] => []
    | _ :: _ => firstn n s :: chunks_upto fuel' n (skipn n s)
    end
  end.

Definition chunks (n : nat) (s : str) : list str :=
  chunks_upto (length s) n s.

Definition spec_key_val (key val linesep : str) : str :=
  let kv := key ++ py ": " ++ val in
  if 68 <? length kv then
    firstn 70 kv
    ++ concat (map (fun c => linesep ++ [SP] ++ c) (chunks 69 (skipn 70 kv)))
    ++ linesep
  else
    kv ++ linesep.

(** The lines [write_key_val] puts on the stream, without their
    terminators: the text before each [linesep] it writes. *)
Definition physical_lines (key val : str) : list str :=
  let kv := key ++ py ": " ++ val in
  if 68 <? length key + length val then
    firstn 70 kv :: map (fun c => SP :: c) (chunks 69 (skipn 70 kv))
  else
    [kv].

(** ** Stored sections *)

(** The keys [write_key_val] accepts. *)
Definition storable (self : section) : Prop :=
  Forall (fun kv => 0 < length (fst kv) <= 68) self.

(** The bytes of a stored section: the lines of each attribute, each with
    its terminator, and the blank line that ends the section. *)
Definition section_bytes (self : section) (linesep : str) : str :=
  concat
    (map (fun kv =>
            concat (map (fun l => l ++ linesep)
                      (physical_lines (fst kv) (snd kv))))
       self)
  ++ linesep.

(** [Manifest()] *)
Definition default_manifest : Manifest :=
  mkManifest Manifest.primary_key [(py "Manifest-Version", py "1.0")] [] None.


(** The section [digest_manifest] creates for a sub-section named [name]:
    its [Name] and one digest attribute. *)
Definition digest_section (sect_key : str) (name : option str) (value : str)
  : section :=
  [(ManifestSection.primary_key, str_of name); (sect_key, value)].

(** [sub_section.primary()] *)
Definition sub_name (sub_section : section) : option str :=
  ManifestSection.primary ManifestSection.primary_key sub_section.


(** The sub-sections of the signature manifest after the loop of
    [digest_manifest] over [subs], starting from [acc]. *)
Definition digested_subs (digest_of : str -> str) (linesep sect_key : str)
  (subs : list section) (acc : list (option str * section))
  : list (option str * section) :=
  fold_left
    (fun acc sub_section =>
       od_set name_eqb (sub_name sub_section)
         (digest_section sect_key (sub_name sub_section)
            (digest_of (section_bytes sub_section linesep)))
         acc)
    subs acc.


(** ** Manifest.store as the specification words it

    "write main attributes, then write each sub-section, sorted by
    sub-section name". *)

(** Names in Python 2 order: [None] is below every string. *)
Definition name_ltb (a b : option str) : bool :=
  match a, b with
  | None, Some _ => true
  | Some a, Some b => str_ltb a b
  | _, None => false
  end.

Definition spec_store (os_linesep : str) (self : Manifest)
  (linesep_arg : option str) : str :=
  let linesep := or_str linesep_arg (or_str (linesep self) os_linesep) in
  section_bytes (attrs self) linesep
  ++ concat
       (map (fun sect => section_bytes sect linesep)
          (sorted (fun a b => name_ltb (sub_name a) (sub_name b))
             (od_values (sub_sections self)))).

(** ** Two small manifests *)

(** A manifest with the sub-sections [a] (two attributes) and [b] (one). *)
Definition example_manifest : Manifest :=
  mkManifest Manifest.primary_key
    [(py "Manifest-Version", py "1.0")]
    [(Some (py "a"), [(py "Name", py "a"); (py "X", py "1")]);
     (Some (py "b"), [(py "Name", py "b")])]
    (Some [LF]).

(** [SignatureManifest()] *)
Definition example_signature : Manifest :=
  mkManifest SignatureManifest.primary_key
    [(py "Signature-Version", py "1.0")] [] None.


(** A stand-in for [hashlib] that keeps its input readable. *)
Definition example_hashlib (name data : str) : str :=
  name ++ [COLON] ++ data.

(** A key and a value whose lengths add up to 69. *)
Definition example_key : str := py "Bundle-SymbolicName".

Definition example_val : str :=
  py "org.example.project.component.with.a.longer.name.x".


(** ** Manifests that survive a round trip *)

(** A byte that a line can hold: no NUL, which the tokenizer drops, and no
    line break. *)
Definition plain_char (c : ascii) : Prop := c <> NUL /\ c <> LF /\ c <> CR.

(** A name the tokenizer reads back: of valid length, without a colon, not
    beginning with a space. *)
Definition plain_key (k : str) : Prop :=
  0 < length k <= 68
  /\ Forall plain_char k
  /\ ~ In COLON k
  /\ hd SP k <> SP.

(** An attribute written on one line. *)
Definition plain_attr (kv : str * str) : Prop :=
  plain_key (fst kv)
  /\ Forall plain_char (snd kv)
  /\ length (fst kv) + length (snd kv) <= 68.

(** A section that begins with its primary key and has no key twice. *)
Definition plain_section (pk : str) (self : section) : Prop :=
  hd_error (od_keys self) = Some pk
  /\ List.NoDup (od_keys self)
  /\ Forall plain_attr self.

Definition plain_manifest (self : Manifest) : Prop :=
  plain_section Manifest.primary_key (attrs self)
  /\ Forall (plain_section ManifestSection.primary_key)
       (od_values (sub_sections self))
  /\ List.NoDup (map sub_name (od_values (sub_sections self))).

(** The separators that [StringIO] splits lines at. *)
Definition newline (linesep : str) : Prop :=
  linesep = [LF] \/ linesep = [CR; LF].

(** What [parse_sections] yields for a section written on one line per
    attribute. *)
Definition tokens_of (self : section) : tokens :=
  map (fun kv => (fst kv, [snd kv])) self.

(** The sub-sections as [Manifest.parse] indexes them. *)
Definition indexed (sects : list section) : list (option str * section) :=
  map (fun sect => (sub_name sect, sect)) sects.

(** A manifest with a value of two lines. *)
Definition two_line_manifest : Manifest :=
  mkManifest Manifest.primary_key
    [(py "Manifest-Version", py "1.0");
     (py "Comment", py "first" ++ [LF] ++ py "second")]
    [] (Some [LF]).

(** A manifest whose separator is a carriage return. *)
Definition cr_manifest : Manifest :=
  mkManifest Manifest.primary_key
    [(py "Manifest-Version", py "1.0"); (py "Created-By", py "me")]
    [] (Some [CR]).


(** The lines of a section stored without folding, without their
    terminators: one per attribute and the blank line that ends it. *)
Definition attr_text (kv : str * str) : str :=
  fst kv ++ py ": " ++ snd kv.

Definition section_texts (self : section) : list str :=
  map attr_text self ++ [[]].


(** The section being read, empty when there is none. *)
Definition open_section (curr : option tokens) : tokens :=
  match curr with
  | None => []
  | Some c => c
  end.

(** ** Stored attributes of any length *)

(** The value fragments the tokenizer reads back from a stored attribute:
    what is left of the first line after the key, then one fragment per
    continuation line. *)
Definition fragments (key val : str) : list str :=
  if 68 <? length key + length val then
    firstn (68 - length key) val
    :: chunks 69 (skipn (68 - length key) val)
  else
    [val].

Definition stored_tokens (self : section) : tokens :=
  map (fun kv => (fst kv, fragments (fst kv) (snd kv))) self.

(** The lines of a stored section, without their terminators. *)
Definition section_lines (self : section) : list str :=
  concat (map (fun kv => physical_lines (fst kv) (snd kv)) self) ++ [[]].

(** An attribute the tokenizer reads back, folded or not. *)
Definition foldable_attr (kv : str * str) : Prop :=
  plain_key (fst kv) /\ Forall plain_char (snd kv).

Definition foldable_section (pk : str) (self : section) : Prop :=
  hd_error (od_keys self) = Some pk
  /\ List.NoDup (od_keys self)
  /\ Forall foldable_attr self.

Definition foldable_manifest (self : Manifest) : Prop :=
  foldable_section Manifest.primary_key (attrs self)
  /\ Forall (foldable_section ManifestSection.primary_key)
       (od_values (sub_sections self))
  /\ List.NoDup (map sub_name (od_values (sub_sections self))).

(** A manifest with a value that is folded over three lines. *)
Definition folded_manifest : Manifest :=
  mkManifest Manifest.primary_key
    [(py "Manifest-Version", py "1.0");
     (py "Class-Path",
      py "lib/alpha-1.0.jar lib/beta-2.0.jar lib/gamma-3.0.jar lib/delta-4.0.jar lib/epsilon-5.0.jar lib/zeta-6.0.jar lib/eta-7.0.jar lib/theta-8.0.jar")]
    [(Some (py "a/b.class"),
      [(py "Name", py "a/b.class"); (py "SHA1-Digest", py "abc=")])]
    (Some [LF]).


(** ** digest_chunks *)

(** A hash object of [hashlib] with the function that computes its
    digest. *)
Definition hasher : Type := (hash_object * (str -> str))%type.

(** The first loop of [digest_chunks]: one new hash object per algorithm.
    [hashlib] is the module: [getattr(hashlib, algorithm)] fails for a name
    it does not have, and the failure carries the name. *)
Fixpoint new_hashes (hashlib : str -> option (str -> str))
  (algorithms : list str) : str + list hasher :=
  match algorithms with
  | [] => inr []
  | algorithm :: algorithms' =>
    match hashlib algorithm with
    | None => inl algorithm
    | Some digest =>
      match new_hashes hashlib algorithms' with
      | inl missing => inl missing
      | inr hashes => inr ((hash_new algorithm, digest) :: hashes)
      end
    end
  end.

Definition digest_chunks (hashlib : str -> option (str -> str))
  (b64encode : str -> str) (chunks : list str) (algorithms : list str)
  : str + list str :=
  match new_hashes hashlib algorithms with
  | inl missing => inl missing
  | inr hashes =>
    let hashes :=
      fold_left
        (fun (hashes : list hasher) chunk =>
           map (fun h : hasher => (hash_update (fst h) chunk, snd h)) hashes)
        chunks hashes in
    inr (map (fun h : hasher => b64encode (snd h (hash_data (fst h)))) hashes)
  end.

(** A manifest whose sub-sections are in the order [sorted] gives them. *)
Definition sorted_manifest : Manifest :=
  mkManifest Manifest.primary_key
    [(py "Manifest-Version", py "1.0")]
    [(Some (py "b"), [(py "Name", py "b")]);
     (Some (py "a"), [(py "Name", py "a"); (py "X", py "1")])]
    (Some [LF]).


(** ** class ManifestChange(SuperChange) *)

(** The change records [collect_impl] creates, with the data they are
    created on. *)
Inductive change : Type :=
| MainChange (ldata rdata : Manifest)
| SectionChange (ldata rdata : section)
| SectionRemoved (ldata : section)
| SectionAdded (rdata : section).

(** [manifest.sub_sections[s]] *)
Definition getitem (manifest : Manifest) (s : option str) : result section :=
  match od_get name_eqb s (sub_sections manifest) with
  | Some sect => Ok sect
  | None => Raise (KeyError (str_of s))
  end.

(** [for a in l: yield f(a)], then the rest of the generator. *)
Fixpoint yield_each {A B} (f : A -> result B) (l : list A)
  (rest : generated B (option exn)) : generated B (option exn) :=
  match l with
  | [] => rest
  | a :: l' =>
    match f a with
    | Ok b => yield b (yield_each f l' rest)
    | Raise e => ([], Some e)
    end
  end.

Module ManifestChange.

(** The sets of names are Python sets; they are iterated in the order of
    their [elements], which stands for the order Python happens to use. *)
Definition collect_impl (lm rm : Manifest) : generated change (option exn) :=
  let l_sections : gset (option str) :=
    list_to_set (od_keys (sub_sections lm)) in
  let r_sections : gset (option str) :=
    list_to_set (od_keys (sub_sections rm)) in
  yield (MainChange lm rm)
    (yield_each
       (fun s =>
          match getitem lm s with
          | Ok l =>
            match getitem rm s with
            | Ok r => Ok (SectionChange l r)
            | Raise e => Raise e
            end
          | Raise e => Raise e
          end)
       (elements (l_sections ∩ r_sections))
       (yield_each
          (fun s =>
             match getitem lm s with
             | Ok l => Ok (SectionRemoved l)
             | Raise e => Raise e
             end)
          (elements (l_sections ∖ r_sections))
          (yield_each
             (fun s =>
                match getitem rm s with
                | Ok r => Ok (SectionAdded r)
                | Raise e => Raise e
                end)
             (elements (r_sections ∖ l_sections))
             ([], None)))).

End ManifestChange.

(** ** ziputils *)

(** The fields of a [ZipInfo] that the module reads. *)
Record ZipInfo : Type := mkZipInfo {
  filename : str;
  file_size : N;
  compress_size : N;
  CRC : N
}.

(** An archive open for reading: its entries in the order of the
    directory, each with its bytes. *)
Definition archive : Type := list (ZipInfo * str).

Definition namelist (zipfile : archive) : list str :=
  map (fun entry => filename (fst entry)) zipfile.

Definition infolist (zipfile : archive) : list ZipInfo := map fst zipfile.

(** The entry a name stands for: the last one of that name. *)
Fixpoint zip_find (zipfile : archive) (name : str) : option (ZipInfo * str) :=
  match zipfile with
  | [] => None
  | entry :: zipfile' =>
    match zip_find zipfile' name with
    | Some found => Some found
    | None =>
      if str_eqb (filename (fst entry)) name then Some entry else None
    end
  end.

Definition getinfo (zipfile : archive) (name : str) : result ZipInfo :=
  match zip_find zipfile name with
  | Some entry => Ok (fst entry)
  | None => Raise (KeyError name)
  end.

(** [zipfile.open(name)]: the stream of the bytes of the entry. *)
Definition zip_open (zipfile : archive) (name : str) : result str :=
  match zip_find zipfile name with
  | Some entry => Ok (snd entry)
  | None => Raise (KeyError name)
  end.

(** The four events, constants of [dirutils] that differ from one
    another. *)
Inductive event : Type := LEFT | RIGHT | DIFF | SAME.

Definition _directory (left right : archive) (f : str) : result bool :=
  match rev f with
  | [] => Raise IndexError
  | c :: _ => Ok (Ascii.eqb c "/"%char)
  end.

(** The [while d:] loop of [_chunk]; every turn yields at least one byte
    of the stream. *)
Fixpoint chunk_loop (fuel size : nat) (d stream : str) : list str :=
  match fuel with
  | 0 => []
  | S fuel' =>
    match d with
    | [] => []
    | _ :: _ =>
      d :: (let (d', stream') := read size stream in
            chunk_loop fuel' size d' stream')
    end
  end.

Definition _chunk (stream : str) (size : nat) : list str :=
  let (d, stream') := read size stream in
  chunk_loop (S (length stream')) size d stream'.

(** [itertools.izip_longest], filling with [None]. *)
Fixpoint izip_longest {A B} (l : list A) (r : list B)
  : list (option A * option B) :=
  match l with
  | [] => map (fun b => (None, Some b)) r
  | a :: l' =>
    match r with
    | [] => (Some a, None) :: map (fun a' => (Some a', None)) l'
    | b :: r' => (Some a, Some b) :: izip_longest l' r'
    end
  end.

(** [for l, r in pairs: if l != r: return True], then [return False]. *)
Fixpoint any_different (pairs : list (option str * option str)) : bool :=
  match pairs with
  | [] => false
  | (l, r) :: pairs' =>
    if negb (bool_decide (l = r)) then true else any_different pairs'
  end.

(** The default [size] of [_chunk]. *)
Definition chunk_size : nat := 10 * 1024.

Definition _deep_different (left right : archive) (f : str) : result bool :=
  match zip_open left f with
  | Raise e => Raise e
  | Ok lfd =>
    match zip_open right f with
    | Raise e => Raise e
    | Ok rfd =>
      Ok (any_different
            (izip_longest (_chunk lfd chunk_size) (_chunk rfd chunk_size)))
    end
  end.

Definition _different (left right : archive) (f : str) : result bool :=
  match getinfo left f with
  | Raise e => Raise e
  | Ok l =>
    match getinfo right f with
    | Raise e => Raise e
    | Ok r =>
      if (file_size l =? file_size r)%N && (CRC l =? CRC r)%N then
        _deep_different left right f
      else Ok true
    end
  end.

(** The loop of [compare_zips] over the names of the left archive, with the
    names of the right archive that are left in [rl]. *)
Fixpoint compare_left (left right : archive) (ll : list str) (rl : gset str)
  : generated (event * str) (result (gset str)) :=
  match ll with
  | [] => ([], Ok rl)
  | f :: ll' =>
    if bool_decide (f ∈ rl) then
      let rl := rl ∖ {[ f ]} in
      match _directory left right f with
      | Raise e => ([], Raise e)
      | Ok true => compare_left left right ll' rl
      | Ok false =>
        match _different left right f with
        | Raise e => ([], Raise e)
        | Ok true => yield (DIFF, f) (compare_left left right ll' rl)
        | Ok false => yield (SAME, f) (compare_left left right ll' rl)
        end
      end
    else yield (LEFT, f) (compare_left left right ll' rl)
  end.

Definition compare_zips (left right : archive)
  : generated (event * str) (option exn) :=
  let ll : gset str := list_to_set (namelist left) in
  let rl : gset str := list_to_set (namelist right) in
  match compare_left left right (elements ll) rl with
  | (events, Raise e) => (events, Some e)
  | (events, Ok rl) =>
    (events ++ map (fun f => (RIGHT, f)) (elements rl), None)
  end.

(** [if group is not None: group.append(file)] *)
Definition group_append (group : option (list str)) (file : str)
  : option (list str) :=
  match group with
  | Some l => Some (l ++ [file])
  | None => None
  end.

Fixpoint collect_events (events : list (event * str))
  (added removed altered same : option (list str))
  : option (list str) * option (list str) * option (list str)
    * option (list str) :=
  match events with
  | [] => (added, removed, altered, same)
  | (event, file) :: events' =>
    match event with
    | LEFT =>
      collect_events events' added (group_append removed file) altered same
    | RIGHT =>
      collect_events events' (group_append added file) removed altered same
    | DIFF =>
      collect_events events' added removed (group_append altered file) same
    | SAME =>
      collect_events events' added removed altered (group_append same file)
    end
  end.

Definition collect_compare_zips_into (left right : archive)
  (added removed altered same : option (list str))
  : result (option (list str) * option (list str) * option (list str)
            * option (list str)) :=
  match compare_zips left right with
  | (_, Some e) => Raise e
  | (events, None) => Ok (collect_events events added removed altered same)
  end.

Definition collect_compare_zips (left right : archive)
  : result (option (list str) * option (list str) * option (list str)
            * option (list str)) :=
  collect_compare_zips_into left right (Some []) (Some []) (Some []) (Some []).

(** The loop of [zip_entry_rollup]. *)
Fixpoint rollup (infos : list ZipInfo) (files dirs total_c total_u : N)
  : result (N * N * N * N) :=
  match infos with
  | [] => Ok (files, dirs, total_c, total_u)
  | i :: infos' =>
    match rev (filename i) with
    | [] => Raise IndexError
    | c :: _ =>
      if Ascii.eqb c "/"%char then
        rollup infos' files (dirs + 1)%N total_c total_u
      else
        rollup infos' (files + 1)%N dirs
          (total_c + compress_size i)%N (total_u + file_size i)%N
    end
  end.

Definition zip_entry_rollup (zipfile : archive) : result (N * N * N * N) :=
  rollup (infolist zipfile) 0%N 0%N 0%N 0%N.


(** Whether a name ends with a slash, as [_directory] and
    [zip_entry_rollup] test it on a non-empty name. *)
Definition ends_with_slash (f : str) : bool :=
  match rev f with
  | [] => false
  | c :: _ => Ascii.eqb c "/"%char
  end.

(** The events [compare_zips] yields for one name of the left archive. *)
Definition classify (left right : archive) (rl : gset str) (f : str)
  : list (event * str) :=
  if bool_decide (f ∈ rl) then
    match _directory left right f with
    | Ok false =>
      match _different left right f with
      | Ok true => [(DIFF, f)]
      | Ok false => [(SAME, f)]
      | Raise _ => []
      end
    | _ => []
    end
  else [(LEFT, f)].

Definition event_eqb (a b : event) : bool :=
  match a, b with
  | LEFT, LEFT | RIGHT, RIGHT | DIFF, DIFF | SAME, SAME => true
  | _, _ => false
  end.

(** The names of the events of one kind, in the order of the events. *)
Definition names_of (e : event) (events : list (event * str)) : list str :=
  map snd (List.filter (fun p => event_eqb (fst p) e) events).

(** Two archives: [a.txt] changed, [b.txt] removed, [c.txt] added, [d/] a
    directory and [e.txt] the same. *)
Definition left_archive : archive :=
  [(mkZipInfo (py "a.txt") 3 3 11, py "one");
   (mkZipInfo (py "b.txt") 3 3 12, py "two");
   (mkZipInfo (py "d/") 0 0 0, []);
   (mkZipInfo (py "e.txt") 4 4 13, py "same")].

Definition right_archive : archive :=
  [(mkZipInfo (py "a.txt") 3 3 11, py "eno");
   (mkZipInfo (py "c.txt") 5 5 14, py "three");
   (mkZipInfo (py "d/") 0 0 0, []);
   (mkZipInfo (py "e.txt") 4 4 13, py "same")].


(** The entries [zip_entry_rollup] counts as files, and as directories. *)
Definition file_infos (infos : list ZipInfo) : list ZipInfo :=
  List.filter (fun i => negb (ends_with_slash (filename i))) infos.

Definition dir_infos (infos : list ZipInfo) : list ZipInfo :=
  List.filter (fun i => ends_with_slash (filename i)) infos.

Definition total (field : ZipInfo -> N) (infos : list ZipInfo) : N :=
  fold_right (fun i acc => (field i + acc)%N) 0%N infos.


(** The exceptions that come from writing a section: a missing line
    separator, or a key of bad length. *)
Definition writer_exn (e : exn) : Prop :=
  e = TypeError \/ exists msg key, e = ManifestKeyException msg key.

(** What a computation may raise. *)
Definition raises_only {A} (P : exn -> Prop) (r : result A) : Prop :=
  match r with
  | Ok _ => True
  | Raise e => P e
  end.


(** * Properties *)

(** ** The monad *)

Lemma bind_Ok {S A B} (c : M S A) (k : A -> M S B) s a s' :
  c s = (Ok a, s') -> bind c k s = k a s'.
Proof. intros H. unfold bind. rewrite H. reflexivity. Qed.

Lemma bind_Raise {S A B} (c : M S A) (k : A -> M S B) s e s' :
  c s = (Raise e, s') -> bind c k s = (Raise e, s').
Proof. intros H. unfold bind. rewrite H. reflexivity. Qed.

Lemma write_Some (s stream : str) :
  write (Some s) stream = (Ok tt, stream ++ s).
Proof. reflexivity. Qed.

Lemma write_None (stream : str) :
  write None stream = (Raise TypeError, stream).
Proof. reflexivity. Qed.

(** ** Chunks *)

Lemma chunks_upto_enough (n : nat) (Hn : 0 < n) :
  forall f1 f2 s,
    length s <= f1 -> length s <= f2 ->
    chunks_upto f1 n s = chunks_upto f2 n s.
Proof.
  induction f1 as [|f1 IH]; intros f2 s H1 H2.
  - destruct s; [|simpl in H1; lia]. destruct f2; reflexivity.
  - destruct f2 as [|f2].
    + destruct s; [reflexivity|simpl in H2; lia].
    + destruct s as [|c s]; [reflexivity|].
      cbn [chunks_upto]. f_equal.
      assert (Hl : length (skipn n (c :: s)) < length (c :: s)).
      { rewrite length_skipn. simpl. lia. }
      apply IH; simpl in *; lia.
Qed.

Lemma chunks_cons (n : nat) (Hn : 0 < n) (c : ascii) (s : str) :
  chunks n (c :: s) = firstn n (c :: s) :: chunks n (skipn n (c :: s)).
Proof.
  unfold chunks. cbn [length chunks_upto]. f_equal.
  apply chunks_upto_enough; [assumption| |lia].
  rewrite length_skipn. simpl. lia.
Qed.

Lemma chunks_nil (n : nat) : chunks n [] = [].
Proof. reflexivity. Qed.

(** Induction along the pieces of a string. *)
Lemma chunks_ind (n : nat) (Hn : 0 < n) (P : str -> Prop) :
  P [] ->
  (forall c s, P (skipn n (c :: s)) -> P (c :: s)) ->
  forall s, P s.
Proof.
  intros Hnil Hcons s.
  remember (length s) as m eqn:Hm.
  revert s Hm. induction m as [m IH] using lt_wf_ind.
  intros [|c s] Hm; [exact Hnil|].
  apply Hcons. eapply IH; [|reflexivity].
  rewrite length_skipn. simpl in *. lia.
Qed.

Lemma concat_chunks (n : nat) (Hn : 0 < n) (s : str) :
  concat (chunks n s) = s.
Proof.
  induction s as [|c s IH] using (chunks_ind n Hn); [reflexivity|].
  rewrite chunks_cons by assumption. cbn [concat]. rewrite IH.
  apply firstn_skipn.
Qed.

Lemma chunks_bounded (n : nat) (Hn : 0 < n) (s : str) :
  Forall (fun c => 0 < length c <= n) (chunks n s).
Proof.
  induction s as [|c s IH] using (chunks_ind n Hn); [constructor|].
  rewrite chunks_cons by assumption. constructor; [|exact IH].
  rewrite length_firstn. simpl. lia.
Qed.

Lemma chunks_Forall (n : nat) (Hn : 0 < n) (P : ascii -> Prop) (s : str) :
  Forall P s -> Forall (Forall P) (chunks n s).
Proof.
  induction s as [|c s IH] using (chunks_ind n Hn); [constructor|].
  intros Hs. rewrite chunks_cons by assumption.
  rewrite <- (firstn_skipn n (c :: s)) in Hs.
  apply Forall_app in Hs. destruct Hs as [H1 H2].
  constructor; [exact H1|]. apply IH. exact H2.
Qed.

Lemma chunks_short (n : nat) (Hn : 0 < n) (s : str) :
  0 < length s <= n -> chunks n s = [s].
Proof.
  intros Hs. destruct s as [|c s]; [simpl in Hs; lia|].
  rewrite chunks_cons by assumption.
  rewrite firstn_all2 by lia. rewrite skipn_all2 by lia. reflexivity.
Qed.

(** ** write_key_val *)

(** The loop writes every piece that is left, each after a separator and
    one space; its fuel never runs out. *)
Lemma write_parts_chunks (linesep : str) :
  forall fuel rest stream,
    (rest <> [] -> length (skipn 69 rest) < fuel) ->
    write_parts fuel (Some linesep) (firstn 69 rest) (skipn 69 rest) stream
    = (Ok tt,
       stream
       ++ concat (map (fun c => linesep ++ [SP] ++ c) (chunks 69 rest))).
Proof.
  induction fuel as [|fuel IH]; intros rest stream Hfuel.
  { destruct rest as [|c rest]; [|specialize (Hfuel ltac:(discriminate)); lia].
    simpl. rewrite app_nil_r. reflexivity. }
  destruct rest as [|c rest].
  - simpl. rewrite app_nil_r. reflexivity.
  - specialize (Hfuel ltac:(discriminate)).
    rewrite chunks_cons by lia.
    remember (skipn 69 (c :: rest)) as buf eqn:Hbuf.
    cbn [write_parts firstn].
    unfold add_str, read.
    erewrite bind_Ok by reflexivity.
    erewrite bind_Ok by apply write_Some.
    erewrite bind_Ok by apply write_Some.
    rewrite IH.
    + cbn [map concat]. f_equal.
      rewrite <- !app_assoc. reflexivity.
    + intros Hne. destruct buf as [|b buf]; [congruence|].
      rewrite length_skipn. simpl in *. lia.
Qed.

Lemma concat_continuations (linesep : str) (l : list str) :
  concat (map (fun c => linesep ++ [SP] ++ c) l) ++ linesep
  = linesep
    ++ concat (map (fun l0 => l0 ++ linesep) (map (fun c => SP :: c) l)).
Proof.
  induction l as [|c l IHl]; cbn [map concat].
  - rewrite app_nil_r. reflexivity.
  - rewrite <- !app_assoc. f_equal. cbn [app]. f_equal.
    f_equal. exact IHl.
Qed.

Lemma length_kv (key val : str) :
  length (key ++ py ": " ++ val) = length key + 2 + length val.
Proof. rewrite !length_app. simpl. lia. Qed.

(** What [write_key_val] appends to the stream, in terms of the lines it
    writes. *)
Lemma write_key_val_lines (key val linesep stream : str) :
  0 < length key <= 68 ->
  write_key_val (Some key) (Some val) (Some linesep) stream
  = (Ok tt,
     stream ++ concat (map (fun l => l ++ linesep) (physical_lines key val))).
Proof.
  intros Hkey.
  assert (Hk : or_str (Some key) [] = key) by (destruct key; reflexivity).
  assert (Hv : or_str (Some val) [] = val) by (destruct val; reflexivity).
  unfold write_key_val, physical_lines. rewrite Hk, Hv.
  replace (negb ((0 <? length key) && (length key <? 69))) with false.
  2:{ symmetry. apply negb_false_iff, andb_true_iff.
      split; apply Nat.ltb_lt; lia. }
  destruct (68 <? length key + length val) eqn:Hfold.
  - apply Nat.ltb_lt in Hfold.
    set (kv := key ++ py ": " ++ val).
    unfold read.
    erewrite bind_Ok.
    2:{ erewrite bind_Ok by apply write_Some.
        apply write_parts_chunks. intros _. lia. }
    rewrite write_Some. f_equal.
    cbn [map concat]. rewrite <- !app_assoc. do 2 f_equal.
    apply concat_continuations.
  - erewrite bind_Ok.
    2:{ erewrite bind_Ok by apply write_Some.
        erewrite bind_Ok by apply write_Some.
        apply write_Some. }
    rewrite write_Some. f_equal.
    cbn [map concat]. rewrite app_nil_r, <- !app_assoc. reflexivity.
Qed.

Lemma physical_lines_spec (key val linesep : str) :
  concat (map (fun l => l ++ linesep) (physical_lines key val))
  = spec_key_val key val linesep.
Proof.
  unfold physical_lines, spec_key_val.
  pose proof (length_kv key val) as Hlen.
  set (kv := key ++ py ": " ++ val) in *.
  destruct (68 <? length key + length val) eqn:Hfold.
  - apply Nat.ltb_lt in Hfold.
    replace (68 <? length kv) with true by (symmetry; apply Nat.ltb_lt; lia).
    cbn [map concat]. rewrite <- !app_assoc. f_equal.
    symmetry. apply concat_continuations.
  - apply Nat.ltb_ge in Hfold.
    cbn [map concat]. rewrite app_nil_r.
    destruct (68 <? length kv) eqn:Hspec; [|reflexivity].
    rewrite firstn_all2 by lia. rewrite skipn_all2 by lia.
    reflexivity.
Qed.

(** C2. For a key of valid length and any value and line separator, what
    [write_key_val] writes is what the specification's procedure writes:
    when [key: value] is longer than 68 characters its first 70 characters,
    then the separator, a space and the next 69 characters until the text
    is exhausted, then the separator; otherwise [key: value] and the
    separator. An empty value is written as [key: ] and the separator. *)
Theorem write_key_val_spec (key val linesep stream : str) :
  0 < length key <= 68 ->
  write_key_val (Some key) (Some val) (Some linesep) stream
  = (Ok tt, stream ++ spec_key_val key val linesep)
  /\ write_key_val (Some key) (Some []) (Some linesep) stream
     = (Ok tt, stream ++ key ++ py ": " ++ linesep).
Proof.
  intros Hkey. split.
  - rewrite write_key_val_lines by assumption.
    rewrite physical_lines_spec. reflexivity.
  - rewrite write_key_val_lines by assumption.
    unfold physical_lines.
    replace (68 <? length key + length (@nil ascii)) with false.
    2:{ symmetry. apply Nat.ltb_ge. simpl. lia. }
    cbn [map concat]. rewrite app_nil_r, <- !app_assoc. reflexivity.
Qed.

Lemma write_key_val_spec_witness :
  write_key_val (Some (py "Name")) (Some (py "a/b.class")) (Some [LF]) []
  = (Ok tt, [] ++ spec_key_val (py "Name") (py "a/b.class") [LF])
  /\ write_key_val (Some (py "Name")) (Some []) (Some [LF]) []
     = (Ok tt, [] ++ py "Name" ++ py ": " ++ [LF]).
Proof.
  apply (write_key_val_spec (py "Name") (py "a/b.class") [LF] []).
  simpl. lia.
Defined.

Lemma physical_lines_fold (key val : str) :
  68 < length key + length val ->
  physical_lines key val
  = firstn 70 (key ++ py ": " ++ val)
    :: map (fun c => SP :: c) (chunks 69 (skipn 70 (key ++ py ": " ++ val))).
Proof.
  intros H. unfold physical_lines.
  apply Nat.ltb_lt in H. rewrite H. reflexivity.
Qed.

Lemma physical_lines_short (key val : str) :
  length key + length val <= 68 ->
  physical_lines key val = [key ++ py ": " ++ val].
Proof.
  intros H. unfold physical_lines.
  apply Nat.ltb_ge in H. rewrite H. reflexivity.
Qed.

(** A continuation line is written exactly when the lengths of the key and
    of the value add up to more than 68, that is when [key: value] is longer
    than 70 bytes; a text of 69 or 70 bytes is "folded" into its first 70
    bytes and nothing else. *)
Lemma continuation_iff (key val : str) :
  1 < length (physical_lines key val) <-> 68 < length key + length val.
Proof.
  destruct (le_lt_dec (length key + length val) 68) as [Hs|Hf].
  - rewrite physical_lines_short by assumption. simpl. lia.
  - rewrite physical_lines_fold by assumption.
    pose proof (length_kv key val) as Hlen.
    set (kv := key ++ py ": " ++ val) in *.
    destruct (skipn 70 kv) as [|c rest] eqn:Hskip.
    + apply (f_equal (@length ascii)) in Hskip.
      rewrite length_skipn in Hskip. simpl in Hskip. lia.
    + rewrite chunks_cons by lia. simpl. lia.
Qed.

Lemma physical_lines_width (key val : str) :
  Forall (fun l => length l <= 70) (physical_lines key val).
Proof.
  destruct (le_lt_dec (length key + length val) 68) as [Hs|Hf].
  - rewrite physical_lines_short by assumption.
    constructor; [|constructor]. rewrite length_kv. lia.
  - rewrite physical_lines_fold by assumption.
    constructor.
    + rewrite length_firstn. lia.
    + apply Forall_map.
      eapply List.Forall_impl; [|apply (chunks_bounded 69); lia].
      intros c Hc. simpl in *. lia.
Qed.

(** The lines hold no line break of their own when the key and the value
    hold none, so they are the lines a reader of the output sees. *)
Lemma physical_lines_no_eol (P : ascii -> Prop) (key val : str) :
  P SP -> P COLON -> Forall P key -> Forall P val ->
  Forall (Forall P) (physical_lines key val).
Proof.
  intros Hsp Hcolon Hkey Hval.
  assert (Hkv : Forall P (key ++ py ": " ++ val)).
  { apply Forall_app. split; [assumption|].
    apply Forall_app. split; [|assumption].
    repeat constructor; assumption. }
  destruct (le_lt_dec (length key + length val) 68) as [Hs|Hf].
  - rewrite physical_lines_short by assumption. repeat constructor.
    exact Hkv.
  - rewrite physical_lines_fold by assumption.
    set (kv := key ++ py ": " ++ val) in *.
    constructor.
    + rewrite <- (firstn_skipn 70 kv) in Hkv.
      apply Forall_app in Hkv. apply Hkv.
    + apply Forall_map.
      assert (Hrest : Forall P (skipn 70 kv)).
      { rewrite <- (firstn_skipn 70 kv) in Hkv.
        apply Forall_app in Hkv. apply Hkv. }
      eapply List.Forall_impl;
        [|apply (chunks_Forall 69 ltac:(lia) P); exact Hrest].
      intros c Hc. constructor; assumption.
Qed.

(** C3. For a key of valid length, any value and a line terminator of at
    most two bytes (LF, CR or CR LF), every line [write_key_val] writes is at
    most 72 bytes long with its terminator; and when the lengths of the key
    and of the value add up to 69 the output has exactly one continuation
    line (after the first line of 70 bytes, one line made of a space and the
    last byte). *)
Theorem write_key_val_line_width (key val linesep stream : str) :
  0 < length key <= 68 ->
  length linesep <= 2 ->
  write_key_val (Some key) (Some val) (Some linesep) stream
  = (Ok tt,
     stream ++ concat (map (fun l => l ++ linesep) (physical_lines key val)))
  /\ Forall (fun l => length (l ++ linesep) <= 72) (physical_lines key val)
  /\ (length key + length val = 69 ->
      exists c : ascii,
        physical_lines key val
        = [firstn 70 (key ++ py ": " ++ val); [SP; c]]
        /\ length (firstn 70 (key ++ py ": " ++ val)) = 70).
Proof.
  intros Hkey Hsep. split; [|split].
  - apply write_key_val_lines. assumption.
  - eapply List.Forall_impl; [|apply physical_lines_width].
    intros l Hl. simpl in Hl. rewrite length_app. lia.
  - intros H69.
    rewrite physical_lines_fold by lia.
    pose proof (length_kv key val) as Hlen.
    set (kv := key ++ py ": " ++ val) in *.
    assert (Hrest : length (skipn 70 kv) = 1).
    { rewrite length_skipn. lia. }
    destruct (skipn 70 kv) as [|c [|c' rest]] eqn:Hskip;
      simpl in Hrest; try lia.
    exists c. split.
    + rewrite chunks_short by (simpl; lia). reflexivity.
    + rewrite length_firstn. lia.
Qed.

Example example_key_val_69 : length example_key + length example_val = 69.
Proof. reflexivity. Qed.

Lemma write_key_val_line_width_witness :
  write_key_val (Some example_key) (Some example_val) (Some [CR; LF]) []
  = (Ok tt,
     [] ++ concat (map (fun l => l ++ [CR; LF])
                     (physical_lines example_key example_val)))
  /\ Forall (fun l => length (l ++ [CR; LF]) <= 72)
       (physical_lines example_key example_val)
  /\ (length example_key + length example_val = 69 ->
      exists c : ascii,
        physical_lines example_key example_val
        = [firstn 70 (example_key ++ py ": " ++ example_val); [SP; c]]
        /\ length (firstn 70 (example_key ++ py ": " ++ example_val)) = 70).
Proof.
  apply (write_key_val_line_width example_key example_val [CR; LF] []).
  - simpl. lia.
  - simpl. lia.
Defined.

(** ** ManifestSection.__setitem__ *)

Lemma setitem_in_range (k : str) (v : option str) (self : section) :
  length k <= 68 ->
  ManifestSection.__setitem__ k v self
  = (Ok tt, od_set str_eqb k (str_of v) self).
Proof.
  intros H. unfold ManifestSection.__setitem__.
  apply Nat.ltb_ge in H. rewrite H. reflexivity.
Qed.

Lemma setitem_too_long (k : str) (v : option str) (self : section) :
  69 <= length k ->
  ManifestSection.__setitem__ k v self
  = (Raise (ManifestKeyException (py "key too long") k), self).
Proof.
  intros H. unfold ManifestSection.__setitem__.
  replace (68 <? length k) with true by (symmetry; apply Nat.ltb_lt; lia).
  reflexivity.
Qed.

Lemma write_key_val_bad_key (key : str) (val linesep : option str)
  (stream : str) :
  length key = 0 \/ 69 <= length key ->
  write_key_val (Some key) val linesep stream
  = (Raise (ManifestKeyException (py "bad key length") key), stream).
Proof.
  intros H. unfold write_key_val.
  assert (Hk : or_str (Some key) [] = key) by (destruct key; reflexivity).
  rewrite Hk.
  replace (negb ((0 <? length key) && (length key <? 69))) with true.
  - reflexivity.
  - symmetry. apply negb_true_iff, andb_false_iff.
    destruct H as [H|H].
    + left. apply Nat.ltb_ge. lia.
    + right. apply Nat.ltb_ge. lia.
Qed.

(** C4. Assigning under a name of 68 characters succeeds and under a name
    of 69 characters or more raises [ManifestKeyException]; but assigning
    under the empty name succeeds too: the section then holds an attribute
    that only [write_key_val] refuses, when the section is stored. *)
Theorem setitem_empty_key_accepted (v : option str) (self : section)
  (linesep : option str) :
  (forall k, length k = 68 ->
     ManifestSection.__setitem__ k v self
     = (Ok tt, od_set str_eqb k (str_of v) self))
  /\ (forall k, 69 <= length k ->
        ManifestSection.__setitem__ k v self
        = (Raise (ManifestKeyException (py "key too long") k), self))
  /\ ManifestSection.__setitem__ [] v self
     = (Ok tt, od_set str_eqb [] (str_of v) self)
  /\ ManifestSection.get_data [([], str_of v)] linesep
     = Raise (ManifestKeyException (py "bad key length") []).
Proof.
  split; [|split; [|split]].
  - intros k Hk. apply setitem_in_range. lia.
  - intros k Hk. apply setitem_too_long. assumption.
  - apply setitem_in_range. simpl. lia.
  - unfold ManifestSection.get_data, getvalue, ManifestSection.store.
    cbn [for_each fst snd].
    erewrite bind_Raise; [reflexivity|].
    erewrite bind_Raise; [reflexivity|].
    apply write_key_val_bad_key. left. reflexivity.
Qed.

(** ** parse_sections *)

(** The loop over a prefix of the lines, then over the rest. *)
Lemma scan_app (pre post : list str) :
  forall lineno curr,
    scan lineno (pre ++ post) curr
    = match scan lineno pre curr with
      | (ys, Ok curr') =>
        (ys ++ fst (scan (lineno + length pre) post curr'),
         snd (scan (lineno + length pre) post curr'))
      | (ys, Raise e) => (ys, Raise e)
      end.
Proof.
  induction pre as [|line pre IH]; intros lineno curr.
  - cbn [app scan length]. rewrite Nat.add_0_r.
    destruct (scan lineno post curr). reflexivity.
  - cbn [app scan length].
    replace (lineno + S (length pre)) with (S lineno + length pre) by lia.
    destruct (cleanline line) as [[|c0 tl]|e]; [| |reflexivity].
    + destruct curr as [[|kv c]|]; try apply IH.
      unfold yield. rewrite IH.
      destruct (scan (S lineno) pre None) as [ys [curr'|e]]; reflexivity.
    + destruct (Ascii.eqb c0 SP).
      * destruct curr as [c|]; [|reflexivity].
        destruct (append_last c tl); [apply IH|reflexivity].
      * destruct (split_colon (c0 :: tl)) as [[key val]|e];
          [apply IH|reflexivity].
Qed.

(** C5 (as the code has it). When the lines before it have been read
    without error and have left no section open, a line beginning with a
    space ends the tokenization with [MalformedManifest], after the sections
    of the lines before it; the number it carries is the number of lines
    before it, so it counts lines from 0. *)
Theorem continuation_without_key (data : str) (pre post : list str)
  (line rest : str) (ys : list tokens) :
  readlines data = pre ++ line :: post ->
  scan 0 pre None = (ys, Ok None) ->
  cleanline line = Ok (SP :: rest) ->
  parse_sections data = (ys, Some (MalformedManifest (length pre))).
Proof.
  intros Hlines Hpre Hline.
  unfold parse_sections.
  destruct data as [|c data].
  { cbn [readlines] in Hlines. destruct pre; discriminate. }
  rewrite Hlines, scan_app, Hpre.
  cbn [scan plus]. rewrite Hline.
  cbn [Ascii.eqb SP fst snd]. simpl. rewrite app_nil_r. reflexivity.
Qed.

Lemma continuation_without_key_witness :
  parse_sections (py "A: b" ++ [LF; LF] ++ py " c" ++ [LF])
  = ([[(py "A", [py "b"])]], Some (MalformedManifest 2)).
Proof.
  apply (continuation_without_key
           (py "A: b" ++ [LF; LF] ++ py " c" ++ [LF])
           [py "A: b" ++ [LF]; [LF]] [] (py " c" ++ [LF]) (py "c")
           [[(py "A", [py "b"])]]).
  - reflexivity.
  - reflexivity.
  - reflexivity.
Defined.

(** C5 as stated fails: for the input whose only line is [" continued"] the
    exception carries 0, not 1. *)
Lemma continuation_first_line_cites_0 :
  parse_sections (py " continued") = ([], Some (MalformedManifest 0))
  /\ parse_sections (py " continued") <> ([], Some (MalformedManifest 1)).
Proof.
  split; [reflexivity|].
  intros H. vm_compute in H. discriminate H.
Qed.

Lemma scan_blank (lines : list str) :
  Forall (fun line => cleanline line = Ok []) lines ->
  forall lineno, scan lineno lines None = ([], Ok None).
Proof.
  induction 1 as [|line lines Hline _ IH]; intros lineno; [reflexivity|].
  cbn [scan]. rewrite Hline. apply IH.
Qed.

Lemma parse_sections_blank (data : str) :
  Forall (fun line => cleanline line = Ok []) (readlines data) ->
  parse_sections data = ([], None).
Proof.
  intros H. unfold parse_sections.
  destruct data; [reflexivity|].
  rewrite (scan_blank _ H). reflexivity.
Qed.

(** A line is blank when it holds line breaks (and NUL bytes before the
    first of them) only. *)
Lemma readlines_Forall (P : ascii -> Prop) (data : str) :
  Forall P data -> Forall (fun line => line <> [] /\ Forall P line)
                     (readlines data).
Proof.
  induction 1 as [|c data Hc Hdata IH]; [constructor|].
  cbn [readlines]. destruct (Ascii.eqb c LF).
  - constructor; [|exact IH]. split; [discriminate|].
    constructor; [assumption|constructor].
  - destruct (readlines data) as [|line lines].
    + constructor; [|constructor]. split; [discriminate|].
      constructor; [assumption|constructor].
    + inversion IH as [|? ? [_ Hline] Hlines]; subst.
      constructor; [|assumption]. split; [discriminate|].
      constructor; assumption.
Qed.

Lemma cleanline_eol_only (line : str) :
  line <> [] -> Forall (fun c => c = LF \/ c = CR) line ->
  cleanline line = Ok [].
Proof.
  intros Hne Hline. unfold cleanline.
  destruct line as [|c line]; [congruence|].
  inversion Hline as [|? ? Hc _]; subst.
  destruct Hc as [-> | ->]; reflexivity.
Qed.




(** Every line but the last ends with its newline, so a line of NUL bytes
    only can only be the last line of an input that does not end with a
    newline. *)
Lemma readlines_terminated (data : str) :
  Forall (fun line => In LF line) (removelast (readlines data)).
Proof.
  induction data as [|c data IH]; [constructor|].
  cbn [readlines]. destruct (Ascii.eqb c LF) eqn:Hc.
  - apply Ascii.eqb_eq in Hc. subst c.
    destruct (readlines data) as [|line lines]; [constructor|].
    change (removelast ([LF] :: line :: lines))
      with ([LF] :: removelast (line :: lines)).
    constructor; [left; reflexivity|exact IH].
  - destruct (readlines data) as [|line lines]; [constructor|].
    destruct lines as [|line' lines]; [constructor|].
    change (removelast ((c :: line) :: line' :: lines))
      with ((c :: line) :: removelast (line' :: lines)).
    change (removelast (line :: line' :: lines))
      with (line :: removelast (line' :: lines)) in IH.
    inversion IH as [|? ? Hline Hlines]; subst.
    constructor; [right; exact Hline|exact Hlines].
Qed.

Lemma nul_only_unterminated (data : str) :
  Forall (fun line => nul_only line = false) (removelast (readlines data)).
Proof.
  eapply List.Forall_impl; [|apply readlines_terminated].
  intros line Hin. unfold nul_only.
  destruct (forallb (fun c => Ascii.eqb c NUL) line) eqn:Hall; [|reflexivity].
  rewrite forallb_forall in Hall. specialize (Hall LF Hin).
  discriminate Hall.
Qed.




(** The empty string and any run of line breaks are such inputs. *)
Lemma parse_empty_StopIteration (self : Manifest) :
  Manifest.parse [] self = (Raise StopIteration, self).
Proof. reflexivity. Qed.

Lemma parse_eol_only_StopIteration (data : str) (self : Manifest) :
  Forall (fun c => c = LF \/ c = CR) data ->
  Manifest.parse data self = (Raise StopIteration, self).
Proof.
  intros H. unfold Manifest.parse.
  rewrite parse_sections_blank; [reflexivity|].
  eapply List.Forall_impl; [|apply readlines_Forall; exact H].
  intros line [Hne Hline]. apply cleanline_eol_only; assumption.
Qed.

(** ** Change records *)

Lemma items_set_In (data : section) (kv : str * str) :
  kv ∈ items_set data <-> In kv data.
Proof.
  unfold items_set. rewrite elem_of_list_to_set. apply list_elem_of_In.
Qed.

(** A key is touched by the symmetric difference of two sections when one
    of them has a (key, value) pair that the other has not. *)
Lemma changed_keys_ignored_iff (o : options) (ldata rdata : section) :
  changed_keys_ignored o ldata rdata = true
  <-> getattr (ignore_manifest_key o) [] <> []
      /\ forall k v,
           (In (k, v) ldata /\ ~ In (k, v) rdata)
           \/ (In (k, v) rdata /\ ~ In (k, v) ldata) ->
           In k (getattr (ignore_manifest_key o) []).
Proof.
  unfold changed_keys_ignored, symmetric_difference.
  set (ikeys := getattr (ignore_manifest_key o) []).
  destruct ikeys as [|k0 ikeys'] eqn:Hikeys.
  - rewrite bool_decide_eq_false_2 by (intros H; apply H; reflexivity).
    split; [discriminate|]. intros [H _]. congruence.
  - rewrite bool_decide_eq_true_2.
    2:{ intros H. assert (Hk : k0 ∈ (list_to_set (k0 :: ikeys') : gset str)).
        { apply elem_of_list_to_set. left. }
        rewrite H in Hk. set_solver. }
    rewrite bool_decide_eq_true. split.
    + intros Hsub. split; [discriminate|].
      intros k v Hkv.
      apply list_elem_of_In, (elem_of_list_to_set (C := gset str)).
      apply Hsub. apply elem_of_map. exists (k, v). split; [reflexivity|].
      rewrite elem_of_union, !elem_of_difference, !items_set_In.
      exact Hkv.
    + intros [_ Hall] k Hk.
      apply elem_of_map in Hk. destruct Hk as [[k' v] [-> Hkv]].
      rewrite elem_of_union, !elem_of_difference, !items_set_In in Hkv.
      apply elem_of_list_to_set, list_elem_of_In.
      apply (Hall k' v). exact Hkv.
Qed.

(** C9. A sub-section "changed" record is ignored exactly when the
    "ignore all sub-sections" flag is set or the "ignore changed keys" set is
    non-empty and holds every key of the symmetric difference of the two
    sections' (key, value) pairs; for the main-section "changed" record,
    to which the flag does not apply, exactly when the latter holds;
    "added" and "removed" records exactly when the flag is set; and the flag
    alone makes every sub-section record ignored. *)
Theorem is_ignored_spec (o : options) (ldata rdata : section) :
  let flag := getattr (ignore_manifest_subsections o) false in
  let ikeys := getattr (ignore_manifest_key o) [] in
  let keys_ignored :=
    ikeys <> []
    /\ forall k v,
         (In (k, v) ldata /\ ~ In (k, v) rdata)
         \/ (In (k, v) rdata /\ ~ In (k, v) ldata) ->
         In k ikeys in
  (ManifestSectionChange.is_ignored o ldata rdata = true
   <-> flag = true \/ keys_ignored)
  /\ (ManifestMainChange.is_ignored o ldata rdata = true <-> keys_ignored)
  /\ ManifestSectionAdded.is_ignored o = flag
  /\ ManifestSectionRemoved.is_ignored o = flag
  /\ (flag = true ->
      ManifestSectionChange.is_ignored o ldata rdata = true
      /\ ManifestSectionAdded.is_ignored o = true
      /\ ManifestSectionRemoved.is_ignored o = true).
Proof.
  intros flag ikeys keys_ignored.
  pose proof (changed_keys_ignored_iff o ldata rdata) as Hkeys.
  fold ikeys in Hkeys. fold keys_ignored in Hkeys.
  unfold ManifestSectionChange.is_ignored, ManifestMainChange.is_ignored,
    ManifestSectionAdded.is_ignored, ManifestSectionRemoved.is_ignored.
  fold flag. clearbody keys_ignored ikeys.
  destruct flag.
  - repeat split; try reflexivity; try apply Hkeys; auto.
  - split; [|split; [|split; [|split]]].
    + rewrite Hkeys. split; [intros H; right; exact H|].
      intros [H|H]; [discriminate|exact H].
    + exact Hkeys.
    + reflexivity.
    + reflexivity.
    + discriminate.
Qed.

Example ignore_only_key_differs :
  ManifestSectionChange.is_ignored
    (mkOptions None None (Some [py "X"]))
    [(py "Name", py "a"); (py "X", py "1")]
    [(py "Name", py "a"); (py "X", py "2")] = true.
Proof. vm_compute. reflexivity. Qed.

Example ignore_other_key_differs :
  ManifestSectionChange.is_ignored
    (mkOptions None None (Some [py "X"]))
    [(py "Name", py "a"); (py "X", py "1"); (py "Y", py "1")]
    [(py "Name", py "a"); (py "X", py "2"); (py "Y", py "2")] = false.
Proof. vm_compute. reflexivity. Qed.

(** ** OrderedDict *)

Section OrderedDictFacts.

Context {K V : Type} `{EqDecision K}.

Let eqb (a b : K) : bool := bool_decide (a = b).

Lemma od_get_set_eq (k : K) (v : V) (d : list (K * V)) :
  od_get eqb k (od_set eqb k v d) = Some v.
Proof.
  induction d as [|[k' v'] d IH]; cbn [od_set od_get].
  - unfold eqb. rewrite bool_decide_eq_true_2 by reflexivity. reflexivity.
  - destruct (eqb k k') eqn:E; cbn [od_get]; rewrite E; [reflexivity|].
    exact IH.
Qed.

Lemma od_get_set_neq (k k' : K) (v : V) (d : list (K * V)) :
  k <> k' -> od_get eqb k' (od_set eqb k v d) = od_get eqb k' d.
Proof.
  intros Hne.
  induction d as [|[k0 v0] d IH]; cbn [od_set od_get].
  - unfold eqb. rewrite bool_decide_eq_false_2 by congruence. reflexivity.
  - destruct (eqb k k0) eqn:E; cbn [od_get].
    + apply bool_decide_eq_true_1 in E. subst k0.
      unfold eqb. rewrite !bool_decide_eq_false_2 by congruence.
      reflexivity.
    + destruct (eqb k' k0); [reflexivity|exact IH].
Qed.

Lemma od_set_set (k : K) (v1 v2 : V) (d : list (K * V)) :
  od_set eqb k v2 (od_set eqb k v1 d) = od_set eqb k v2 d.
Proof.
  induction d as [|[k' v'] d IH]; cbn [od_set].
  - unfold eqb. rewrite bool_decide_eq_true_2 by reflexivity. reflexivity.
  - destruct (eqb k k') eqn:E; cbn [od_set]; rewrite E; [reflexivity|].
    rewrite IH. reflexivity.
Qed.

Lemma od_set_fresh (k : K) (v : V) (d : list (K * V)) :
  ~ In k (od_keys d) -> od_set eqb k v d = d ++ [(k, v)].
Proof.
  induction d as [|[k' v'] d IH]; intros Hk; cbn [od_set]; [reflexivity|].
  unfold eqb at 1. rewrite bool_decide_eq_false_2.
  - cbn [app]. f_equal. apply IH. intros H. apply Hk. right. exact H.
  - intros ->. apply Hk. left. reflexivity.
Qed.

Lemma od_set_head (k : K) (v v' : V) (d : list (K * V)) :
  od_set eqb k v ((k, v') :: d) = (k, v) :: d.
Proof.
  cbn [od_set]. unfold eqb. rewrite bool_decide_eq_true_2 by reflexivity.
  reflexivity.
Qed.

Lemma od_keys_app (d1 d2 : list (K * V)) :
  od_keys (d1 ++ d2) = od_keys d1 ++ od_keys d2.
Proof. apply map_app. Qed.

End OrderedDictFacts.

(** ** ManifestSection.store *)

Lemma for_each_app {S A} (body : A -> M S unit) (l1 l2 : list A) (s : S) :
  for_each body (l1 ++ l2) s
  = bind (for_each body l1) (fun _ => for_each body l2) s.
Proof.
  revert s. induction l1 as [|a l1 IH]; intros s; cbn [app for_each].
  - reflexivity.
  - unfold bind in *. destruct (body a s) as [[[]|e] s']; [|reflexivity].
    apply IH.
Qed.

Lemma store_attrs_bytes (self : section) (linesep : str) :
  storable self ->
  forall stream,
    for_each
      (fun kv => write_key_val (Some (fst kv)) (Some (snd kv)) (Some linesep))
      self stream
    = (Ok tt,
       stream
       ++ concat
            (map (fun kv =>
                    concat (map (fun l => l ++ linesep)
                              (physical_lines (fst kv) (snd kv))))
               self)).
Proof.
  induction 1 as [|kv self Hkv _ IH]; intros stream; cbn [for_each map concat].
  - rewrite app_nil_r. reflexivity.
  - erewrite bind_Ok by (apply write_key_val_lines; exact Hkv).
    rewrite IH, <- app_assoc. reflexivity.
Qed.

Lemma store_section_bytes (self : section) (linesep stream : str) :
  storable self ->
  ManifestSection.store self (Some linesep) stream
  = (Ok tt, stream ++ section_bytes self linesep).
Proof.
  intros H. unfold ManifestSection.store, section_bytes.
  erewrite bind_Ok by (apply store_attrs_bytes; exact H).
  rewrite write_Some, <- app_assoc. reflexivity.
Qed.

Lemma get_data_section_bytes (self : section) (linesep : str) :
  storable self ->
  ManifestSection.get_data self (Some linesep)
  = Ok (section_bytes self linesep).
Proof.
  intros H. unfold ManifestSection.get_data, getvalue.
  rewrite store_section_bytes by assumption. reflexivity.
Qed.

(** Without a line separator a key of valid length is written but the
    separator is not. *)
Lemma write_key_val_no_linesep (key val stream : str) :
  0 < length key <= 68 ->
  fst (write_key_val (Some key) (Some val) None stream) = Raise TypeError.
Proof.
  intros Hkey.
  assert (Hk : or_str (Some key) [] = key) by (destruct key; reflexivity).
  assert (Hv : or_str (Some val) [] = val) by (destruct val; reflexivity).
  unfold write_key_val. rewrite Hk, Hv.
  replace (negb ((0 <? length key) && (length key <? 69))) with false.
  2:{ symmetry. apply negb_false_iff, andb_true_iff.
      split; apply Nat.ltb_lt; lia. }
  destruct (68 <? length key + length val) eqn:Hfold.
  - apply Nat.ltb_lt in Hfold.
    pose proof (length_kv key val) as Hlen.
    set (kv := key ++ py ": " ++ val) in *.
    unfold read.
    destruct (firstn 69 (skipn 70 kv)) as [|c part] eqn:Hpart.
    { apply (f_equal (@length ascii)) in Hpart.
      rewrite length_firstn, length_skipn in Hpart.
      cbn [length] in Hpart. lia. }
    erewrite bind_Raise; [reflexivity|].
    erewrite bind_Ok by apply write_Some.
    cbn [write_parts]. apply bind_Raise. reflexivity.
  - erewrite bind_Ok.
    2:{ erewrite bind_Ok by apply write_Some.
        erewrite bind_Ok by apply write_Some.
        apply write_Some. }
    reflexivity.
Qed.

Lemma store_no_linesep (self : section) :
  storable self ->
  forall stream,
    fst (ManifestSection.store self None stream) = Raise TypeError.
Proof.
  intros H stream. unfold ManifestSection.store.
  destruct H as [|kv self Hkv _]; cbn [for_each].
  - reflexivity.
  - pose proof (write_key_val_no_linesep (fst kv) (snd kv) stream Hkv) as Hw.
    destruct (write_key_val (Some (fst kv)) (Some (snd kv)) None stream)
      as [r stream'] eqn:E.
    assert (Hr : r = Raise TypeError).
    { change r with (fst (r, stream')). rewrite <- E. exact Hw. }
    subst r.
    erewrite bind_Raise; [reflexivity|].
    erewrite bind_Raise; [reflexivity|]. exact E.
Qed.

Lemma get_main_section_no_linesep (manifest : Manifest) :
  linesep manifest = None ->
  storable (attrs manifest) ->
  Manifest.get_main_section manifest = Raise TypeError.
Proof.
  intros Hls Hst. unfold Manifest.get_main_section, getvalue.
  rewrite Hls.
  pose proof (store_no_linesep (attrs manifest) Hst []) as H.
  destruct (ManifestSection.store (attrs manifest) None []) as [r s].
  cbn [fst] in H. subst r. reflexivity.
Qed.

Example Manifest_init_default :
  Manifest.__init__ Manifest.primary_key (Some (py "1.0")) None
  = Ok default_manifest.
Proof. reflexivity. Qed.

Example SignatureManifest_init_default :
  Manifest.__init__ SignatureManifest.primary_key (Some (py "1.0")) None
  = Ok example_signature.
Proof. reflexivity. Qed.

(** ** SignatureManifest.digest_manifest *)

Lemma java_algorithm_length (java_algorithm name : str) :
  od_get str_eqb java_algorithm JAVA_TO_HASHLIB = Some name ->
  length java_algorithm <= 7.
Proof.
  unfold JAVA_TO_HASHLIB. cbn [od_get]. unfold str_eqb.
  repeat (case_bool_decide; [subst; simpl; lia|]).
  discriminate.
Qed.

Lemma hash_data_fold (l : list str) :
  forall h,
    hash_data (fold_left hash_update l h) = hash_data h ++ concat l
    /\ hash_name (fold_left hash_update l h) = hash_name h.
Proof.
  induction l as [|d l IH]; intros h; cbn [fold_left concat].
  - rewrite app_nil_r. split; reflexivity.
  - destruct (IH (hash_update h d)) as [Hd Hn].
    rewrite Hd, Hn. cbn [hash_update hash_data hash_name].
    rewrite app_assoc. split; reflexivity.
Qed.

Lemma new_section_Name (name : option str) :
  new_section ManifestSection.primary_key name
  = Ok [(ManifestSection.primary_key, str_of name)].
Proof. reflexivity. Qed.

Section DigestFacts.

Variable os_linesep : str.
Variable hashlib : str -> str -> str.
Variable b64encode : str -> str.

Lemma digest_sub_sections_ok (ls sect_key digest : str) :
  length sect_key <= 68 ->
  sect_key <> ManifestSection.primary_key ->
  forall subs, Forall storable subs ->
  forall h_all self,
    SignatureManifest.digest_sub_sections hashlib b64encode
      ls sect_key digest subs h_all self
    = (Ok (fold_left hash_update
             (map (fun s => section_bytes s ls) subs) h_all),
       mkManifest (primary_key self) (attrs self)
         (digested_subs (fun data => b64encode (hashlib digest data))
            ls sect_key subs (sub_sections self))
         (linesep self)).
Proof.
  intros Hlen Hne subs Hsubs.
  induction Hsubs as [|s subs Hs _ IH]; intros h_all self.
  - destruct self. reflexivity.
  - cbn [SignatureManifest.digest_sub_sections map fold_left digested_subs].
    rewrite get_data_section_bytes by assumption.
    erewrite bind_Ok by reflexivity.
    erewrite bind_Ok by reflexivity.
    erewrite bind_Ok.
    2:{ unfold on_sub, set_sub, modify. cbn [sub_sections].
        pose proof (@od_get_set_eq (option str) section _) as Hget.
        unfold name_eqb. rewrite Hget.
        rewrite setitem_in_range by assumption.
        reflexivity. }
    rewrite IH. cbn [primary_key attrs sub_sections linesep].
    f_equal. f_equal. unfold digested_subs. f_equal.
    pose proof (@od_set_set (option str) section _) as Hset.
    unfold name_eqb. rewrite Hset.
    f_equal. cbn [od_set]. unfold str_eqb.
    rewrite bool_decide_eq_false_2 by assumption. reflexivity.
Qed.

End DigestFacts.

Lemma digested_subs_cons (digest_of : str -> str) (ls sect_key : str)
  (s : section) (subs : list section) (acc : list (option str * section)) :
  digested_subs digest_of ls sect_key (s :: subs) acc
  = digested_subs digest_of ls sect_key subs
      (od_set name_eqb (sub_name s)
         (digest_section sect_key (sub_name s)
            (digest_of (section_bytes s ls)))
         acc).
Proof. reflexivity. Qed.

Lemma digested_subs_other (digest_of : str -> str) (ls sect_key : str)
  (name : option str) (subs : list section) :
  ~ In name (map sub_name subs) ->
  forall acc,
    od_get name_eqb name (digested_subs digest_of ls sect_key subs acc)
    = od_get name_eqb name acc.
Proof.
  induction subs as [|s subs IH]; intros Hname acc; [reflexivity|].
  rewrite digested_subs_cons.
  rewrite IH by (intros H; apply Hname; right; exact H).
  apply (@od_get_set_neq (option str) section _).
  intros Heq. apply Hname. left. exact Heq.
Qed.

Lemma digested_subs_get (digest_of : str -> str) (ls sect_key : str)
  (subs : list section) :
  List.NoDup (map sub_name subs) ->
  forall acc s, In s subs ->
    od_get name_eqb (sub_name s) (digested_subs digest_of ls sect_key subs acc)
    = Some (digest_section sect_key (sub_name s)
              (digest_of (section_bytes s ls))).
Proof.
  induction subs as [|s0 subs IH]; intros Hnodup acc s Hin; [destruct Hin|].
  cbn [map] in Hnodup. apply NoDup_cons_iff in Hnodup.
  destruct Hnodup as [Hfresh Hnodup].
  rewrite digested_subs_cons.
  destruct Hin as [->|Hin].
  - rewrite digested_subs_other by exact Hfresh.
    apply (@od_get_set_eq (option str) section _).
  - apply IH; assumption.
Qed.

Section DigestManifest.

Variable os_linesep : str.
Variable hashlib : str -> str -> str.
Variable b64encode : str -> str.

(** C1. When [digest_manifest] runs on a source manifest with a line
    separator of its own, keys that can be written and sub-sections of
    different names [s1 ... sn] (in the order of [sub_sections]), under an
    algorithm of the table, it succeeds, and in the signature manifest
    - [<ALG>-Digest-Manifest] is the base64 of the hash of the bytes of the
      main section followed by those of [s1], ..., [sn], in this order;
    - [<ALG>-Digest-Manifest-Main-Attributes] is the base64 of the hash of
      the bytes of the main section alone;
    - the sub-section named as [si] holds under [<ALG>-Digest] the base64
      of the hash of the bytes of [si] alone. *)
Theorem digest_manifest_digests (manifest self : Manifest)
  (java_algorithm name ls : str) :
  od_get str_eqb java_algorithm JAVA_TO_HASHLIB = Some name ->
  linesep manifest = Some ls ->
  storable (attrs manifest) ->
  Forall storable (od_values (sub_sections manifest)) ->
  List.NoDup (map sub_name (od_values (sub_sections manifest))) ->
  let subs := od_values (sub_sections manifest) in
  let sub_linesep := or_str (Some ls) os_linesep in
  let main_data := section_bytes (attrs manifest) ls in
  let sub_data := fun s => section_bytes s sub_linesep in
  exists self',
    SignatureManifest.digest_manifest os_linesep hashlib b64encode
      manifest java_algorithm self = (Ok tt, self')
    /\ Manifest.get_main_section manifest = Ok main_data
    /\ Forall (fun s => ManifestSection.get_data s (Some sub_linesep)
                        = Ok (sub_data s)) subs
    /\ od_get str_eqb (java_algorithm ++ py "-Digest-Manifest") (attrs self')
       = Some (b64encode
                 (hashlib name (main_data ++ concat (map sub_data subs))))
    /\ od_get str_eqb (java_algorithm ++ py "-Digest-Manifest-Main-Attributes")
         (attrs self')
       = Some (b64encode (hashlib name main_data))
    /\ Forall (fun s =>
                 exists sf_sect,
                   od_get name_eqb (sub_name s) (sub_sections self')
                   = Some sf_sect
                   /\ od_get str_eqb (java_algorithm ++ py "-Digest") sf_sect
                      = Some (b64encode (hashlib name (sub_data s)))) subs.
Proof.
  intros Halg Hls Hmain Hsubs Hnodup subs sub_linesep main_data sub_data.
  pose proof (java_algorithm_length _ _ Halg) as Hlen.
  assert (Hget_main : Manifest.get_main_section manifest = Ok main_data).
  { unfold Manifest.get_main_section, getvalue. rewrite Hls.
    rewrite store_section_bytes by assumption. reflexivity. }
  set (all_key := java_algorithm ++ py "-Digest-Manifest").
  set (main_key := java_algorithm ++ py "-Digest-Manifest-Main-Attributes").
  set (sect_key := java_algorithm ++ py "-Digest").
  assert (Hall : length all_key <= 68)
    by (unfold all_key; rewrite length_app; simpl; lia).
  assert (Hmk : length main_key <= 68)
    by (unfold main_key; rewrite length_app; simpl; lia).
  assert (Hsk : length sect_key <= 68)
    by (unfold sect_key; rewrite length_app; simpl; lia).
  assert (Hsk_name : sect_key <> ManifestSection.primary_key).
  { intros H. apply (f_equal (@length ascii)) in H.
    unfold sect_key in H. rewrite length_app in H. simpl in H. lia. }
  assert (Hkeys : all_key <> main_key).
  { intros H. apply (f_equal (@length ascii)) in H.
    unfold all_key, main_key in H. rewrite !length_app in H.
    simpl in H. lia. }
  eexists. split; [|split; [exact Hget_main|split]].
  - unfold SignatureManifest.digest_manifest.
    rewrite Halg, Hls, Hget_main.
    erewrite bind_Ok by reflexivity.
    erewrite bind_Ok by reflexivity.
    erewrite bind_Ok.
    2:{ unfold on_attrs. fold main_key.
        rewrite setitem_in_range by assumption. reflexivity. }
    erewrite bind_Ok.
    2:{ fold sect_key. fold sub_linesep.
        apply digest_sub_sections_ok; assumption. }
    unfold on_attrs. cbn [attrs primary_key sub_sections linesep].
    fold all_key. rewrite setitem_in_range by assumption.
    reflexivity.
  - apply List.Forall_forall. intros s Hs.
    apply get_data_section_bytes.
    eapply List.Forall_forall in Hsubs; eassumption.
  - cbn [attrs sub_sections]. subst subs sub_data. cbv beta.
    destruct (hash_data_fold
                (map (fun s => section_bytes s sub_linesep)
                   (od_values (sub_sections manifest)))
                (hash_update (hash_new name) main_data)) as [Hd Hn].
    cbv beta in Hd, Hn.
    unfold SignatureManifest.hash_digest.
    rewrite Hd, Hn. cbn [hash_update hash_new hash_data hash_name app].
    split; [|split].
    + apply (@od_get_set_eq str str _).
    + unfold str_eqb.
      rewrite (@od_get_set_neq str str _) by assumption.
      apply (@od_get_set_eq str str _).
    + apply List.Forall_forall. intros s Hs.
      eexists. split.
      * apply digested_subs_get; assumption.
      * unfold digest_section. cbn [od_get]. unfold str_eqb.
        rewrite bool_decide_eq_false_2 by assumption.
        rewrite bool_decide_eq_true_2 by reflexivity. reflexivity.
Qed.

End DigestManifest.

Lemma digest_manifest_digests_witness :
  exists self',
    SignatureManifest.digest_manifest [CR; LF] example_hashlib id
      example_manifest (py "SHA-256") example_signature = (Ok tt, self')
    /\ od_get str_eqb (py "SHA-256-Digest-Manifest") (attrs self')
       = Some (py "sha256:Manifest-Version: 1.0" ++ [LF; LF]
               ++ py "Name: a" ++ [LF] ++ py "X: 1" ++ [LF; LF]
               ++ py "Name: b" ++ [LF; LF])
    /\ od_get str_eqb (py "SHA-256-Digest-Manifest-Main-Attributes")
         (attrs self')
       = Some (py "sha256:Manifest-Version: 1.0" ++ [LF; LF]).
Proof.
  destruct (digest_manifest_digests [CR; LF] example_hashlib id
              example_manifest example_signature
              (py "SHA-256") (py "sha256") [LF])
    as [self' [Hrun [_ [_ [Hall [Hmain _]]]]]].
  - reflexivity.
  - reflexivity.
  - repeat constructor.
  - repeat constructor.
  - repeat constructor; simpl; intuition discriminate.
  - exists self'. split; [exact Hrun|]. split; [exact Hall|exact Hmain].
Defined.

(** Without a line separator on the source manifest the main section
    cannot be written, although the sub-sections would fall back on
    [os.linesep]. *)
Lemma digest_manifest_no_linesep (os_linesep : str)
  (hashlib : str -> str -> str) (b64encode : str -> str)
  (manifest self : Manifest) (java_algorithm name : str) :
  od_get str_eqb java_algorithm JAVA_TO_HASHLIB = Some name ->
  linesep manifest = None ->
  storable (attrs manifest) ->
  SignatureManifest.digest_manifest os_linesep hashlib b64encode
    manifest java_algorithm self = (Raise TypeError, self).
Proof.
  intros Halg Hls Hmain.
  unfold SignatureManifest.digest_manifest.
  rewrite Halg, (get_main_section_no_linesep manifest Hls Hmain).
  reflexivity.
Qed.

(** C7 fails on the code. Digesting [Manifest()], which has no line
    separator configured, raises [TypeError] on every platform:
    [get_main_section] passes [self.linesep], which is [None], to the writer,
    and only the sub-sections are written with
    [manifest.linesep or os.linesep]. *)
Theorem digest_manifest_default_fails (os_linesep : str)
  (hashlib : str -> str -> str) (b64encode : str -> str) (self : Manifest) :
  linesep default_manifest = None
  /\ Manifest.get_main_section default_manifest = Raise TypeError
  /\ ManifestSection.get_data (attrs default_manifest)
       (Some (or_str (linesep default_manifest) [LF]))
     = Ok (py "Manifest-Version: 1.0" ++ [LF; LF])
  /\ SignatureManifest.digest_manifest os_linesep hashlib b64encode
       default_manifest (py "SHA-256") self = (Raise TypeError, self).
Proof.
  split; [reflexivity|]. split; [reflexivity|]. split; [reflexivity|].
  apply (digest_manifest_no_linesep _ _ _ _ _ _ (py "sha256")).
  - reflexivity.
  - reflexivity.
  - repeat constructor.
Qed.

(** ** sorted *)

Section SortedFacts.

Context {A : Type} (ltb : A -> A -> bool).

Hypothesis ltb_asym : forall a b, ltb a b = true -> ltb b a = false.

Lemma insert_sorted_Permutation (x : A) (l : list A) :
  Permutation (insert_sorted ltb x l) (x :: l).
Proof.
  induction l as [|y l IH]; cbn [insert_sorted]; [reflexivity|].
  destruct (ltb y x); [|reflexivity].
  rewrite IH. apply perm_swap.
Qed.

Lemma sorted_Permutation (l : list A) : Permutation (sorted ltb l) l.
Proof.
  induction l as [|x l IH]; cbn [sorted fold_right]; [reflexivity|].
  fold (sorted ltb l). rewrite insert_sorted_Permutation, IH. reflexivity.
Qed.

Lemma insert_sorted_HdRel (x y : A) (l : list A) :
  ltb y x = true ->
  HdRel (fun a b => ltb b a = false) y l ->
  HdRel (fun a b => ltb b a = false) y (insert_sorted ltb x l).
Proof.
  intros Hyx Hl. destruct l as [|z l]; cbn [insert_sorted].
  - constructor. apply ltb_asym. exact Hyx.
  - inversion Hl; subst.
    destruct (ltb z x); constructor; [assumption|].
    apply ltb_asym. exact Hyx.
Qed.

Lemma insert_sorted_Sorted (x : A) (l : list A) :
  Sorted (fun a b => ltb b a = false) l ->
  Sorted (fun a b => ltb b a = false) (insert_sorted ltb x l).
Proof.
  induction 1 as [|y l Hl IH Hhd]; cbn [insert_sorted].
  - repeat constructor.
  - destruct (ltb y x) eqn:Hyx.
    + constructor; [exact IH|].
      apply insert_sorted_HdRel; assumption.
    + constructor; [constructor; assumption|].
      constructor. exact Hyx.
Qed.

Lemma sorted_Sorted (l : list A) :
  Sorted (fun a b => ltb b a = false) (sorted ltb l).
Proof.
  induction l as [|x l IH]; cbn [sorted fold_right]; [constructor|].
  apply insert_sorted_Sorted. exact IH.
Qed.

End SortedFacts.

(** ** The ordering of sections *)

Lemma str_compare_antisym (a b : str) :
  str_compare a b = CompOpp (str_compare b a).
Proof.
  revert b. induction a as [|x a IH]; intros [|y b]; cbn [str_compare];
    try reflexivity.
  rewrite (Ascii.compare_antisym x y).
  destruct (Ascii.compare y x); cbn [CompOpp]; [apply IH|reflexivity..].
Qed.

Lemma dict_compare_antisym (a b : section) :
  dict_compare a b = CompOpp (dict_compare b a).
Proof.
  unfold dict_compare.
  rewrite (Nat.compare_antisym (length a) (length b)).
  destruct (Nat.compare (length a) (length b)); cbn [CompOpp];
    try reflexivity.
  destruct (characterize a b) as [[adiff aval]|],
           (characterize b a) as [[bdiff bval]|]; try reflexivity.
  rewrite (str_compare_antisym bdiff adiff).
  destruct (str_compare adiff bdiff); cbn [CompOpp]; try reflexivity.
  apply str_compare_antisym.
Qed.

Lemma section_ltb_asym (a b : section) :
  section_ltb a b = true -> section_ltb b a = false.
Proof.
  unfold section_ltb. rewrite (dict_compare_antisym b a).
  destruct (dict_compare a b); cbn [CompOpp]; congruence.
Qed.

(** A section with fewer attributes comes first, whatever its name. *)
Lemma section_ltb_shorter (a b : section) :
  length a < length b -> section_ltb a b = true.
Proof.
  intros H. unfold section_ltb, dict_compare.
  apply Nat.compare_lt_iff in H. rewrite H. reflexivity.
Qed.

(** ** Manifest.store *)

Lemma store_sections_bytes (linesep : str) (sects : list section) :
  Forall storable sects ->
  forall stream,
    for_each (fun sect => ManifestSection.store sect (Some linesep))
      sects stream
    = (Ok tt,
       stream ++ concat (map (fun sect => section_bytes sect linesep) sects)).
Proof.
  induction 1 as [|sect sects Hsect _ IH]; intros stream;
    cbn [for_each map concat].
  - rewrite app_nil_r. reflexivity.
  - erewrite bind_Ok by (apply store_section_bytes; exact Hsect).
    rewrite IH, <- app_assoc. reflexivity.
Qed.

(** C8 (as the code has it). [Manifest.store] writes the main section
    first and then every sub-section exactly once, in the order in which
    [sorted] puts the section objects themselves: a section is never
    followed by one that is smaller in the ordering of dictionaries (fewer
    attributes first, then the smallest differing key decides). The names
    play no part of their own. *)
Theorem store_sorted_sections (os_linesep : str) (self : Manifest)
  (linesep_arg : option str) (stream : str) :
  storable (attrs self) ->
  Forall storable (od_values (sub_sections self)) ->
  let ls := or_str linesep_arg (or_str (linesep self) os_linesep) in
  let written := sorted section_ltb (od_values (sub_sections self)) in
  Manifest.store os_linesep self linesep_arg stream
  = (Ok tt,
     stream ++ section_bytes (attrs self) ls
     ++ concat (map (fun sect => section_bytes sect ls) written))
  /\ Forall (fun sect => ManifestSection.get_data sect (Some ls)
                         = Ok (section_bytes sect ls))
       (attrs self :: written)
  /\ Permutation written (od_values (sub_sections self))
  /\ Sorted (fun a b => section_ltb b a = false) written.
Proof.
  intros Hmain Hsubs ls written.
  assert (Hperm : Permutation written (od_values (sub_sections self)))
    by apply sorted_Permutation.
  assert (Hwritten : Forall storable written).
  { eapply Permutation_Forall; [|exact Hsubs]. symmetry. exact Hperm. }
  split; [|split; [|split; [exact Hperm|]]].
  - unfold Manifest.store. fold ls. fold written.
    erewrite bind_Ok by (apply store_section_bytes; exact Hmain).
    rewrite store_sections_bytes by exact Hwritten.
    rewrite <- app_assoc. reflexivity.
  - constructor; [apply get_data_section_bytes; exact Hmain|].
    eapply List.Forall_impl; [|exact Hwritten].
    intros sect Hsect. apply get_data_section_bytes. exact Hsect.
  - apply sorted_Sorted. exact section_ltb_asym.
Qed.

Lemma store_sorted_sections_witness :
  Manifest.store [LF] example_manifest None []
  = (Ok tt,
     [] ++ section_bytes (attrs example_manifest) [LF]
     ++ concat (map (fun sect => section_bytes sect [LF])
                  (sorted section_ltb
                     (od_values (sub_sections example_manifest)))))
  /\ Forall (fun sect => ManifestSection.get_data sect (Some [LF])
                         = Ok (section_bytes sect [LF]))
       (attrs example_manifest
        :: sorted section_ltb (od_values (sub_sections example_manifest)))
  /\ Permutation
       (sorted section_ltb (od_values (sub_sections example_manifest)))
       (od_values (sub_sections example_manifest))
  /\ Sorted (fun a b => section_ltb b a = false)
       (sorted section_ltb (od_values (sub_sections example_manifest))).
Proof.
  apply (store_sorted_sections [LF] example_manifest None []).
  - repeat constructor.
  - repeat constructor.
Defined.

(** C8 as stated fails: the sub-section [b], which has one attribute, is
    written before the sub-section [a], which has two. *)
Lemma store_not_sorted_by_name :
  Manifest.get_data [LF] example_manifest None
  = Ok (py "Manifest-Version: 1.0" ++ [LF; LF]
        ++ py "Name: b" ++ [LF; LF]
        ++ py "Name: a" ++ [LF] ++ py "X: 1" ++ [LF; LF])
  /\ spec_store [LF] example_manifest None
     = py "Manifest-Version: 1.0" ++ [LF; LF]
       ++ py "Name: a" ++ [LF] ++ py "X: 1" ++ [LF; LF]
       ++ py "Name: b" ++ [LF; LF]
  /\ Manifest.get_data [LF] example_manifest None
     <> Ok (spec_store [LF] example_manifest None).
Proof.
  split; [reflexivity|]. split; [reflexivity|].
  intros H. vm_compute in H. discriminate H.
Qed.

(** ** Reading back what was written *)

Lemma readlines_line (body rest : str) :
  ~ In LF body ->
  readlines (body ++ LF :: rest) = (body ++ [LF]) :: readlines rest.
Proof.
  induction body as [|c body IH]; intros Hbody.
  - reflexivity.
  - cbn [app readlines].
    destruct (Ascii.eqb c LF) eqn:E.
    + apply Ascii.eqb_eq in E. subst c. exfalso. apply Hbody. left.
      reflexivity.
    + rewrite IH by (intros H; apply Hbody; right; exact H).
      reflexivity.
Qed.

Lemma plain_no_LF (s : str) : Forall plain_char s -> ~ In LF s.
Proof.
  intros H Hin. eapply List.Forall_forall in H; [|exact Hin].
  destruct H as [_ [H _]]. congruence.
Qed.

(** The lines of a text whose lines all end with the separator. *)
Lemma readlines_lines (linesep : str) (texts : list str) :
  newline linesep ->
  Forall (Forall plain_char) texts ->
  readlines (concat (map (fun t => t ++ linesep) texts))
  = map (fun t => t ++ linesep) texts.
Proof.
  intros Hsep. induction 1 as [|t texts Ht _ IH]; [reflexivity|].
  cbn [map concat].
  destruct Hsep as [-> | ->].
  - rewrite <- app_assoc. cbn [app].
    rewrite readlines_line by (apply plain_no_LF; exact Ht).
    rewrite IH. reflexivity.
  - replace ((t ++ [CR; LF]) ++ concat (map (fun t0 => t0 ++ [CR; LF]) texts))
      with ((t ++ [CR]) ++ LF :: concat (map (fun t0 => t0 ++ [CR; LF]) texts))
      by (rewrite <- !app_assoc; reflexivity).
    rewrite readlines_line.
    + rewrite IH, <- app_assoc. reflexivity.
    + intros Hin. apply in_app_or in Hin. destruct Hin as [Hin|Hin].
      * revert Hin. apply plain_no_LF. exact Ht.
      * destruct Hin as [Hin|[]]. discriminate Hin.
Qed.

Lemma replace_nul_plain (s : str) :
  Forall (fun c => c <> NUL) s -> replace_nul s = s.
Proof.
  induction 1 as [|c s Hc _ IH]; [reflexivity|].
  unfold replace_nul in *. cbn [List.filter].
  destruct (Ascii.eqb c NUL) eqn:E.
  - apply Ascii.eqb_eq in E. congruence.
  - cbn [negb]. rewrite IH. reflexivity.
Qed.

Lemma first_line_plain (t rest : str) (c : ascii) :
  Forall plain_char t -> c = LF \/ c = CR ->
  first_line (t ++ c :: rest) = t.
Proof.
  intros Ht Hc. induction Ht as [|x t Hx _ IH]; cbn [app first_line].
  - destruct Hc as [-> | ->]; reflexivity.
  - destruct Hx as [_ [Hlf Hcr]].
    destruct (Ascii.eqb x LF) eqn:E1.
    { apply Ascii.eqb_eq in E1. congruence. }
    destruct (Ascii.eqb x CR) eqn:E2.
    { apply Ascii.eqb_eq in E2. congruence. }
    cbn [orb]. rewrite IH. reflexivity.
Qed.

Lemma cleanline_plain (linesep t : str) :
  newline linesep -> Forall plain_char t ->
  cleanline (t ++ linesep) = Ok t.
Proof.
  intros Hsep Ht. unfold cleanline.
  rewrite replace_nul_plain.
  - destruct Hsep as [-> | ->].
    + destruct (t ++ [LF]) as [|c s] eqn:E.
      { destruct t; discriminate E. }
      rewrite <- E. rewrite first_line_plain; auto.
    + destruct (t ++ [CR; LF]) as [|c s] eqn:E.
      { destruct t; discriminate E. }
      rewrite <- E. rewrite first_line_plain; auto.
  - apply Forall_app. split.
    + eapply List.Forall_impl; [|exact Ht]. intros c [H _]. exact H.
    + destruct Hsep as [-> | ->]; repeat constructor; discriminate.
Qed.

Lemma split_colon_key (k rest : str) :
  ~ In COLON k -> split_colon (k ++ COLON :: rest) = Ok (k, rest).
Proof.
  induction k as [|c k IH]; intros Hk; cbn [app split_colon].
  - reflexivity.
  - destruct (Ascii.eqb c COLON) eqn:E.
    + apply Ascii.eqb_eq in E. subst c. exfalso. apply Hk. left. reflexivity.
    + rewrite IH by (intros H; apply Hk; right; exact H). reflexivity.
Qed.

Lemma attr_text_plain (kv : str * str) :
  plain_attr kv -> Forall plain_char (attr_text kv).
Proof.
  intros [[_ [Hk _]] [Hv _]]. unfold attr_text.
  apply Forall_app. split; [exact Hk|].
  apply Forall_app. split; [|exact Hv].
  repeat constructor; discriminate.
Qed.

Lemma section_texts_plain (self : section) :
  Forall plain_attr self -> Forall (Forall plain_char) (section_texts self).
Proof.
  intros H. unfold section_texts. apply Forall_app. split.
  - apply Forall_map. eapply List.Forall_impl; [|exact H].
    intros kv Hkv. apply attr_text_plain. exact Hkv.
  - repeat constructor.
Qed.

Lemma plain_storable (self : section) :
  Forall plain_attr self -> storable self.
Proof.
  intros H. eapply List.Forall_impl; [|exact H].
  intros kv [[Hlen _] _]. exact Hlen.
Qed.

(** The bytes of a section stored without folding are its lines. *)
Lemma section_bytes_texts (self : section) (linesep : str) :
  Forall plain_attr self ->
  section_bytes self linesep
  = concat (map (fun t => t ++ linesep) (section_texts self)).
Proof.
  intros H. unfold section_bytes, section_texts.
  rewrite map_app, concat_app. cbn [map concat app].
  rewrite app_nil_r. f_equal.
  induction H as [|kv self Hkv _ IH]; [reflexivity|].
  cbn [map concat]. rewrite IH. f_equal.
  destruct Hkv as [_ [_ Hshort]].
  rewrite physical_lines_short by exact Hshort.
  cbn [map concat]. rewrite app_nil_r. reflexivity.
Qed.

Lemma scan_attr (linesep : str) (kv : str * str) (lines : list str)
  (lineno : nat) (curr : option tokens) :
  newline linesep -> plain_attr kv ->
  scan lineno ((attr_text kv ++ linesep) :: lines) curr
  = scan (S lineno) lines
      (Some (open_section curr ++ [(fst kv, [snd kv])])).
Proof.
  intros Hsep Hkv. cbn [scan].
  rewrite (cleanline_plain linesep _ Hsep (attr_text_plain kv Hkv)).
  destruct Hkv as [[Hlen [_ [Hcolon Hhd]]] _].
  unfold attr_text.
  destruct (fst kv) as [|c0 k] eqn:Hk; [simpl in Hlen; lia|].
  cbn [app hd] in *.
  destruct (Ascii.eqb c0 SP) eqn:E.
  { apply Ascii.eqb_eq in E. congruence. }
  change (c0 :: k ++ py ": " ++ snd kv)
    with ((c0 :: k) ++ COLON :: SP :: snd kv).
  rewrite split_colon_key by exact Hcolon.
  destruct curr; reflexivity.
Qed.

Lemma scan_attrs (linesep : str) (lines : list str) (Hsep : newline linesep) :
  forall (self : section) (lineno : nat) (curr : option tokens),
    Forall plain_attr self ->
    scan lineno (map (fun t => t ++ linesep) (map attr_text self) ++ lines)
      curr
    = scan (lineno + length self) lines
        (match self with
         | [] => curr
         | _ :: _ => Some (open_section curr ++ tokens_of self)
         end).
Proof.
  induction self as [|kv self IH]; intros lineno curr Hself.
  - cbn [map app length]. rewrite Nat.add_0_r. reflexivity.
  - inversion Hself as [|? ? Hkv Hrest]; subst.
    cbn [map app length].
    rewrite scan_attr by assumption.
    rewrite IH by assumption.
    replace (S lineno + length self) with (lineno + S (length self)) by lia.
    f_equal. destruct self as [|kv' self]; [reflexivity|].
    cbn [open_section tokens_of map]. rewrite <- app_assoc. reflexivity.
Qed.

Lemma scan_section (linesep : str) (lines : list str) (Hsep : newline linesep)
  (self : section) (lineno : nat) :
  self <> [] -> Forall plain_attr self ->
  scan lineno (map (fun t => t ++ linesep) (section_texts self) ++ lines) None
  = yield (tokens_of self) (scan (lineno + length self + 1) lines None).
Proof.
  intros Hne Hself. unfold section_texts.
  rewrite map_app, <- app_assoc.
  rewrite scan_attrs by assumption.
  destruct self as [|kv self]; [congruence|].
  pose proof (cleanline_plain linesep [] Hsep (List.Forall_nil _)) as Hblank.
  cbn [app] in Hblank.
  cbn [map app scan open_section]. rewrite Hblank.
  cbn [tokens_of map].
  replace (S (lineno + length (kv :: self)))
    with (lineno + length (kv :: self) + 1) by lia.
  reflexivity.
Qed.

Lemma scan_sections (linesep : str) (Hsep : newline linesep) :
  forall (sects : list section) (lineno : nat),
    Forall (fun self => self <> [] /\ Forall plain_attr self) sects ->
    scan lineno
      (map (fun t => t ++ linesep) (concat (map section_texts sects))) None
    = (map tokens_of sects, Ok None).
Proof.
  induction sects as [|self sects IH]; intros lineno Hsects; [reflexivity|].
  inversion Hsects as [|? ? [Hne Hself] Hrest]; subst.
  cbn [map concat]. rewrite map_app.
  rewrite scan_section by assumption.
  rewrite IH by assumption. reflexivity.
Qed.

Lemma concat_section_bytes (linesep : str) (sects : list section) :
  Forall (fun self => self <> [] /\ Forall plain_attr self) sects ->
  concat (map (fun self => section_bytes self linesep) sects)
  = concat (map (fun t => t ++ linesep) (concat (map section_texts sects))).
Proof.
  induction 1 as [|self sects [_ Hself] _ IH]; [reflexivity|].
  cbn [map concat]. rewrite map_app, concat_app, IH.
  rewrite section_bytes_texts by exact Hself. reflexivity.
Qed.

(** The tokenizer gives back the sections that were stored. *)
Lemma parse_sections_stored (linesep : str) (self : section)
  (sects : list section) :
  newline linesep ->
  Forall (fun self => self <> [] /\ Forall plain_attr self) (self :: sects) ->
  parse_sections
    (concat (map (fun s => section_bytes s linesep) (self :: sects)))
  = (map tokens_of (self :: sects), None).
Proof.
  intros Hsep Hsects.
  rewrite concat_section_bytes by exact Hsects.
  unfold parse_sections.
  rewrite readlines_lines; [|exact Hsep|].
  - rewrite scan_sections by assumption.
    destruct (concat (map (fun t => t ++ linesep)
                        (concat (map section_texts (self :: sects)))))
      as [|c data] eqn:E; [|reflexivity].
    exfalso. inversion Hsects as [|? ? [Hne _] _]; subst.
    destruct self as [|kv self]; [congruence|].
    cbn [map concat section_texts app] in E.
    destruct (attr_text kv ++ linesep) as [|c l] eqn:E'.
    + destruct Hsep as [-> | ->]; destruct (attr_text kv); discriminate E'.
    + discriminate E.
  - clear Hsep. induction Hsects as [|s l [_ Hs] _ IH]; [constructor|].
    cbn [map concat]. apply Forall_app. split; [|exact IH].
    apply section_texts_plain. exact Hs.
Qed.

(** ** Loading sections *)

Lemma load_fresh (self : section) :
  forall d : section,
    Forall (fun kv => length (fst kv) <= 68) self ->
    List.NoDup (od_keys d ++ od_keys self) ->
    ManifestSection.load (tokens_of self) d = (Ok tt, d ++ self).
Proof.
  induction self as [|[k v] self IH]; intros d Hlen Hnodup.
  - rewrite app_nil_r. reflexivity.
  - inversion Hlen as [|? ? Hk Hrest]; subst. cbn [fst] in Hk.
    unfold ManifestSection.load in *.
    cbn [tokens_of map for_each fst snd concat].
    erewrite bind_Ok.
    2:{ rewrite setitem_in_range by exact Hk. reflexivity. }
    rewrite app_nil_r. cbn [str_of].
    unfold str_eqb. rewrite (@od_set_fresh str str _).
    + fold (tokens_of self). rewrite IH.
      * rewrite <- app_assoc. reflexivity.
      * exact Hrest.
      * rewrite od_keys_app, <- app_assoc. exact Hnodup.
    + cbn [od_keys map fst] in Hnodup.
      apply NoDup_remove_2 in Hnodup.
      intros Hin. apply Hnodup. apply in_or_app. left. exact Hin.
Qed.

(** Loading into a fresh object, which holds its primary key only. *)
Lemma load_primary (pk v0 : str) (self : section) :
  hd_error (od_keys self) = Some pk ->
  List.NoDup (od_keys self) ->
  Forall (fun kv => length (fst kv) <= 68) self ->
  ManifestSection.load (tokens_of self) [(pk, v0)] = (Ok tt, self).
Proof.
  intros Hhd Hnodup Hlen.
  destruct self as [|[k v] self]; [discriminate Hhd|].
  cbn [od_keys map fst hd_error] in Hhd. injection Hhd as ->.
  inversion Hlen as [|? ? Hk Hrest]; subst. cbn [fst] in Hk.
  pose proof (load_fresh self [(pk, v)] Hrest Hnodup) as Hload.
  unfold ManifestSection.load in *.
  cbn [tokens_of map for_each fst snd concat].
  erewrite bind_Ok.
  2:{ rewrite setitem_in_range by exact Hk. reflexivity. }
  rewrite app_nil_r. cbn [str_of].
  unfold str_eqb. rewrite (@od_set_head str str _).
  exact Hload.
Qed.

Lemma plain_section_lengths (pk : str) (self : section) :
  plain_section pk self -> Forall (fun kv => length (fst kv) <= 68) self.
Proof.
  intros [_ [_ H]]. eapply List.Forall_impl; [|exact H].
  intros kv [[[_ Hlen] _] _]. exact Hlen.
Qed.

Lemma plain_section_nonempty (pk : str) (self : section) :
  plain_section pk self -> self <> [] /\ Forall plain_attr self.
Proof.
  intros [Hhd [_ H]]. split; [|exact H].
  intros ->. discriminate Hhd.
Qed.

(** The loop of [Manifest.parse] over the sections after the first. *)
Lemma parse_sub_sections (sects : list section) :
  Forall (plain_section ManifestSection.primary_key) sects ->
  forall self : Manifest,
    List.NoDup (od_keys (sub_sections self) ++ map sub_name sects) ->
    for_each
      (fun section =>
         next_section <- lift (new_section ManifestSection.primary_key None) ;;
         match ManifestSection.load section next_section with
         | (Ok _, next_section) =>
           set_sub
             (ManifestSection.primary ManifestSection.primary_key next_section)
             next_section
         | (Raise e, _) => raise e
         end)
      (map tokens_of sects) self
    = (Ok tt,
       mkManifest (primary_key self) (attrs self)
         (sub_sections self ++ indexed sects) (linesep self)).
Proof.
  induction 1 as [|sect sects Hsect _ IH]; intros self Hnodup.
  - cbn [map for_each indexed]. rewrite app_nil_r. destruct self. reflexivity.
  - cbn [map for_each].
    erewrite bind_Ok.
    2:{ rewrite new_section_Name. erewrite bind_Ok by reflexivity.
        destruct Hsect as [Hhd [Hnd Hattrs]].
        rewrite load_primary;
          [|exact Hhd|exact Hnd
           |apply (plain_section_lengths ManifestSection.primary_key);
            repeat split; assumption].
        unfold set_sub, modify. unfold name_eqb.
        rewrite (@od_set_fresh (option str) section _); [reflexivity|].
        cbn [map] in Hnodup. apply NoDup_remove_2 in Hnodup.
        intros Hin. apply Hnodup. apply in_or_app. left. exact Hin. }
    rewrite IH.
    + cbn [primary_key attrs sub_sections linesep indexed map].
      rewrite <- app_assoc. reflexivity.
    + cbn [sub_sections]. rewrite od_keys_app, <- app_assoc.
      exact Hnodup.
Qed.

(** ** Storing, then parsing *)

Lemma get_data_bytes (os_linesep : str) (self : Manifest)
  (linesep_arg : option str) :
  storable (attrs self) ->
  Forall storable (od_values (sub_sections self)) ->
  Manifest.get_data os_linesep self linesep_arg
  = Ok (concat
          (map (fun s =>
                  section_bytes s
                    (or_str linesep_arg (or_str (linesep self) os_linesep)))
             (attrs self
              :: sorted section_ltb (od_values (sub_sections self))))).
Proof.
  intros Hmain Hsubs.
  unfold Manifest.get_data, getvalue, Manifest.store.
  erewrite bind_Ok by (apply store_section_bytes; exact Hmain).
  rewrite store_sections_bytes.
  - reflexivity.
  - eapply Permutation_Forall; [|exact Hsubs].
    symmetry. apply sorted_Permutation.
Qed.

(** C6 (as the code has it). Take a manifest whose main section begins
    with [Manifest-Version], whose sub-sections begin with their [Name] and
    have different names, whose keys are non-empty, hold no colon and do not
    begin with a space, whose keys and values hold no NUL byte and no line
    break and need no folding, and a separator that is LF or CR LF. Parsing
    what [store] writes into a new [Manifest] gives the same main attributes
    in the same order and the same sub-sections, each with the same
    attributes in the same order, indexed under their names in the order in
    which [store] wrote them. *)
Theorem parse_store_roundtrip (os_linesep : str) (m : Manifest)
  (linesep_arg version linesep0 : option str) :
  plain_manifest m ->
  newline (or_str linesep_arg (or_str (linesep m) os_linesep)) ->
  exists (data : str) (fresh : Manifest),
    Manifest.get_data os_linesep m linesep_arg = Ok data
    /\ Manifest.__init__ Manifest.primary_key version linesep0 = Ok fresh
    /\ Manifest.parse data fresh
       = (Ok tt,
          mkManifest Manifest.primary_key (attrs m)
            (indexed (sorted section_ltb (od_values (sub_sections m))))
            linesep0)
    /\ Permutation
         (od_values
            (indexed (sorted section_ltb (od_values (sub_sections m)))))
         (od_values (sub_sections m)).
Proof.
  intros [Hmain [Hsubs Hnames]] Hsep.
  set (ls := or_str linesep_arg (or_str (linesep m) os_linesep)) in *.
  set (written := sorted section_ltb (od_values (sub_sections m))).
  assert (Hperm : Permutation written (od_values (sub_sections m)))
    by apply sorted_Permutation.
  assert (Hwritten : Forall (plain_section ManifestSection.primary_key) written).
  { eapply Permutation_Forall; [|exact Hsubs]. symmetry. exact Hperm. }
  assert (Hwnames : List.NoDup (map sub_name written)).
  { eapply Permutation_NoDup; [|exact Hnames].
    apply Permutation_map. symmetry. exact Hperm. }
  eexists.
  exists (mkManifest Manifest.primary_key
            [(Manifest.primary_key, str_of version)] [] linesep0).
  split; [|split; [reflexivity|split]].
  - apply get_data_bytes.
    + apply plain_storable. apply Hmain.
    + eapply List.Forall_impl; [|exact Hsubs].
      intros s Hs. apply plain_storable. apply Hs.
  - fold ls. fold written.
    unfold Manifest.parse.
    rewrite parse_sections_stored.
    + cbn [fst snd map].
      erewrite bind_Ok.
      2:{ unfold on_attrs. cbn [attrs].
          destruct Hmain as [Hhd [Hnd Hattrs]].
          rewrite load_primary;
            [reflexivity|exact Hhd|exact Hnd
            |apply (plain_section_lengths Manifest.primary_key);
             repeat split; assumption]. }
      erewrite bind_Ok.
      2:{ apply parse_sub_sections; [exact Hwritten|].
          cbn [sub_sections od_keys map app]. exact Hwnames. }
      reflexivity.
    + exact Hsep.
    + constructor.
      * apply (plain_section_nonempty Manifest.primary_key). exact Hmain.
      * eapply List.Forall_impl; [|exact Hwritten].
        intros s Hs.
        apply (plain_section_nonempty ManifestSection.primary_key). exact Hs.
  - unfold indexed, od_values. rewrite map_map. cbn [snd].
    rewrite map_id. exact Hperm.
Qed.

Lemma parse_store_roundtrip_witness :
  exists (data : str) (fresh : Manifest),
    Manifest.get_data [CR; LF] example_manifest None = Ok data
    /\ Manifest.__init__ Manifest.primary_key (Some (py "1.0")) None
       = Ok fresh
    /\ Manifest.parse data fresh
       = (Ok tt,
          mkManifest Manifest.primary_key (attrs example_manifest)
            (indexed
               (sorted section_ltb
                  (od_values (sub_sections example_manifest))))
            None)
    /\ Permutation
         (od_values
            (indexed
               (sorted section_ltb
                  (od_values (sub_sections example_manifest)))))
         (od_values (sub_sections example_manifest)).
Proof.
  apply (parse_store_roundtrip [CR; LF] example_manifest None
           (Some (py "1.0")) None).
  - repeat split; cbn;
      repeat (constructor; repeat split; cbn;
              try lia; try discriminate; try tauto);
      intuition discriminate.
  - left. reflexivity.
Defined.

(** C6 as stated fails: a value of two lines needs no folding, and what
    [store] writes for it cannot be parsed. *)
Lemma roundtrip_fails_two_lines :
  Forall (fun kv => length (fst kv) + length (snd kv) <= 68)
    (attrs two_line_manifest)
  /\ Manifest.get_data [LF] two_line_manifest None
     = Ok (py "Manifest-Version: 1.0" ++ [LF]
           ++ py "Comment: first" ++ [LF] ++ py "second" ++ [LF; LF])
  /\ Manifest.parse
       (py "Manifest-Version: 1.0" ++ [LF]
        ++ py "Comment: first" ++ [LF] ++ py "second" ++ [LF; LF])
       default_manifest
     = (Raise ValueError, default_manifest).
Proof.
  split; [repeat constructor; simpl; lia|].
  split; reflexivity.
Qed.

(** Nor does a carriage return as separator come back: [StringIO] splits
    lines at LF only, and the tokenizer keeps the text before the first
    line break of each. *)
Lemma roundtrip_fails_cr :
  Manifest.get_data [LF] cr_manifest None
  = Ok (py "Manifest-Version: 1.0" ++ [CR]
        ++ py "Created-By: me" ++ [CR; CR])
  /\ Manifest.parse
       (py "Manifest-Version: 1.0" ++ [CR]
        ++ py "Created-By: me" ++ [CR; CR])
       default_manifest
     = (Ok tt, default_manifest).
Proof. split; reflexivity. Qed.

(** * Further properties *)

(** ** What parse_sections yields *)

Lemma append_last_fragments (curr : tokens) (x : str) (curr' : tokens) :
  Forall (fun kv => snd kv <> []) curr ->
  append_last curr x = Ok curr' ->
  Forall (fun kv => snd kv <> []) curr'.
Proof.
  revert curr'. induction curr as [|[k vs] curr IH]; intros curr' Hc Happ.
  - discriminate Happ.
  - inversion Hc as [|? ? Hkv Hrest]; subst.
    cbn [append_last] in Happ. destruct curr as [|kv curr].
    + injection Happ as <-. constructor; [|constructor].
      cbn [snd]. destruct vs; discriminate.
    + destruct (append_last (kv :: curr) x) as [c|e] eqn:E;
        [|discriminate Happ].
      injection Happ as <-. constructor; [exact Hkv|].
      apply IH; [exact Hrest|reflexivity].
Qed.

Lemma scan_well_formed (lines : list str) :
  forall lineno curr,
    (forall c, curr = Some c -> Forall (fun kv => snd kv <> []) c) ->
    Forall (fun sect => sect <> [] /\ Forall (fun kv => snd kv <> []) sect)
      (fst (scan lineno lines curr))
    /\ (forall c, snd (scan lineno lines curr) = Ok (Some c) ->
        Forall (fun kv => snd kv <> []) c).
Proof.
  induction lines as [|line lines IH]; intros lineno curr Hcurr.
  - cbn [scan fst snd]. split; [constructor|].
    intros c Hc. apply Hcurr. injection Hc as ->. reflexivity.
  - cbn [scan].
    destruct (cleanline line) as [[|c0 tl]|e].
    + destruct curr as [[|kv c]|]; try (apply IH; exact Hcurr).
      unfold yield. cbn [fst snd].
      destruct (IH (S lineno) None) as [Hys Hend]; [discriminate|].
      split; [|exact Hend].
      constructor; [|exact Hys].
      split; [discriminate|]. apply Hcurr. reflexivity.
    + destruct (Ascii.eqb c0 SP).
      * destruct curr as [c|].
        -- destruct (append_last c tl) as [c'|e] eqn:E.
           ++ apply IH. intros c1 Hc1. injection Hc1 as <-.
              eapply append_last_fragments; [|exact E].
              apply Hcurr. reflexivity.
           ++ cbn [fst snd]. split; [constructor|discriminate].
        -- cbn [fst snd]. split; [constructor|discriminate].
      * destruct (split_colon (c0 :: tl)) as [[key val]|e].
        -- apply IH. intros c1 Hc1. injection Hc1 as <-.
           apply Forall_app. split.
           ++ destruct curr as [c|]; [apply Hcurr; reflexivity|constructor].
           ++ constructor; [discriminate|constructor].
        -- cbn [fst snd]. split; [constructor|discriminate].
    + cbn [fst snd]. split; [constructor|discriminate].
Qed.

(** X1. Whatever the input, and whether or not the tokenizer ends with an
    exception, every section it yields holds at least one key, and every key
    at least one value fragment: blank lines never produce an empty
    section. *)
Theorem parse_sections_well_formed (data : str) :
  Forall (fun sect => sect <> [] /\ Forall (fun kv => snd kv <> []) sect)
    (fst (parse_sections data)).
Proof.
  unfold parse_sections. destruct data as [|c data]; [constructor|].
  destruct (scan_well_formed (readlines (c :: data)) 0 None) as [Hys Hend];
    [discriminate|].
  destruct (scan 0 (readlines (c :: data)) None) as [ys r] eqn:E.
  assert (Hys' : Forall
            (fun sect : tokens =>
               sect <> [] /\ Forall (fun kv => snd kv <> []) sect) ys).
  { change ys with (fst (ys, r)). rewrite <- E. exact Hys. }
  assert (Hend' : forall c0 : tokens,
            r = Ok (Some c0) -> Forall (fun kv => snd kv <> []) c0).
  { intros c0 Hc0. apply Hend.
    change (snd (scan 0 (readlines (c :: data)) None) = Ok (Some c0)).
    rewrite E. exact Hc0. }
  destruct r as [[[|kv sect]|]|e]; cbn [fst]; try exact Hys'.
  apply Forall_app. split; [exact Hys'|].
  constructor; [|constructor]. split; [discriminate|].
  apply Hend'. reflexivity.
Qed.

Lemma split_colon_none (s : str) :
  ~ In COLON s -> split_colon s = Raise ValueError.
Proof.
  induction s as [|c s IH]; intros Hs; cbn [split_colon]; [reflexivity|].
  destruct (Ascii.eqb c COLON) eqn:E.
  - apply Ascii.eqb_eq in E. subst c. exfalso. apply Hs. left. reflexivity.
  - rewrite IH by (intros H; apply Hs; right; exact H). reflexivity.
Qed.

(** X2. A line that is not blank, does not begin with a space and holds no
    colon ends the tokenization with [ValueError] (the unpacking of
    [split(':', 1)] fails), after the sections of the lines before it;
    the section that was open is lost. *)
Theorem line_without_colon (data : str) (pre post : list str)
  (line : str) (c0 : ascii) (rest : str) (ys : list tokens)
  (curr : option tokens) :
  readlines data = pre ++ line :: post ->
  scan 0 pre None = (ys, Ok curr) ->
  cleanline line = Ok (c0 :: rest) ->
  c0 <> SP ->
  ~ In COLON (c0 :: rest) ->
  parse_sections data = (ys, Some ValueError).
Proof.
  intros Hlines Hpre Hline Hsp Hcolon.
  unfold parse_sections.
  destruct data as [|c data].
  { cbn [readlines] in Hlines. destruct pre; discriminate. }
  rewrite Hlines, scan_app, Hpre.
  cbn [scan]. rewrite Hline.
  destruct (Ascii.eqb c0 SP) eqn:E.
  { apply Ascii.eqb_eq in E. congruence. }
  rewrite split_colon_none by exact Hcolon.
  cbn [fst snd]. rewrite app_nil_r. reflexivity.
Qed.

Lemma line_without_colon_witness :
  parse_sections (py "A: b" ++ [LF] ++ py "oops" ++ [LF])
  = ([], Some ValueError).
Proof.
  apply (line_without_colon
           (py "A: b" ++ [LF] ++ py "oops" ++ [LF])
           [py "A: b" ++ [LF]] [] (py "oops" ++ [LF])
           "o"%char (py "ops") []
           (Some [(py "A", [py "b"])])).
  - reflexivity.
  - reflexivity.
  - reflexivity.
  - discriminate.
  - simpl. intuition discriminate.
Defined.

(** X3. Of what follows the first colon of a line the tokenizer drops
    exactly one byte, whatever it is: [Key:value] is read as the value
    [alue], [Key:  v] as [ v], and [Key:] as the empty value. *)
Theorem value_drops_one_byte (key after : str) :
  key <> [] ->
  hd SP key <> SP ->
  ~ In COLON key ->
  Forall plain_char key ->
  Forall plain_char after ->
  parse_sections (key ++ COLON :: after ++ [LF])
  = ([[(key, [List.tl after])]], None).
Proof.
  intros Hne Hhd Hcolon Hkey Hafter.
  assert (Htext : Forall plain_char (key ++ COLON :: after)).
  { apply Forall_app. split; [exact Hkey|].
    constructor; [repeat split; discriminate|exact Hafter]. }
  unfold parse_sections.
  destruct (key ++ COLON :: after ++ [LF]) as [|c data] eqn:E.
  { destruct key; discriminate E. }
  rewrite <- E.
  replace (key ++ COLON :: after ++ [LF])
    with ((key ++ COLON :: after) ++ LF :: [])
    by (rewrite <- app_assoc; reflexivity).
  rewrite readlines_line by (apply plain_no_LF; exact Htext).
  cbn [readlines scan].
  rewrite (cleanline_plain [LF] _ (or_introl eq_refl) Htext).
  destruct key as [|c0 key']; [congruence|].
  cbn [app hd] in *.
  destruct (Ascii.eqb c0 SP) eqn:Esp.
  { apply Ascii.eqb_eq in Esp. congruence. }
  change (c0 :: key' ++ COLON :: after)
    with ((c0 :: key') ++ COLON :: after).
  rewrite split_colon_key by exact Hcolon.
  reflexivity.
Qed.

Lemma value_drops_one_byte_witness :
  parse_sections (py "Key" ++ COLON :: py "value" ++ [LF])
  = ([[(py "Key", [List.tl (py "value")])]], None).
Proof.
  apply (value_drops_one_byte (py "Key") (py "value")).
  - discriminate.
  - discriminate.
  - simpl. intuition discriminate.
  - repeat constructor; discriminate.
  - repeat constructor; discriminate.
Defined.

(** ** Reading back folded values *)

Lemma fragments_concat (key val : str) : concat (fragments key val) = val.
Proof.
  unfold fragments. destruct (68 <? length key + length val).
  - cbn [concat]. rewrite concat_chunks by lia. apply firstn_skipn.
  - cbn [concat]. apply app_nil_r.
Qed.

Lemma fragments_plain (key val : str) :
  Forall plain_char val -> Forall (Forall plain_char) (fragments key val).
Proof.
  intros Hval. unfold fragments.
  destruct (68 <? length key + length val).
  - rewrite <- (firstn_skipn (68 - length key) val) in Hval.
    apply Forall_app in Hval. destruct Hval as [H1 H2].
    constructor; [exact H1|]. apply chunks_Forall; [lia|exact H2].
  - constructor; [exact Hval|constructor].
Qed.

Lemma physical_lines_fragments (key val : str) :
  length key <= 68 ->
  physical_lines key val
  = match fragments key val with
    | [] => []
    | f0 :: fr => (key ++ py ": " ++ f0) :: map (fun c => SP :: c) fr
    end.
Proof.
  intros Hkey. unfold physical_lines, fragments.
  destruct (68 <? length key + length val); [|reflexivity].
  f_equal.
  - rewrite firstn_app, firstn_all2 by lia. f_equal.
    replace (70 - length key) with (2 + (68 - length key)) by lia.
    reflexivity.
  - do 2 f_equal.
    rewrite skipn_app, (skipn_all2 key) by lia. cbn [app].
    replace (70 - length key) with (2 + (68 - length key)) by lia.
    reflexivity.
Qed.

Lemma append_last_app (curr : tokens) (key : str) (vals : list str)
  (x : str) :
  append_last (curr ++ [(key, vals)]) x = Ok (curr ++ [(key, vals ++ [x])]).
Proof.
  induction curr as [|kv curr IH]; [reflexivity|].
  cbn [app append_last]. rewrite IH.
  destruct kv as [k vs].
  destruct (curr ++ [(key, vals)]) eqn:E; [|reflexivity].
  destruct curr; discriminate E.
Qed.

Lemma scan_continuations (linesep : str) (lines : list str)
  (Hsep : newline linesep) (key : str) (curr : tokens) :
  forall (frs : list str) (lineno : nat) (vals : list str),
    Forall (Forall plain_char) frs ->
    scan lineno
      (map (fun t => t ++ linesep) (map (fun c => SP :: c) frs) ++ lines)
      (Some (curr ++ [(key, vals)]))
    = scan (lineno + length frs) lines (Some (curr ++ [(key, vals ++ frs)])).
Proof.
  induction frs as [|fr frs IH]; intros lineno vals Hfrs.
  - cbn [map app length]. rewrite Nat.add_0_r, app_nil_r. reflexivity.
  - inversion Hfrs as [|? ? Hfr Hrest]; subst.
    cbn [map app length scan].
    assert (Hline : cleanline ((SP :: fr) ++ linesep) = Ok (SP :: fr)).
    { apply cleanline_plain; [exact Hsep|].
      constructor; [repeat split; discriminate|exact Hfr]. }
    cbn [app] in Hline. rewrite Hline.
    cbn [Ascii.eqb SP]. simpl (Ascii.eqb _ _).
    rewrite append_last_app.
    rewrite IH by exact Hrest.
    replace (S lineno + length frs) with (lineno + S (length frs)) by lia.
    rewrite <- app_assoc. reflexivity.
Qed.

Lemma scan_stored_attr (linesep : str) (lines : list str)
  (Hsep : newline linesep) (kv : str * str) (lineno : nat)
  (curr : option tokens) :
  foldable_attr kv ->
  scan lineno
    (map (fun t => t ++ linesep) (physical_lines (fst kv) (snd kv)) ++ lines)
    curr
  = scan (lineno + length (physical_lines (fst kv) (snd kv))) lines
      (Some (open_section curr ++ [(fst kv, fragments (fst kv) (snd kv))])).
Proof.
  intros [Hkey Hval].
  pose proof (fragments_plain (fst kv) (snd kv) Hval) as Hplain.
  assert (Hlen : length (fst kv) <= 68) by (destruct Hkey as [[_ H] _]; exact H).
  rewrite physical_lines_fragments by exact Hlen.
  assert (Hf0 : forall f0 fr, fragments (fst kv) (snd kv) = f0 :: fr ->
                length (fst kv) + length f0 <= 68).
  { unfold fragments. intros f0 fr.
    destruct (68 <? length (fst kv) + length (snd kv)) eqn:E;
      intros Heq; injection Heq as <- <-.
    - rewrite length_firstn. lia.
    - apply Nat.ltb_ge in E. exact E. }
  destruct (fragments (fst kv) (snd kv)) as [|f0 fr] eqn:Hfr.
  { unfold fragments in Hfr.
    destruct (68 <? length (fst kv) + length (snd kv)); discriminate Hfr. }
  inversion Hplain as [|? ? Hp0 Hpr]; subst.
  cbn [map app length].
  pose proof (scan_attr linesep (fst kv, f0)
                (map (fun t => t ++ linesep) (map (fun c => SP :: c) fr)
                 ++ lines)
                lineno curr Hsep) as Hfirst.
  unfold attr_text in Hfirst. cbn [fst snd] in Hfirst.
  rewrite Hfirst.
  - rewrite scan_continuations by assumption.
    rewrite length_map.
    replace (S lineno + length fr) with (lineno + S (length fr)) by lia.
    reflexivity.
  - split; [exact Hkey|]. split; [exact Hp0|].
    cbn [fst snd]. apply (Hf0 f0 fr). reflexivity.
Qed.

Lemma scan_stored_attrs (linesep : str) (lines : list str)
  (Hsep : newline linesep) :
  forall (self : section) (lineno : nat) (curr : option tokens),
    Forall foldable_attr self ->
    exists lineno',
      scan lineno
        (map (fun t => t ++ linesep)
           (concat (map (fun kv => physical_lines (fst kv) (snd kv)) self))
         ++ lines)
        curr
      = scan lineno' lines
          (match self with
           | [] => curr
           | _ :: _ => Some (open_section curr ++ stored_tokens self)
           end).
Proof.
  induction self as [|kv self IH]; intros lineno curr Hself.
  - exists lineno. reflexivity.
  - inversion Hself as [|? ? Hkv Hrest]; subst.
    cbn [map concat]. rewrite map_app, <- app_assoc.
    rewrite scan_stored_attr by assumption.
    destruct (IH (lineno + length (physical_lines (fst kv) (snd kv)))
                (Some (open_section curr
                       ++ [(fst kv, fragments (fst kv) (snd kv))]))
                Hrest) as [lineno' Hscan].
    exists lineno'. etransitivity; [exact Hscan|].
    f_equal. destruct self as [|kv' self]; [reflexivity|].
    cbn [open_section stored_tokens map]. rewrite <- app_assoc. reflexivity.
Qed.

Lemma scan_stored_sections (linesep : str) (Hsep : newline linesep) :
  forall (sects : list section) (lineno : nat),
    Forall (fun self => self <> [] /\ Forall foldable_attr self) sects ->
    scan lineno
      (map (fun t => t ++ linesep) (concat (map section_lines sects))) None
    = (map stored_tokens sects, Ok None).
Proof.
  induction sects as [|self sects IH]; intros lineno Hsects; [reflexivity|].
  inversion Hsects as [|? ? [Hne Hself] Hrest]; subst.
  cbn [map concat]. unfold section_lines at 1.
  rewrite !map_app, <- !app_assoc.
  destruct (scan_stored_attrs linesep
              (map (fun t => t ++ linesep) [[]]
               ++ map (fun t => t ++ linesep)
                    (concat (map section_lines sects)))
              Hsep self lineno None Hself) as [lineno' Hscan].
  etransitivity; [exact Hscan|]. clear Hscan.
  destruct self as [|kv self]; [congruence|].
  pose proof (cleanline_plain linesep [] Hsep (List.Forall_nil _)) as Hblank.
  cbn [app] in Hblank.
  cbn [map app scan open_section]. rewrite Hblank.
  set (toks := stored_tokens (kv :: self)).
  assert (Htoks : toks = (fst kv, fragments (fst kv) (snd kv))
                         :: stored_tokens self) by reflexivity.
  rewrite Htoks. unfold yield. rewrite IH by exact Hrest. reflexivity.
Qed.

Lemma section_bytes_lines (self : section) (linesep : str) :
  section_bytes self linesep
  = concat (map (fun t => t ++ linesep) (section_lines self)).
Proof.
  unfold section_bytes, section_lines.
  rewrite map_app, concat_app. cbn [map concat app].
  rewrite app_nil_r. f_equal.
  induction self as [|kv self IH]; [reflexivity|].
  cbn [map concat]. rewrite map_app, concat_app, IH. reflexivity.
Qed.

Lemma section_lines_plain (self : section) :
  Forall foldable_attr self -> Forall (Forall plain_char) (section_lines self).
Proof.
  intros H. unfold section_lines. apply Forall_app. split.
  - induction H as [|kv self [[_ [Hk _]] Hv] _ IH]; [constructor|].
    cbn [map concat]. apply Forall_app. split; [|exact IH].
    apply physical_lines_no_eol; try assumption;
      repeat split; discriminate.
  - repeat constructor.
Qed.

Lemma concat_section_lines (linesep : str) (sects : list section) :
  concat (map (fun self => section_bytes self linesep) sects)
  = concat (map (fun t => t ++ linesep) (concat (map section_lines sects))).
Proof.
  induction sects as [|self sects IH]; [reflexivity|].
  cbn [map concat]. rewrite map_app, concat_app, IH.
  rewrite section_bytes_lines. reflexivity.
Qed.

(** The tokenizer gives back the sections that were stored, with the
    fragments of the folded values. *)
Lemma parse_sections_folded (linesep : str) (self : section)
  (sects : list section) :
  newline linesep ->
  Forall (fun self => self <> [] /\ Forall foldable_attr self)
    (self :: sects) ->
  parse_sections
    (concat (map (fun s => section_bytes s linesep) (self :: sects)))
  = (map stored_tokens (self :: sects), None).
Proof.
  intros Hsep Hsects.
  rewrite concat_section_lines.
  unfold parse_sections.
  rewrite readlines_lines; [|exact Hsep|].
  - rewrite scan_stored_sections by assumption.
    destruct (concat (map (fun t => t ++ linesep)
                        (concat (map section_lines (self :: sects)))))
      as [|c data] eqn:E; [|reflexivity].
    exfalso. apply (f_equal (@length ascii)) in E.
    cbn [map concat] in E. rewrite map_app, concat_app, length_app in E.
    unfold section_lines at 1 in E.
    rewrite map_app, concat_app, length_app in E.
    cbn [map concat app length] in E. rewrite app_nil_r in E.
    destruct Hsep as [-> | ->]; cbn [length] in E; lia.
  - clear Hsep. induction Hsects as [|s l [_ Hs] _ IH]; [constructor|].
    cbn [map concat]. apply Forall_app. split; [|exact IH].
    apply section_lines_plain. exact Hs.
Qed.

Lemma bind_ext {S A B} (c : M S A) (k1 k2 : A -> M S B) (s : S) :
  (forall a s', k1 a s' = k2 a s') -> bind c k1 s = bind c k2 s.
Proof.
  intros H. unfold bind. destruct (c s) as [[a|e] s']; [apply H|reflexivity].
Qed.

Lemma load_stored_tokens (self : section) (d : section) :
  ManifestSection.load (stored_tokens self) d
  = ManifestSection.load (tokens_of self) d.
Proof.
  revert d. unfold ManifestSection.load.
  induction self as [|kv self IH]; intros d; [reflexivity|].
  cbn [stored_tokens tokens_of map for_each fst snd].
  rewrite fragments_concat. cbn [concat]. rewrite app_nil_r.
  apply bind_ext. intros _ d'. apply IH.
Qed.

Lemma foldable_section_lengths (pk : str) (self : section) :
  foldable_section pk self -> Forall (fun kv => length (fst kv) <= 68) self.
Proof.
  intros [_ [_ H]]. eapply List.Forall_impl; [|exact H].
  intros kv [[[_ Hlen] _] _]. exact Hlen.
Qed.

Lemma foldable_section_nonempty (pk : str) (self : section) :
  foldable_section pk self -> self <> [] /\ Forall foldable_attr self.
Proof.
  intros [Hhd [_ H]]. split; [|exact H].
  intros ->. discriminate Hhd.
Qed.

Lemma foldable_storable (self : section) :
  Forall foldable_attr self -> storable self.
Proof.
  intros H. eapply List.Forall_impl; [|exact H].
  intros kv [[Hlen _] _]. exact Hlen.
Qed.

(** The loop of [Manifest.parse] over stored sub-sections of any width. *)
Lemma parse_stored_sub_sections (sects : list section) :
  Forall (foldable_section ManifestSection.primary_key) sects ->
  forall self : Manifest,
    List.NoDup (od_keys (sub_sections self) ++ map sub_name sects) ->
    for_each
      (fun section =>
         next_section <- lift (new_section ManifestSection.primary_key None) ;;
         match ManifestSection.load section next_section with
         | (Ok _, next_section) =>
           set_sub
             (ManifestSection.primary ManifestSection.primary_key next_section)
             next_section
         | (Raise e, _) => raise e
         end)
      (map stored_tokens sects) self
    = (Ok tt,
       mkManifest (primary_key self) (attrs self)
         (sub_sections self ++ indexed sects) (linesep self)).
Proof.
  induction 1 as [|sect sects Hsect _ IH]; intros self Hnodup.
  - cbn [map for_each indexed]. rewrite app_nil_r. destruct self. reflexivity.
  - cbn [map for_each].
    erewrite bind_Ok.
    2:{ rewrite new_section_Name. erewrite bind_Ok by reflexivity.
        rewrite load_stored_tokens.
        destruct Hsect as [Hhd [Hnd Hattrs]].
        rewrite load_primary;
          [|exact Hhd|exact Hnd
           |apply (foldable_section_lengths ManifestSection.primary_key);
            repeat split; assumption].
        unfold set_sub, modify. unfold name_eqb.
        rewrite (@od_set_fresh (option str) section _); [reflexivity|].
        cbn [map] in Hnodup. apply NoDup_remove_2 in Hnodup.
        intros Hin. apply Hnodup. apply in_or_app. left. exact Hin. }
    rewrite IH.
    + cbn [primary_key attrs sub_sections linesep indexed map].
      rewrite <- app_assoc. reflexivity.
    + cbn [sub_sections]. rewrite od_keys_app, <- app_assoc.
      exact Hnodup.
Qed.

(** X4. Folding does not break the round trip. Take a manifest whose main
    section begins with [Manifest-Version], whose sub-sections begin with
    their [Name] and have different names, whose keys are non-empty, hold no
    colon and do not begin with a space, whose keys and values hold no NUL
    byte and no line break, with values of any length, and a separator that
    is LF or CR LF. Parsing what [store] writes into a new [Manifest] gives
    the same main attributes and the same sub-sections, every folded value
    put together again from its continuation lines. *)
Theorem parse_store_roundtrip_folded (os_linesep : str) (m : Manifest)
  (linesep_arg version linesep0 : option str) :
  foldable_manifest m ->
  newline (or_str linesep_arg (or_str (linesep m) os_linesep)) ->
  exists (data : str) (fresh : Manifest),
    Manifest.get_data os_linesep m linesep_arg = Ok data
    /\ Manifest.__init__ Manifest.primary_key version linesep0 = Ok fresh
    /\ Manifest.parse data fresh
       = (Ok tt,
          mkManifest Manifest.primary_key (attrs m)
            (indexed (sorted section_ltb (od_values (sub_sections m))))
            linesep0).
Proof.
  intros [Hmain [Hsubs Hnames]] Hsep.
  set (ls := or_str linesep_arg (or_str (linesep m) os_linesep)) in *.
  set (written := sorted section_ltb (od_values (sub_sections m))).
  assert (Hperm : Permutation written (od_values (sub_sections m)))
    by apply sorted_Permutation.
  assert (Hwritten :
            Forall (foldable_section ManifestSection.primary_key) written).
  { eapply Permutation_Forall; [|exact Hsubs]. symmetry. exact Hperm. }
  assert (Hwnames : List.NoDup (map sub_name written)).
  { eapply Permutation_NoDup; [|exact Hnames].
    apply Permutation_map. symmetry. exact Hperm. }
  eexists.
  exists (mkManifest Manifest.primary_key
            [(Manifest.primary_key, str_of version)] [] linesep0).
  split; [|split; [reflexivity|]].
  - apply get_data_bytes.
    + apply foldable_storable. apply Hmain.
    + eapply List.Forall_impl; [|exact Hsubs].
      intros s Hs. apply foldable_storable. apply Hs.
  - fold ls. fold written.
    unfold Manifest.parse.
    rewrite parse_sections_folded.
    + cbn [fst snd map].
      erewrite bind_Ok.
      2:{ unfold on_attrs. cbn [attrs].
          rewrite load_stored_tokens.
          destruct Hmain as [Hhd [Hnd Hattrs]].
          rewrite load_primary;
            [reflexivity|exact Hhd|exact Hnd
            |apply (foldable_section_lengths Manifest.primary_key);
             repeat split; assumption]. }
      erewrite bind_Ok.
      2:{ apply parse_stored_sub_sections; [exact Hwritten|].
          cbn [sub_sections od_keys map app]. exact Hwnames. }
      reflexivity.
    + exact Hsep.
    + constructor.
      * apply (foldable_section_nonempty Manifest.primary_key). exact Hmain.
      * eapply List.Forall_impl; [|exact Hwritten].
        intros s Hs.
        apply (foldable_section_nonempty ManifestSection.primary_key).
        exact Hs.
Qed.

Example folded_manifest_folds :
  map (fun l => length l)
    (physical_lines (py "Class-Path")
       (match od_get str_eqb (py "Class-Path") (attrs folded_manifest) with
        | Some v => v
        | None => []
        end))
  = [70; 70; 15].
Proof. reflexivity. Qed.

Lemma parse_store_roundtrip_folded_witness :
  exists (data : str) (fresh : Manifest),
    Manifest.get_data [LF] folded_manifest None = Ok data
    /\ Manifest.__init__ Manifest.primary_key (Some (py "1.0")) None
       = Ok fresh
    /\ Manifest.parse data fresh
       = (Ok tt,
          mkManifest Manifest.primary_key (attrs folded_manifest)
            (indexed
               (sorted section_ltb
                  (od_values (sub_sections folded_manifest))))
            None).
Proof.
  apply (parse_store_roundtrip_folded [LF] folded_manifest None
           (Some (py "1.0")) None).
  - repeat split; cbn;
      repeat (constructor; repeat split; cbn;
              try lia; try discriminate; try tauto);
      intuition discriminate.
  - left. reflexivity.
Defined.

(** X5. A stored sub-section without a [Name] attribute is read back with
    the attribute [Name: None] in front of its own, and is indexed under
    the string [None]: the section object is created with [name=None], which
    [__setitem__] turns into a string. *)
Theorem parse_nameless_sub_section (os_linesep : str) (m : Manifest)
  (key : option str) (sub : section)
  (linesep_arg version linesep0 : option str) :
  newline (or_str linesep_arg (or_str (linesep m) os_linesep)) ->
  foldable_section Manifest.primary_key (attrs m) ->
  sub_sections m = [(key, sub)] ->
  sub <> [] ->
  Forall foldable_attr sub ->
  List.NoDup (od_keys sub) ->
  ~ In ManifestSection.primary_key (od_keys sub) ->
  exists data : str,
    Manifest.get_data os_linesep m linesep_arg = Ok data
    /\ Manifest.parse data
         (mkManifest Manifest.primary_key
            [(Manifest.primary_key, str_of version)] [] linesep0)
       = (Ok tt,
          mkManifest Manifest.primary_key (attrs m)
            [(Some (py "None"),
              (ManifestSection.primary_key, py "None") :: sub)]
            linesep0).
Proof.
  intros Hsep Hmain Hsubs Hne Hsub Hnodup Hname.
  set (ls := or_str linesep_arg (or_str (linesep m) os_linesep)) in *.
  eexists. split.
  - apply get_data_bytes.
    + apply foldable_storable. apply Hmain.
    + rewrite Hsubs. constructor; [|constructor].
      apply foldable_storable. exact Hsub.
  - fold ls. rewrite Hsubs.
    change (sorted section_ltb (od_values [(key, sub)])) with [sub].
    unfold Manifest.parse.
    rewrite parse_sections_folded.
    + cbn [fst snd map].
      erewrite bind_Ok.
      2:{ unfold on_attrs. cbn [attrs].
          rewrite load_stored_tokens.
          destruct Hmain as [Hhd [Hnd Hattrs]].
          rewrite load_primary;
            [reflexivity|exact Hhd|exact Hnd
            |apply (foldable_section_lengths Manifest.primary_key);
             repeat split; assumption]. }
      cbn [for_each].
      erewrite bind_Ok.
      2:{ erewrite bind_Ok.
          2:{ rewrite new_section_Name. erewrite bind_Ok by reflexivity.
              rewrite load_stored_tokens.
              rewrite (load_fresh sub
                         [(ManifestSection.primary_key, str_of None)]).
              - reflexivity.
              - eapply List.Forall_impl; [|exact Hsub].
                intros kv [[[_ Hlen] _] _]. exact Hlen.
              - cbn [od_keys map fst app]. constructor; assumption. }
          reflexivity. }
      reflexivity.
    + exact Hsep.
    + constructor.
      * apply (foldable_section_nonempty Manifest.primary_key). exact Hmain.
      * constructor; [|constructor]. split; assumption.
Qed.

Lemma parse_nameless_sub_section_witness :
  exists data : str,
    Manifest.get_data [LF]
      (mkManifest Manifest.primary_key [(py "Manifest-Version", py "1.0")]
         [(None, [(py "X", py "1")])] None)
      None = Ok data
    /\ Manifest.parse data
         (mkManifest Manifest.primary_key
            [(Manifest.primary_key, str_of (Some (py "1.0")))] [] None)
       = (Ok tt,
          mkManifest Manifest.primary_key [(py "Manifest-Version", py "1.0")]
            [(Some (py "None"),
              [(ManifestSection.primary_key, py "None"); (py "X", py "1")])]
            None).
Proof.
  apply (parse_nameless_sub_section [LF]
           (mkManifest Manifest.primary_key
              [(py "Manifest-Version", py "1.0")]
              [(None, [(py "X", py "1")])] None)
           None [(py "X", py "1")] None (Some (py "1.0")) None).
  - left. reflexivity.
  - repeat split; cbn;
      repeat (constructor; repeat split; cbn;
              try lia; try discriminate; try tauto);
      intuition discriminate.
  - reflexivity.
  - discriminate.
  - repeat split; cbn;
      repeat (constructor; repeat split; cbn;
              try lia; try discriminate; try tauto);
      intuition discriminate.
  - repeat constructor. simpl. tauto.
  - simpl. intuition discriminate.
Defined.

(** ** ManifestSection.load *)

Lemma od_get_app {K V : Type} (eqb : K -> K -> bool) (k : K)
  (d1 d2 : list (K * V)) :
  od_get eqb k (d1 ++ d2)
  = match od_get eqb k d1 with
    | Some v => Some v
    | None => od_get eqb k d2
    end.
Proof.
  induction d1 as [|[k' v'] d1 IH]; cbn [app od_get]; [reflexivity|].
  destruct (eqb k k'); [reflexivity|exact IH].
Qed.

Lemma od_set_keys (k : str) (v : str) (d : section) :
  exists ext, od_keys (od_set str_eqb k v d) = od_keys d ++ ext.
Proof.
  induction d as [|[k' v'] d [ext IH]]; cbn [od_set].
  - exists [k]. reflexivity.
  - destruct (str_eqb k k').
    + exists []. rewrite app_nil_r. reflexivity.
    + exists ext. unfold od_keys in *. cbn [map fst app].
      rewrite IH. reflexivity.
Qed.

Lemma load_in_range (items : tokens) :
  Forall (fun kv => length (fst kv) <= 68) items ->
  forall d : section,
  exists d' : section, ManifestSection.load items d = (Ok tt, d').
Proof.
  induction 1 as [|[key frags] items Hkey _ IH]; intros d.
  - exists d. reflexivity.
  - cbn [fst] in Hkey.
    destruct (IH (od_set str_eqb key (concat frags) d)) as [d' Hload].
    exists d'. unfold ManifestSection.load in *. cbn [for_each fst snd].
    erewrite bind_Ok; [exact Hload|].
    rewrite setitem_in_range by exact Hkey. reflexivity.
Qed.

(** X6. Loading items whose keys are at most 68 bytes long always succeeds.
    Afterwards a key stands for the joined fragments of the last item that
    carries it, or for what it stood for before when no item carries it;
    and the keys the section had keep their places, new keys coming after
    them. *)
Theorem load_lookup (items : tokens) :
  Forall (fun kv => length (fst kv) <= 68) items ->
  forall d : section,
  exists d' : section,
    ManifestSection.load items d = (Ok tt, d')
    /\ (forall k,
          od_get str_eqb k d'
          = match od_get str_eqb k (rev items) with
            | Some frags => Some (concat frags)
            | None => od_get str_eqb k d
            end)
    /\ exists ext, od_keys d' = od_keys d ++ ext.
Proof.
  induction 1 as [|[key frags] items Hkey _ IH]; intros d.
  - exists d. split; [reflexivity|]. split; [reflexivity|].
    exists []. rewrite app_nil_r. reflexivity.
  - cbn [fst] in Hkey.
    destruct (IH (od_set str_eqb key (concat frags) d))
      as [d' [Hload [Hget [ext Hkeys]]]].
    exists d'. split; [|split].
    + unfold ManifestSection.load in *. cbn [for_each fst snd].
      erewrite bind_Ok; [exact Hload|].
      rewrite setitem_in_range by exact Hkey. reflexivity.
    + intros k. rewrite Hget. cbn [rev]. rewrite od_get_app.
      match goal with
      | |- match ?o with _ => _ end = _ => destruct o as [fr|]
      end; [reflexivity|].
      cbn [od_get].
      destruct (str_eqb k key) eqn:E; unfold str_eqb in E.
      * apply bool_decide_eq_true_1 in E. subst k.
        apply (@od_get_set_eq str str _).
      * apply bool_decide_eq_false_1 in E.
        apply (@od_get_set_neq str str _). congruence.
    + destruct (od_set_keys key (concat frags) d) as [ext0 Hext0].
      exists (ext0 ++ ext). rewrite app_assoc, <- Hext0. exact Hkeys.
Qed.

Lemma load_lookup_witness :
  exists d' : section,
    ManifestSection.load
      [(py "A", [py "1"]); (py "B", [py "x"; py "y"]); (py "A", [py "2"])]
      [(py "Name", py "n")]
    = (Ok tt, d')
    /\ (forall k,
          od_get str_eqb k d'
          = match od_get str_eqb k
                    (rev [(py "A", [py "1"]); (py "B", [py "x"; py "y"]);
                          (py "A", [py "2"])]) with
            | Some frags => Some (concat frags)
            | None => od_get str_eqb k [(py "Name", py "n")]
            end)
    /\ exists ext, od_keys d' = od_keys [(py "Name", py "n")] ++ ext.
Proof.
  apply (load_lookup
           [(py "A", [py "1"]); (py "B", [py "x"; py "y"]);
            (py "A", [py "2"])]).
  repeat constructor; simpl; lia.
Defined.

(** X7. Loading stops at the first item whose key is longer than 68 bytes
    and raises [ManifestKeyException]; the items before it stay loaded in
    the section and the items after it are not looked at. *)
Theorem load_key_too_long (pre post : tokens) (key : str)
  (frags : list str) (d : section) :
  Forall (fun kv => length (fst kv) <= 68) pre ->
  69 <= length key ->
  exists d' : section,
    ManifestSection.load pre d = (Ok tt, d')
    /\ ManifestSection.load (pre ++ (key, frags) :: post) d
       = (Raise (ManifestKeyException (py "key too long") key), d').
Proof.
  intros Hpre Hkey.
  destruct (load_in_range pre Hpre d) as [d' Hload].
  exists d'. split; [exact Hload|].
  unfold ManifestSection.load in *.
  rewrite for_each_app. erewrite bind_Ok by exact Hload.
  cbn [for_each fst snd].
  apply bind_Raise. apply setitem_too_long. exact Hkey.
Qed.

Lemma load_key_too_long_witness :
  exists d' : section,
    ManifestSection.load [(py "A", [py "1"])] [] = (Ok tt, d')
    /\ ManifestSection.load
         ([(py "A", [py "1"])]
          ++ (repeat "k"%char 69, [py "2"]) :: [(py "B", [py "3"])])
         []
       = (Raise (ManifestKeyException (py "key too long")
                   (repeat "k"%char 69)),
          d').
Proof.
  apply (load_key_too_long [(py "A", [py "1"])] [(py "B", [py "3"])]
           (repeat "k"%char 69) [py "2"] []).
  - repeat constructor; simpl; lia.
  - simpl. lia.
Defined.

(** ** Manifest.create_section *)

(** With [overwrite=False], [create_section] on a name that already has a
    sub-section returns that sub-section and changes nothing. *)
Lemma create_section_keeps_existing (name : option str) (sect : section)
  (self : Manifest) :
  od_get name_eqb name (sub_sections self) = Some sect ->
  Manifest.create_section name false self = (Ok name, self).
Proof.
  intros H. unfold Manifest.create_section. rewrite H. reflexivity.
Qed.

Lemma od_set_keys_present {K V : Type} `{EqDecision K} (k : K) (v v0 : V)
  (d : list (K * V)) :
  od_get (fun a b => bool_decide (a = b)) k d = Some v0 ->
  od_keys (od_set (fun a b => bool_decide (a = b)) k v d) = od_keys d.
Proof.
  induction d as [|[k' v'] d IH]; cbn [od_get od_set]; [discriminate|].
  destruct (bool_decide (k = k')); [reflexivity|].
  intros Hget. unfold od_keys in *. cbn [map fst]. rewrite IH by exact Hget.
  reflexivity.
Qed.

Lemma od_get_None_keys {K V : Type} `{EqDecision K} (k : K)
  (d : list (K * V)) :
  od_get (fun a b => bool_decide (a = b)) k d = None ->
  ~ In k (od_keys d).
Proof.
  induction d as [|[k' v'] d IH]; cbn [od_get]; [intros _ []|].
  destruct (bool_decide (k = k')) eqn:E; [discriminate|].
  apply bool_decide_eq_false_1 in E.
  intros Hget [Heq|Hin]; [cbn [fst] in Heq; congruence|].
  apply (IH Hget Hin).
Qed.

(** X9. With [overwrite=True] (the default), [create_section] always
    succeeds and binds the name to a new section that holds the attribute
    [Name] only, with the string form of the name ([None] becomes the string
    [None]); the sub-sections under other names, the main attributes and the
    line separator are untouched; a name that was bound keeps its place among
    the sub-sections, and a new name comes last. *)
Theorem create_section_overwrites (name : option str) (self : Manifest) :
  exists self' : Manifest,
    Manifest.create_section name true self = (Ok name, self')
    /\ od_get name_eqb name (sub_sections self')
       = Some [(ManifestSection.primary_key, str_of name)]
    /\ (forall other, other <> name ->
          od_get name_eqb other (sub_sections self')
          = od_get name_eqb other (sub_sections self))
    /\ attrs self' = attrs self
    /\ linesep self' = linesep self
    /\ od_keys (sub_sections self')
       = match od_get name_eqb name (sub_sections self) with
         | Some _ => od_keys (sub_sections self)
         | None => od_keys (sub_sections self) ++ [name]
         end.
Proof.
  eexists. split; [reflexivity|].
  cbn [sub_sections attrs linesep]. unfold name_eqb.
  split; [apply (@od_get_set_eq (option str) section _)|].
  split.
  { intros other Hother.
    apply (@od_get_set_neq (option str) section _). congruence. }
  split; [reflexivity|]. split; [reflexivity|].
  destruct (od_get (fun a b : option str => bool_decide (a = b)) name
              (sub_sections self)) as [sect|] eqn:E.
  - eapply od_set_keys_present. exact E.
  - rewrite (@od_set_fresh (option str) section _).
    + rewrite od_keys_app. reflexivity.
    + apply od_get_None_keys. exact E.
Qed.

(** ** Manifest.parse and the line separator *)

Lemma for_each_invariant {S A} (P : S -> Prop) (body : A -> M S unit)
  (l : list A) :
  (forall a s, P s -> P (snd (body a s))) ->
  forall s, P s -> P (snd (for_each body l s)).
Proof.
  intros Hbody. induction l as [|a l IH]; intros s Hs; [exact Hs|].
  cbn [for_each]. unfold bind.
  pose proof (Hbody a s Hs) as Ha.
  destruct (body a s) as [[[]|e] s']; cbn [snd] in *; [|exact Ha].
  apply IH. exact Ha.
Qed.

Lemma parse_keeps_linesep (data : str) (self : Manifest) :
  linesep (snd (Manifest.parse data self)) = linesep self
  /\ primary_key (snd (Manifest.parse data self)) = primary_key self.
Proof.
  unfold Manifest.parse.
  destruct (fst (parse_sections data)) as [|first rest];
    [split; reflexivity|].
  set (P := fun s : Manifest =>
              linesep s = linesep self /\ primary_key s = primary_key self).
  change (P (snd
    ((on_attrs (ManifestSection.load first);;
      for_each
        (fun section =>
           next_section <- lift (new_section ManifestSection.primary_key None);;
           match ManifestSection.load section next_section with
           | (Ok _, next_section0) =>
             set_sub
               (ManifestSection.primary ManifestSection.primary_key
                  next_section0)
               next_section0
           | (Raise e, _) => raise e
           end)
        rest;;
      match snd (parse_sections data) with
      | Some e => raise e
      | None => ret tt
      end) self))).
  unfold bind at 1.
  assert (H1 : P (snd (on_attrs (ManifestSection.load first) self))).
  { unfold on_attrs. destruct (ManifestSection.load first (attrs self)).
    split; reflexivity. }
  destruct (on_attrs (ManifestSection.load first) self) as [[[]|e] s1];
    cbn [snd] in *; [|exact H1].
  unfold bind at 1.
  match goal with
  | |- P (snd (match for_each ?body rest s1 with _ => _ end)) =>
    assert (H2 : P (snd (for_each body rest s1)));
      [|destruct (for_each body rest s1) as [[[]|e] s2];
        cbn [snd] in *; [|exact H2]]
  end.
  - apply for_each_invariant; [|exact H1].
    intros section s Hs. unfold bind. cbn [lift new_section].
    rewrite new_section_Name. cbn [lift ret].
    destruct (ManifestSection.load section
                [(ManifestSection.primary_key, str_of None)])
      as [[[]|e] ns]; cbn [snd]; exact Hs.
  - destruct (snd (parse_sections data)); exact H2.
Qed.

Lemma store_None_raises (self : section) (stream : str) :
  exists e stream', ManifestSection.store self None stream = (Raise e, stream').
Proof.
  unfold ManifestSection.store.
  destruct self as [|kv self]; cbn [for_each].
  - exists TypeError, stream. reflexivity.
  - destruct (write_key_val (Some (fst kv)) (Some (snd kv)) None stream)
      as [[[]|e] stream'] eqn:E.
    + exfalso.
      destruct (Nat.eq_dec (length (fst kv)) 0) as [H0|H0];
        [|destruct (le_lt_dec 69 (length (fst kv))) as [H69|H69]].
      * rewrite write_key_val_bad_key in E by (left; exact H0).
        discriminate E.
      * rewrite write_key_val_bad_key in E by (right; exact H69).
        discriminate E.
      * pose proof (write_key_val_no_linesep (fst kv) (snd kv) stream
                      ltac:(lia)) as Hw.
        rewrite E in Hw. discriminate Hw.
    + exists e, stream'.
      erewrite bind_Raise; [reflexivity|].
      erewrite bind_Raise; [reflexivity|]. exact E.
Qed.

Lemma get_main_section_None_raises (manifest : Manifest) :
  linesep manifest = None ->
  exists e, Manifest.get_main_section manifest = Raise e.
Proof.
  intros Hls. unfold Manifest.get_main_section, getvalue. rewrite Hls.
  destruct (store_None_raises (attrs manifest) []) as [e [stream' H]].
  exists e. rewrite H. reflexivity.
Qed.

(** X10. [Manifest.parse] never sets the line separator of the manifest
    (only [parse_file] does). So a manifest made without a separator and
    filled by [parse], as [cli_sign] makes it, cannot be digested:
    [digest_manifest] raises on it, whatever the data and the algorithm, and
    leaves the signature manifest as it was. *)
Theorem parse_then_digest_raises (os_linesep : str)
  (hashlib : str -> str -> str) (b64encode : str -> str)
  (data : str) (mf : Manifest) (java_algorithm : str) (sf : Manifest) :
  linesep mf = None ->
  linesep (snd (Manifest.parse data mf)) = None
  /\ exists e,
       SignatureManifest.digest_manifest os_linesep hashlib b64encode
         (snd (Manifest.parse data mf)) java_algorithm sf
       = (Raise e, sf).
Proof.
  intros Hls.
  destruct (parse_keeps_linesep data mf) as [Hkeep _].
  rewrite Hls in Hkeep. split; [exact Hkeep|].
  unfold SignatureManifest.digest_manifest.
  destruct (od_get str_eqb java_algorithm JAVA_TO_HASHLIB) as [name|].
  - destruct (get_main_section_None_raises _ Hkeep) as [e He].
    exists e. rewrite He. reflexivity.
  - exists (KeyError java_algorithm). reflexivity.
Qed.

Lemma parse_then_digest_raises_witness :
  linesep (snd (Manifest.parse (py "Manifest-Version: 1.0" ++ [LF; LF])
                  default_manifest)) = None
  /\ exists e,
       SignatureManifest.digest_manifest [LF] example_hashlib id
         (snd (Manifest.parse (py "Manifest-Version: 1.0" ++ [LF; LF])
                 default_manifest))
         (py "SHA-256") example_signature
       = (Raise e, example_signature).
Proof.
  apply (parse_then_digest_raises [LF] example_hashlib id
           (py "Manifest-Version: 1.0" ++ [LF; LF]) default_manifest
           (py "SHA-256") example_signature).
  reflexivity.
Defined.

(** ** digest_manifest and the stored manifest *)

Lemma od_get_not_in (k : str) (d : list (str * str)) :
  ~ In k (od_keys d) -> od_get str_eqb k d = None.
Proof.
  induction d as [|[k' v'] d IH]; intros Hk; cbn [od_get]; [reflexivity|].
  unfold str_eqb at 1. rewrite bool_decide_eq_false_2.
  - apply IH. intros H. apply Hk. right. exact H.
  - intros ->. apply Hk. left. reflexivity.
Qed.

(** Under a name that is not in the table [digest_manifest] raises
    [KeyError] at once. *)
Lemma digest_manifest_unknown_algorithm (os_linesep : str)
  (hashlib : str -> str -> str) (b64encode : str -> str)
  (manifest self : Manifest) (java_algorithm : str) :
  ~ In java_algorithm
      [py "MD5"; py "SHA1"; py "SHA-256"; py "SHA-384"; py "SHA-512"] ->
  SignatureManifest.digest_manifest os_linesep hashlib b64encode
    manifest java_algorithm self
  = (Raise (KeyError java_algorithm), self).
Proof.
  intros Hname. unfold SignatureManifest.digest_manifest.
  rewrite od_get_not_in by exact Hname. reflexivity.
Qed.

Section DigestState.

Variable os_linesep : str.
Variable hashlib : str -> str -> str.
Variable b64encode : str -> str.

(** The signature manifest after [digest_manifest]. *)
Lemma digest_manifest_state (manifest self : Manifest)
  (java_algorithm name ls : str) :
  od_get str_eqb java_algorithm JAVA_TO_HASHLIB = Some name ->
  linesep manifest = Some ls ->
  storable (attrs manifest) ->
  Forall storable (od_values (sub_sections manifest)) ->
  SignatureManifest.digest_manifest os_linesep hashlib b64encode
    manifest java_algorithm self
  = (Ok tt,
     mkManifest (primary_key self)
       (od_set str_eqb (java_algorithm ++ py "-Digest-Manifest")
          (b64encode
             (hashlib name
                (section_bytes (attrs manifest) ls
                 ++ concat
                      (map (fun s =>
                              section_bytes s (or_str (Some ls) os_linesep))
                         (od_values (sub_sections manifest))))))
          (od_set str_eqb
             (java_algorithm ++ py "-Digest-Manifest-Main-Attributes")
             (b64encode (hashlib name (section_bytes (attrs manifest) ls)))
             (attrs self)))
       (digested_subs (fun data => b64encode (hashlib name data))
          (or_str (Some ls) os_linesep) (java_algorithm ++ py "-Digest")
          (od_values (sub_sections manifest)) (sub_sections self))
       (linesep self)).
Proof.
  intros Halg Hls Hmain Hsubs.
  pose proof (java_algorithm_length _ _ Halg) as Hlen.
  assert (Hget_main : Manifest.get_main_section manifest
                      = Ok (section_bytes (attrs manifest) ls)).
  { unfold Manifest.get_main_section, getvalue. rewrite Hls.
    rewrite store_section_bytes by assumption. reflexivity. }
  set (all_key := java_algorithm ++ py "-Digest-Manifest").
  set (main_key := java_algorithm ++ py "-Digest-Manifest-Main-Attributes").
  set (sect_key := java_algorithm ++ py "-Digest").
  assert (Hall : length all_key <= 68)
    by (unfold all_key; rewrite length_app; simpl; lia).
  assert (Hmk : length main_key <= 68)
    by (unfold main_key; rewrite length_app; simpl; lia).
  assert (Hsk : length sect_key <= 68)
    by (unfold sect_key; rewrite length_app; simpl; lia).
  assert (Hsk_name : sect_key <> ManifestSection.primary_key).
  { intros H. apply (f_equal (@length ascii)) in H.
    unfold sect_key in H. rewrite length_app in H. simpl in H. lia. }
  unfold SignatureManifest.digest_manifest.
  rewrite Halg, Hls, Hget_main.
  erewrite bind_Ok by reflexivity.
  erewrite bind_Ok by reflexivity.
  erewrite bind_Ok.
  2:{ unfold on_attrs. fold main_key.
      rewrite setitem_in_range by assumption. reflexivity. }
  erewrite bind_Ok.
  2:{ fold sect_key. apply digest_sub_sections_ok; assumption. }
  unfold on_attrs. cbn [attrs primary_key sub_sections linesep].
  fold all_key. rewrite setitem_in_range by assumption.
  destruct (hash_data_fold
              (map (fun s => section_bytes s (or_str (Some ls) os_linesep))
                 (od_values (sub_sections manifest)))
              (hash_update (hash_new name)
                 (section_bytes (attrs manifest) ls))) as [Hd Hn].
  unfold SignatureManifest.hash_digest.
  rewrite Hd, Hn. reflexivity.
Qed.

(** X12. The aggregate digest is the digest of the stored manifest only
    when [store] keeps the order of the sub-sections: if the source manifest
    has a non-empty line separator of its own and its sub-sections are
    already in the order [sorted] gives them, [<ALG>-Digest-Manifest] is the
    base64 of the hash of exactly the bytes [get_data] returns. *)
Theorem digest_of_stored_manifest (manifest self : Manifest)
  (java_algorithm name ls : str) :
  od_get str_eqb java_algorithm JAVA_TO_HASHLIB = Some name ->
  linesep manifest = Some ls ->
  ls <> [] ->
  storable (attrs manifest) ->
  Forall storable (od_values (sub_sections manifest)) ->
  sorted section_ltb (od_values (sub_sections manifest))
  = od_values (sub_sections manifest) ->
  exists data self',
    Manifest.get_data os_linesep manifest None = Ok data
    /\ SignatureManifest.digest_manifest os_linesep hashlib b64encode
         manifest java_algorithm self = (Ok tt, self')
    /\ od_get str_eqb (java_algorithm ++ py "-Digest-Manifest") (attrs self')
       = Some (b64encode (hashlib name data)).
Proof.
  intros Halg Hls Hne Hmain Hsubs Hsorted.
  assert (Hor : or_str (Some ls) os_linesep = ls)
    by (destruct ls; [congruence|reflexivity]).
  eexists. eexists. split; [|split].
  - apply get_data_bytes; assumption.
  - apply digest_manifest_state; eassumption.
  - cbn [attrs]. unfold str_eqb.
    rewrite (@od_get_set_eq str str _).
    assert (Hor' : or_str None (or_str (Some ls) os_linesep) = ls)
      by (destruct ls; [congruence|reflexivity]).
    rewrite Hsorted, Hls, Hor', Hor. reflexivity.
Qed.

End DigestState.

Lemma digest_of_stored_manifest_witness :
  exists data self',
    Manifest.get_data [CR; LF] sorted_manifest None = Ok data
    /\ SignatureManifest.digest_manifest [CR; LF] example_hashlib id
         sorted_manifest (py "MD5") example_signature = (Ok tt, self')
    /\ od_get str_eqb (py "MD5" ++ py "-Digest-Manifest") (attrs self')
       = Some (id (example_hashlib (py "md5") data)).
Proof.
  apply (digest_of_stored_manifest [CR; LF] example_hashlib id
           sorted_manifest example_signature (py "MD5") (py "md5") [LF]).
  - reflexivity.
  - reflexivity.
  - discriminate.
  - repeat constructor.
  - repeat constructor.
  - reflexivity.
Defined.

(** When [store] reorders the sub-sections the two differ: for the manifest
    with [a] before [b] the digest is taken over [a] then [b], and the file
    holds [b] then [a]. *)
Example digest_not_of_stored_manifest :
  exists data all,
    Manifest.get_data [LF] example_manifest None = Ok data
    /\ od_get str_eqb (py "MD5-Digest-Manifest")
         (attrs (snd (SignatureManifest.digest_manifest [LF] example_hashlib
                        id example_manifest (py "MD5") example_signature)))
       = Some all
    /\ all <> example_hashlib (py "md5") data.
Proof.
  eexists. eexists. split; [reflexivity|]. split; [reflexivity|].
  intros H. vm_compute in H. discriminate H.
Qed.

(** ** digest_chunks *)

Lemma update_all_data (chunks : list str) :
  forall hashes : list hasher,
    map (fun h : hasher => (hash_data (fst h), snd h))
      (fold_left
         (fun (hashes : list hasher) chunk =>
            map (fun h : hasher => (hash_update (fst h) chunk, snd h)) hashes)
         chunks hashes)
    = map (fun h : hasher => (hash_data (fst h) ++ concat chunks, snd h))
        hashes.
Proof.
  induction chunks as [|chunk chunks IH]; intros hashes; cbn [fold_left concat].
  - apply map_ext. intros h. rewrite app_nil_r. reflexivity.
  - rewrite IH, map_map. apply map_ext. intros h.
    cbn [fst snd hash_update hash_data]. rewrite app_assoc. reflexivity.
Qed.

Lemma new_hashes_known (hashlib : str -> option (str -> str))
  (digest_of : str -> str -> str) (algorithms : list str) :
  Forall (fun a => hashlib a = Some (digest_of a)) algorithms ->
  new_hashes hashlib algorithms
  = inr (map (fun a => (hash_new a, digest_of a)) algorithms).
Proof.
  induction 1 as [|a algorithms Ha _ IH]; [reflexivity|].
  cbn [new_hashes map]. rewrite Ha, IH. reflexivity.
Qed.

(** X13. For algorithms [hashlib] has, [digest_chunks] returns, in the
    order of the algorithms, the base64 of the digest of all the chunks put
    end to end: how the data is cut into chunks makes no difference. *)
Theorem digest_chunks_concat (hashlib : str -> option (str -> str))
  (digest_of : str -> str -> str) (b64encode : str -> str)
  (chunks : list str) (algorithms : list str) :
  Forall (fun a => hashlib a = Some (digest_of a)) algorithms ->
  digest_chunks hashlib b64encode chunks algorithms
  = inr (map (fun a => b64encode (digest_of a (concat chunks))) algorithms)
  /\ forall chunks',
       concat chunks' = concat chunks ->
       digest_chunks hashlib b64encode chunks' algorithms
       = digest_chunks hashlib b64encode chunks algorithms.
Proof.
  intros Hknown.
  assert (Hvalue : forall cs,
            digest_chunks hashlib b64encode cs algorithms
            = inr (map (fun a => b64encode (digest_of a (concat cs)))
                     algorithms)).
  { intros cs. unfold digest_chunks.
    rewrite (new_hashes_known hashlib digest_of algorithms Hknown).
    f_equal.
    transitivity
      (map (fun p : str * (str -> str) => b64encode (snd p (fst p)))
         (map (fun h : hasher => (hash_data (fst h), snd h))
            (fold_left
               (fun (hashes : list hasher) chunk =>
                  map (fun h : hasher => (hash_update (fst h) chunk, snd h))
                    hashes)
               cs (map (fun a => (hash_new a, digest_of a)) algorithms)))).
    { rewrite map_map. reflexivity. }
    rewrite update_all_data, !map_map. reflexivity. }
  split; [apply Hvalue|].
  intros chunks' Hsame. rewrite !Hvalue, Hsame. reflexivity.
Qed.

Lemma digest_chunks_concat_witness :
  digest_chunks (fun a => Some (example_hashlib a)) id
    [py "ab"; py "c"] [py "md5"; py "sha1"]
  = inr (map (fun a => id (example_hashlib a (concat [py "ab"; py "c"])))
           [py "md5"; py "sha1"])
  /\ forall chunks',
       concat chunks' = concat [py "ab"; py "c"] ->
       digest_chunks (fun a => Some (example_hashlib a)) id chunks'
         [py "md5"; py "sha1"]
       = digest_chunks (fun a => Some (example_hashlib a)) id
           [py "ab"; py "c"] [py "md5"; py "sha1"].
Proof.
  apply (digest_chunks_concat (fun a => Some (example_hashlib a))
           example_hashlib id [py "ab"; py "c"] [py "md5"; py "sha1"]).
  repeat constructor.
Defined.

(** ** ManifestChange.collect_impl *)

Lemma yield_each_map {A B} (f : A -> result B) (g : A -> B) (l : list A)
  (rest : generated B (option exn)) :
  Forall (fun a => f a = Ok (g a)) l ->
  yield_each f l rest = (map g l ++ fst rest, snd rest).
Proof.
  induction 1 as [|a l Ha _ IH]; cbn [yield_each map app].
  - destruct rest. reflexivity.
  - rewrite Ha, IH. reflexivity.
Qed.

Lemma getitem_In (manifest : Manifest) (s : option str) :
  In s (od_keys (sub_sections manifest)) ->
  exists sect, od_get name_eqb s (sub_sections manifest) = Some sect.
Proof.
  intros Hin.
  destruct (od_get name_eqb s (sub_sections manifest)) as [sect|] eqn:E.
  - exists sect. reflexivity.
  - exfalso. revert Hin. apply (od_get_None_keys s). exact E.
Qed.

Lemma od_get_Some_In {K V : Type} (eqb : K -> K -> bool) (k : K) (v : V)
  (d : list (K * V)) :
  (forall a b, eqb a b = true -> a = b) ->
  od_get eqb k d = Some v -> In k (od_keys d).
Proof.
  intros Heqb. induction d as [|[k' v'] d IH]; cbn [od_get]; [discriminate|].
  destruct (eqb k k') eqn:E.
  - intros _. left. cbn [fst]. symmetry. apply Heqb. exact E.
  - intros H. right. apply IH. exact H.
Qed.

(** The section a name stands for, empty when the name is missing. *)
Lemma collect_impl_records (lm rm : Manifest) :
  let sub := fun (m : Manifest) (s : option str) =>
               match od_get name_eqb s (sub_sections m) with
               | Some sect => sect
               | None => []
               end in
  let l_sections : gset (option str) :=
    list_to_set (od_keys (sub_sections lm)) in
  let r_sections : gset (option str) :=
    list_to_set (od_keys (sub_sections rm)) in
  ManifestChange.collect_impl lm rm
  = (MainChange lm rm
     :: map (fun s => SectionChange (sub lm s) (sub rm s))
          (elements (l_sections ∩ r_sections))
     ++ map (fun s => SectionRemoved (sub lm s))
          (elements (l_sections ∖ r_sections))
     ++ map (fun s => SectionAdded (sub rm s))
          (elements (r_sections ∖ l_sections)),
     None).
Proof.
  intros sub l_sections r_sections.
  unfold ManifestChange.collect_impl. fold l_sections. fold r_sections.
  assert (Hl : forall s, s ∈ l_sections ->
                 getitem lm s = Ok (sub lm s)).
  { intros s Hs. apply elem_of_list_to_set, list_elem_of_In in Hs.
    destruct (getitem_In lm s Hs) as [sect Hsect].
    unfold getitem, sub. rewrite Hsect. reflexivity. }
  assert (Hr : forall s, s ∈ r_sections ->
                 getitem rm s = Ok (sub rm s)).
  { intros s Hs. apply elem_of_list_to_set, list_elem_of_In in Hs.
    destruct (getitem_In rm s Hs) as [sect Hsect].
    unfold getitem, sub. rewrite Hsect. reflexivity. }
  rewrite (yield_each_map _ (fun s => SectionChange (sub lm s) (sub rm s))).
  2:{ apply List.Forall_forall. intros s Hs.
      apply list_elem_of_In, elem_of_elements, elem_of_intersection in Hs.
      rewrite Hl, Hr by apply Hs. reflexivity. }
  rewrite (yield_each_map _ (fun s => SectionRemoved (sub lm s))).
  2:{ apply List.Forall_forall. intros s Hs.
      apply list_elem_of_In, elem_of_elements, elem_of_difference in Hs.
      rewrite Hl by apply Hs. reflexivity. }
  rewrite (yield_each_map _ (fun s => SectionAdded (sub rm s))).
  2:{ apply List.Forall_forall. intros s Hs.
      apply list_elem_of_In, elem_of_elements, elem_of_difference in Hs.
      rewrite Hr by apply Hs. reflexivity. }
  unfold yield. cbn [fst snd]. rewrite app_nil_r. reflexivity.
Qed.

(** X14. [collect_impl] never raises. It yields the main-section record
    first, then one record for every sub-section name of either manifest and
    no other: a "changed" record on the two sections for a name both
    manifests have, a "removed" record on the left section for a name only
    the left one has, an "added" record on the right section for a name only
    the right one has. *)
Theorem collect_impl_classifies (lm rm : Manifest) :
  let names : gset (option str) :=
    list_to_set (od_keys (sub_sections lm) ++ od_keys (sub_sections rm)) in
  exists records,
    ManifestChange.collect_impl lm rm = (MainChange lm rm :: records, None)
    /\ length records = size names
    /\ (forall s l r,
          od_get name_eqb s (sub_sections lm) = Some l ->
          od_get name_eqb s (sub_sections rm) = Some r ->
          In (SectionChange l r) records)
    /\ (forall s l,
          od_get name_eqb s (sub_sections lm) = Some l ->
          od_get name_eqb s (sub_sections rm) = None ->
          In (SectionRemoved l) records)
    /\ (forall s r,
          od_get name_eqb s (sub_sections lm) = None ->
          od_get name_eqb s (sub_sections rm) = Some r ->
          In (SectionAdded r) records).
Proof.
  intros names.
  pose proof (collect_impl_records lm rm) as Hrecords. cbv zeta in Hrecords.
  set (l_sections := (list_to_set (od_keys (sub_sections lm))
                      : gset (option str))) in *.
  set (r_sections := (list_to_set (od_keys (sub_sections rm))
                      : gset (option str))) in *.
  assert (Hin_l : forall s v, od_get name_eqb s (sub_sections lm) = Some v ->
                    s ∈ l_sections).
  { intros s v H. apply elem_of_list_to_set, list_elem_of_In.
    eapply od_get_Some_In; [|exact H].
    intros a b Hab. apply bool_decide_eq_true_1 in Hab. exact Hab. }
  assert (Hin_r : forall s v, od_get name_eqb s (sub_sections rm) = Some v ->
                    s ∈ r_sections).
  { intros s v H. apply elem_of_list_to_set, list_elem_of_In.
    eapply od_get_Some_In; [|exact H].
    intros a b Hab. apply bool_decide_eq_true_1 in Hab. exact Hab. }
  assert (Hout_l : forall s, od_get name_eqb s (sub_sections lm) = None ->
                     s ∉ l_sections).
  { intros s H Hs. apply elem_of_list_to_set, list_elem_of_In in Hs.
    revert Hs. apply (od_get_None_keys s). exact H. }
  assert (Hout_r : forall s, od_get name_eqb s (sub_sections rm) = None ->
                     s ∉ r_sections).
  { intros s H Hs. apply elem_of_list_to_set, list_elem_of_In in Hs.
    revert Hs. apply (od_get_None_keys s). exact H. }
  eexists. split; [exact Hrecords|]. split; [|split; [|split]].
  - rewrite !length_app, !length_map.
    change (size (l_sections ∩ r_sections) + (size (l_sections ∖ r_sections)
            + size (r_sections ∖ l_sections)) = size names).
    rewrite <- !size_union.
    + f_equal. unfold names. apply set_eq. intros s.
      rewrite list_to_set_app. fold l_sections. fold r_sections.
      rewrite !elem_of_union, elem_of_intersection, !elem_of_difference.
      destruct (decide (s ∈ l_sections)), (decide (s ∈ r_sections)); tauto.
    + intros s H1 H2. set_unfold. tauto.
    + intros s H1 H2. set_unfold. tauto.
  - intros s l r Hl Hr. apply in_or_app. left.
    apply in_map_iff. exists s. rewrite Hl, Hr. split; [reflexivity|].
    apply list_elem_of_In, elem_of_elements, elem_of_intersection.
    split; [eapply Hin_l|eapply Hin_r]; eassumption.
  - intros s l Hl Hr. apply in_or_app. right. apply in_or_app. left.
    apply in_map_iff. exists s. rewrite Hl. split; [reflexivity|].
    apply list_elem_of_In, elem_of_elements, elem_of_difference.
    split; [eapply Hin_l; eassumption|apply Hout_r; exact Hr].
  - intros s r Hl Hr. apply in_or_app. right. apply in_or_app. right.
    apply in_map_iff. exists s. rewrite Hr. split; [reflexivity|].
    apply list_elem_of_In, elem_of_elements, elem_of_difference.
    split; [eapply Hin_r; eassumption|apply Hout_l; exact Hl].
Qed.

(** ** ziputils: comparing the bytes of two entries *)

Lemma chunk_loop_chunks (size : nat) (Hsize : 0 < size) :
  forall fuel rest,
    (rest <> [] -> length (skipn size rest) < fuel) ->
    chunk_loop fuel size (firstn size rest) (skipn size rest)
    = chunks size rest.
Proof.
  induction fuel as [|fuel IH]; intros rest Hfuel.
  { destruct rest as [|c rest]; [reflexivity|].
    specialize (Hfuel ltac:(discriminate)). lia. }
  destruct rest as [|c rest].
  - destruct size; reflexivity.
  - specialize (Hfuel ltac:(discriminate)).
    rewrite chunks_cons by exact Hsize.
    remember (skipn size (c :: rest)) as buf eqn:Hbuf.
    destruct size as [|size']; [lia|].
    cbn [chunk_loop firstn]. f_equal.
    unfold read. apply IH.
    intros Hne. destruct buf as [|b buf]; [congruence|].
    rewrite length_skipn. simpl in *. lia.
Qed.

Lemma chunk_chunks (stream : str) (size : nat) :
  0 < size -> _chunk stream size = chunks size stream.
Proof.
  intros Hsize. unfold _chunk, read.
  apply chunk_loop_chunks; [exact Hsize|]. intros _. lia.
Qed.

Lemma any_different_izip (a : list str) :
  forall b : list str,
    any_different (izip_longest a b) = negb (bool_decide (a = b)).
Proof.
  induction a as [|x a IH]; intros [|y b]; cbn [izip_longest map any_different].
  - reflexivity.
  - rewrite bool_decide_eq_false_2 by discriminate.
    rewrite (bool_decide_eq_false_2 ([] = y :: b)) by discriminate.
    reflexivity.
  - rewrite bool_decide_eq_false_2 by discriminate.
    rewrite (bool_decide_eq_false_2 (x :: a = [])) by discriminate.
    reflexivity.
  - destruct (decide (x = y)) as [->|Hxy].
    + rewrite bool_decide_eq_true_2 by reflexivity. cbn [negb].
      rewrite IH. f_equal.
      destruct (decide (a = b)) as [->|Hab].
      * rewrite !bool_decide_eq_true_2 by reflexivity. reflexivity.
      * rewrite !bool_decide_eq_false_2 by congruence. reflexivity.
    + rewrite bool_decide_eq_false_2 by congruence. cbn [negb].
      rewrite bool_decide_eq_false_2 by congruence. reflexivity.
Qed.

Lemma chunk_size_positive : 0 < chunk_size.
Proof. unfold chunk_size. lia. Qed.

Lemma deep_different_bytes (left right : archive) (f l r : str) :
  zip_open left f = Ok l ->
  zip_open right f = Ok r ->
  _deep_different left right f = Ok (negb (bool_decide (l = r))).
Proof.
  intros Hl Hr. unfold _deep_different. rewrite Hl, Hr. f_equal.
  rewrite any_different_izip.
  rewrite !chunk_chunks by exact chunk_size_positive.
  destruct (decide (l = r)) as [->|Hne].
  - rewrite !bool_decide_eq_true_2 by reflexivity. reflexivity.
  - rewrite !bool_decide_eq_false_2; [reflexivity|exact Hne|].
    intros Heq. apply Hne.
    rewrite <- (concat_chunks chunk_size chunk_size_positive l).
    rewrite <- (concat_chunks chunk_size chunk_size_positive r).
    rewrite Heq. reflexivity.
Qed.

(** X15. For a name both archives can open, [_deep_different] says [True]
    exactly when the bytes of the two entries differ: reading them by chunks
    of 10240 bytes and comparing the chunks pair by pair (a missing chunk
    being [None]) loses nothing. *)
Theorem deep_different_iff (left right : archive) (f l r : str) :
  zip_open left f = Ok l ->
  zip_open right f = Ok r ->
  exists b,
    _deep_different left right f = Ok b /\ (b = true <-> l <> r).
Proof.
  intros Hl Hr. eexists. split; [apply deep_different_bytes; eassumption|].
  destruct (decide (l = r)) as [->|Hne].
  - rewrite bool_decide_eq_true_2 by reflexivity. cbn [negb].
    split; [discriminate|congruence].
  - rewrite bool_decide_eq_false_2 by exact Hne. cbn [negb].
    split; [intros _; exact Hne|reflexivity].
Qed.

Lemma deep_different_iff_witness :
  exists b,
    _deep_different left_archive right_archive (py "a.txt") = Ok b
    /\ (b = true <-> py "one" <> py "eno").
Proof.
  apply (deep_different_iff left_archive right_archive (py "a.txt")
           (py "one") (py "eno")).
  - reflexivity.
  - reflexivity.
Defined.

(** X16. For a name both archives have, [_different] answers, and
    - it says [False] only if the bytes of the two entries are the same;
    - it says [True] without opening them when the recorded sizes or CRCs
      differ;
    - it says [False] when the bytes are the same and the recorded sizes
      and CRCs agree. *)
Theorem different_sound (left right : archive) (f : str)
  (li ri : ZipInfo) (l r : str) :
  zip_find left f = Some (li, l) ->
  zip_find right f = Some (ri, r) ->
  exists b,
    _different left right f = Ok b
    /\ (b = false -> l = r)
    /\ (file_size li <> file_size ri \/ CRC li <> CRC ri -> b = true)
    /\ (l = r -> file_size li = file_size ri -> CRC li = CRC ri ->
        b = false).
Proof.
  intros Hl Hr.
  assert (Hol : zip_open left f = Ok l) by (unfold zip_open; rewrite Hl; reflexivity).
  assert (Hor : zip_open right f = Ok r) by (unfold zip_open; rewrite Hr; reflexivity).
  unfold _different, getinfo. rewrite Hl, Hr. cbn [fst].
  destruct ((file_size li =? file_size ri)%N && (CRC li =? CRC ri)%N) eqn:E.
  - apply andb_true_iff in E. destruct E as [E1 E2].
    apply N.eqb_eq in E1, E2.
    rewrite (deep_different_bytes left right f l r Hol Hor).
    eexists. split; [reflexivity|].
    destruct (decide (l = r)) as [->|Hne].
    + rewrite bool_decide_eq_true_2 by reflexivity. cbn [negb].
      split; [reflexivity|]. split; [intros [H|H]; congruence|reflexivity].
    + rewrite bool_decide_eq_false_2 by exact Hne. cbn [negb].
      split; [discriminate|]. split; [reflexivity|congruence].
  - exists true. split; [reflexivity|]. split; [discriminate|].
    split; [reflexivity|].
    intros _ H1 H2. apply andb_false_iff in E.
    destruct E as [E|E]; apply N.eqb_neq in E; congruence.
Qed.

Lemma different_sound_witness :
  exists b,
    _different left_archive right_archive (py "a.txt") = Ok b
    /\ (b = false -> py "one" = py "eno")
    /\ (file_size (mkZipInfo (py "a.txt") 3 3 11)
        <> file_size (mkZipInfo (py "a.txt") 3 3 11)
        \/ CRC (mkZipInfo (py "a.txt") 3 3 11)
           <> CRC (mkZipInfo (py "a.txt") 3 3 11) -> b = true)
    /\ (py "one" = py "eno" ->
        file_size (mkZipInfo (py "a.txt") 3 3 11)
        = file_size (mkZipInfo (py "a.txt") 3 3 11) ->
        CRC (mkZipInfo (py "a.txt") 3 3 11)
        = CRC (mkZipInfo (py "a.txt") 3 3 11) ->
        b = false).
Proof.
  apply (different_sound left_archive right_archive (py "a.txt")
           (mkZipInfo (py "a.txt") 3 3 11) (mkZipInfo (py "a.txt") 3 3 11)
           (py "one") (py "eno")).
  - reflexivity.
  - reflexivity.
Defined.

(** ** ziputils: classifying the names of two archives *)

Lemma zip_find_In (zipfile : archive) (name : str) :
  In name (namelist zipfile) ->
  exists entry, zip_find zipfile name = Some entry.
Proof.
  induction zipfile as [|entry zipfile IH]; intros Hin; [destruct Hin|].
  cbn [zip_find].
  destruct (zip_find zipfile name) as [found|] eqn:E.
  - exists found. reflexivity.
  - destruct Hin as [Heq|Hin].
    + unfold str_eqb. rewrite bool_decide_eq_true_2 by exact Heq.
      exists entry. reflexivity.
    + destruct (IH Hin) as [found Hfound]. discriminate Hfound.
Qed.

Lemma different_answers (left right : archive) (f : str) :
  In f (namelist left) -> In f (namelist right) ->
  exists b, _different left right f = Ok b.
Proof.
  intros Hl Hr.
  destruct (zip_find_In left f Hl) as [[li l] Hfl].
  destruct (zip_find_In right f Hr) as [[ri r] Hfr].
  unfold _different, getinfo. rewrite Hfl, Hfr. cbn [fst].
  destruct ((file_size li =? file_size ri)%N && (CRC li =? CRC ri)%N).
  - eexists. apply deep_different_bytes.
    + unfold zip_open. rewrite Hfl. reflexivity.
    + unfold zip_open. rewrite Hfr. reflexivity.
  - exists true. reflexivity.
Qed.

Lemma directory_answers (left right : archive) (f : str) :
  f <> [] -> _directory left right f = Ok (ends_with_slash f).
Proof.
  intros Hne. unfold _directory, ends_with_slash.
  destruct (rev f) as [|c s] eqn:E; [|reflexivity].
  apply (f_equal (@rev ascii)) in E. rewrite rev_involutive in E.
  cbn [rev] in E. congruence.
Qed.

Lemma classify_ext (left right : archive) (rl rl' : gset str)
  (l : list str) :
  (forall f, In f l -> (f ∈ rl <-> f ∈ rl')) ->
  flat_map (classify left right rl) l = flat_map (classify left right rl') l.
Proof.
  induction l as [|f l IH]; intros Hsame; [reflexivity|].
  cbn [flat_map]. rewrite IH by (intros g Hg; apply Hsame; right; exact Hg).
  f_equal. unfold classify.
  destruct (decide (f ∈ rl)) as [Hin|Hout].
  - rewrite !bool_decide_eq_true_2; [reflexivity| |exact Hin].
    apply Hsame; [left; reflexivity|exact Hin].
  - rewrite !bool_decide_eq_false_2; [reflexivity| |exact Hout].
    intros H. apply Hout. apply Hsame; [left; reflexivity|exact H].
Qed.

(** The loop over the names of the left archive. *)
Lemma compare_left_events (left right : archive) (ll : list str) :
  List.NoDup ll ->
  forall rl : gset str,
    (forall f, In f ll -> f ∈ rl ->
       f <> [] /\ exists b, _different left right f = Ok b) ->
    compare_left left right ll rl
    = (flat_map (classify left right rl) ll, Ok (rl ∖ list_to_set ll)).
Proof.
  induction 1 as [|f ll Hf Hnodup IH]; intros rl Hcommon.
  - cbn [compare_left flat_map list_to_set]. do 2 f_equal.
    apply set_eq. intros x. set_unfold. tauto.
  - assert (Hrest : forall rl' : gset str,
              (forall g, g ∈ rl' <-> g ∈ rl /\ g <> f) ->
              compare_left left right ll rl'
              = (flat_map (classify left right rl) ll,
                 Ok (rl ∖ list_to_set (f :: ll)))).
    { intros rl' Hrl'. rewrite IH.
      - f_equal.
        + apply classify_ext. intros g Hg. rewrite Hrl'.
          split; [tauto|]. intros H. split; [exact H|].
          intros ->. exact (Hf Hg).
        + f_equal. apply set_eq. intros x.
          rewrite !elem_of_difference, Hrl'. cbn [list_to_set].
          rewrite elem_of_union, elem_of_singleton. tauto.
      - intros g Hg Hin. apply Hcommon; [right; exact Hg|].
        apply Hrl'. exact Hin. }
    cbn [compare_left flat_map]. unfold classify at 1.
    destruct (decide (f ∈ rl)) as [Hin|Hout].
    + rewrite !bool_decide_eq_true_2 by exact Hin.
      destruct (Hcommon f ltac:(left; reflexivity) Hin) as [Hne [b Hb]].
      rewrite (directory_answers left right f Hne), Hb.
      assert (Hrl' : forall g, g ∈ rl ∖ {[f]} <-> g ∈ rl /\ g <> f).
      { intros g. rewrite elem_of_difference, elem_of_singleton. tauto. }
      rewrite (Hrest _ Hrl').
      destruct (ends_with_slash f); [reflexivity|].
      destruct b; reflexivity.
    + rewrite !bool_decide_eq_false_2 by exact Hout.
      rewrite Hrest; [reflexivity|].
      intros g. split; [|tauto].
      intros Hg. split; [exact Hg|]. intros ->. exact (Hout Hg).
Qed.

Lemma collect_events_names (events : list (event * str)) :
  forall added removed altered same : list str,
    collect_events events (Some added) (Some removed) (Some altered)
      (Some same)
    = (Some (added ++ names_of RIGHT events),
       Some (removed ++ names_of LEFT events),
       Some (altered ++ names_of DIFF events),
       Some (same ++ names_of SAME events)).
Proof.
  unfold names_of.
  induction events as [|[e f] events IH]; intros added removed altered same.
  - cbn [collect_events List.filter map]. rewrite !app_nil_r. reflexivity.
  - destruct e; cbn [collect_events group_append List.filter fst snd
                      event_eqb map];
      rewrite IH, <- ?app_assoc; reflexivity.
Qed.

Lemma names_of_In (e : event) (f : str) (events : list (event * str)) :
  In f (names_of e events) <-> In (e, f) events.
Proof.
  unfold names_of. rewrite in_map_iff. split.
  - intros [[e' f'] [Hf Hin]]. cbn [snd] in Hf. subst f'.
    apply filter_In in Hin. destruct Hin as [Hin He]. cbn [fst] in He.
    destruct e, e'; try discriminate He; exact Hin.
  - intros Hin. exists (e, f). split; [reflexivity|].
    apply filter_In. split; [exact Hin|]. destruct e; reflexivity.
Qed.

Lemma classify_In (left right : archive) (rl : gset str) (e : event)
  (f g : str) :
  (g ∈ rl -> g <> []) ->
  In (e, f) (classify left right rl g)
  <-> f = g
      /\ match e with
         | LEFT => g ∉ rl
         | RIGHT => False
         | DIFF => g ∈ rl /\ ends_with_slash g = false
                   /\ _different left right g = Ok true
         | SAME => g ∈ rl /\ ends_with_slash g = false
                   /\ _different left right g = Ok false
         end.
Proof.
  intros Hne. unfold classify.
  destruct (decide (g ∈ rl)) as [Hin|Hout].
  - rewrite bool_decide_eq_true_2 by exact Hin.
    rewrite (directory_answers left right g (Hne Hin)).
    destruct (ends_with_slash g).
    + destruct e; cbn [In]; intuition (try discriminate; try congruence).
    + destruct (_different left right g) as [[|]|err];
        destruct e; cbn [In]; intuition (try discriminate; try congruence).
  - rewrite bool_decide_eq_false_2 by exact Hout.
    destruct e; cbn [In]; intuition (try discriminate; try congruence).
Qed.

Lemma compare_zips_events (left right : archive) :
  (forall f, In f (namelist left) -> In f (namelist right) -> f <> []) ->
  compare_zips left right
  = (flat_map (classify left right (list_to_set (namelist right)))
       (elements (list_to_set (namelist left) : gset str))
     ++ map (fun f => (RIGHT, f))
          (elements ((list_to_set (namelist right) : gset str)
                     ∖ list_to_set (namelist left))),
     None).
Proof.
  intros Hnames. unfold compare_zips.
  rewrite compare_left_events.
  - rewrite list_to_set_elements_L. reflexivity.
  - apply NoDup_ListNoDup, NoDup_elements.
  - intros f Hl Hr.
    apply list_elem_of_In, elem_of_elements, elem_of_list_to_set,
      list_elem_of_In in Hl.
    apply elem_of_list_to_set, list_elem_of_In in Hr.
    split; [apply Hnames; assumption|].
    apply different_answers; assumption.
Qed.

Lemma compare_zips_In (left right : archive) (e : event) (f : str) :
  (forall f, In f (namelist left) -> In f (namelist right) -> f <> []) ->
  In (e, f) (fst (compare_zips left right))
  <-> match e with
      | LEFT => In f (namelist left) /\ ~ In f (namelist right)
      | RIGHT => In f (namelist right) /\ ~ In f (namelist left)
      | DIFF => In f (namelist left) /\ In f (namelist right)
                /\ ends_with_slash f = false
                /\ _different left right f = Ok true
      | SAME => In f (namelist left) /\ In f (namelist right)
                /\ ends_with_slash f = false
                /\ _different left right f = Ok false
      end.
Proof.
  intros Hnames. rewrite compare_zips_events by exact Hnames. cbn [fst].
  set (ll := (list_to_set (namelist left) : gset str)).
  set (rl := (list_to_set (namelist right) : gset str)).
  assert (Hll : forall g, g ∈ ll <-> In g (namelist left)).
  { intros g. unfold ll. rewrite elem_of_list_to_set. apply list_elem_of_In. }
  assert (Hrl : forall g, g ∈ rl <-> In g (namelist right)).
  { intros g. unfold rl. rewrite elem_of_list_to_set. apply list_elem_of_In. }
  rewrite in_app_iff, in_flat_map, in_map_iff.
  assert (Hleft : (exists g, In g (elements ll)
                             /\ In (e, f) (classify left right rl g))
                  <-> In f (namelist left)
                      /\ match e with
                         | LEFT => f ∉ rl
                         | RIGHT => False
                         | DIFF => f ∈ rl /\ ends_with_slash f = false
                                   /\ _different left right f = Ok true
                         | SAME => f ∈ rl /\ ends_with_slash f = false
                                   /\ _different left right f = Ok false
                         end).
  { split.
    - intros [g [Hg Hin]].
      apply list_elem_of_In, elem_of_elements, Hll in Hg.
      apply classify_In in Hin.
      + destruct Hin as [-> Hin]. split; assumption.
      + intros Hgr. apply Hnames; [exact Hg|apply Hrl; exact Hgr].
    - intros [Hf Hin]. exists f. split.
      + apply list_elem_of_In, elem_of_elements, Hll. exact Hf.
      + apply classify_In.
        * intros Hfr. apply Hnames; [exact Hf|apply Hrl; exact Hfr].
        * split; [reflexivity|exact Hin]. }
  assert (Hright : (exists g, (RIGHT, g) = (e, f)
                              /\ In g (elements (rl ∖ ll)))
                   <-> e = RIGHT /\ In f (namelist right)
                       /\ ~ In f (namelist left)).
  { split.
    - intros [g [Heq Hg]]. injection Heq as <- <-.
      apply list_elem_of_In, elem_of_elements, elem_of_difference in Hg.
      rewrite Hrl, Hll in Hg. tauto.
    - intros [-> [Hr Hl]]. exists f. split; [reflexivity|].
      apply list_elem_of_In, elem_of_elements, elem_of_difference.
      rewrite Hrl, Hll. tauto. }
  rewrite Hleft, Hright.
  destruct e; rewrite ?Hrl; intuition (try discriminate; try congruence).
Qed.

(** X17. When no name that both archives have is empty,
    [collect_compare_zips] succeeds and sorts the names into four lists:
    "added" holds exactly the names only the right archive has, "removed"
    exactly the names only the left archive has, "altered" the names both
    have that do not end with a slash and that [_different] finds different,
    "same" those it finds the same; a name both have that ends with a slash
    is in none of them. *)
Theorem collect_compare_zips_classifies (left right : archive) :
  (forall f, In f (namelist left) -> In f (namelist right) -> f <> []) ->
  exists added removed altered same : list str,
    collect_compare_zips left right
    = Ok (Some added, Some removed, Some altered, Some same)
    /\ (forall f, In f added
                  <-> In f (namelist right) /\ ~ In f (namelist left))
    /\ (forall f, In f removed
                  <-> In f (namelist left) /\ ~ In f (namelist right))
    /\ (forall f, In f altered
                  <-> In f (namelist left) /\ In f (namelist right)
                      /\ ends_with_slash f = false
                      /\ _different left right f = Ok true)
    /\ (forall f, In f same
                  <-> In f (namelist left) /\ In f (namelist right)
                      /\ ends_with_slash f = false
                      /\ _different left right f = Ok false).
Proof.
  intros Hnames.
  pose proof (compare_zips_events left right Hnames) as Hevents.
  destruct (compare_zips left right) as [events stop] eqn:E.
  injection Hevents as Hev Hstop.
  assert (Hin : forall e f,
            In f (names_of e events)
            <-> In (e, f) (fst (compare_zips left right))).
  { intros e f. rewrite E. apply names_of_In. }
  exists (names_of RIGHT events), (names_of LEFT events),
    (names_of DIFF events), (names_of SAME events).
  split.
  - unfold collect_compare_zips, collect_compare_zips_into.
    rewrite E, Hstop, collect_events_names. reflexivity.
  - split; [|split; [|split]]; intros f;
      (etransitivity; [apply Hin|]).
    + exact (compare_zips_In left right RIGHT f Hnames).
    + exact (compare_zips_In left right LEFT f Hnames).
    + exact (compare_zips_In left right DIFF f Hnames).
    + exact (compare_zips_In left right SAME f Hnames).
Qed.

Lemma collect_compare_zips_classifies_witness :
  exists added removed altered same : list str,
    collect_compare_zips left_archive right_archive
    = Ok (Some added, Some removed, Some altered, Some same)
    /\ (forall f, In f added
                  <-> In f (namelist right_archive)
                      /\ ~ In f (namelist left_archive))
    /\ (forall f, In f removed
                  <-> In f (namelist left_archive)
                      /\ ~ In f (namelist right_archive))
    /\ (forall f, In f altered
                  <-> In f (namelist left_archive)
                      /\ In f (namelist right_archive)
                      /\ ends_with_slash f = false
                      /\ _different left_archive right_archive f = Ok true)
    /\ (forall f, In f same
                  <-> In f (namelist left_archive)
                      /\ In f (namelist right_archive)
                      /\ ends_with_slash f = false
                      /\ _different left_archive right_archive f = Ok false).
Proof.
  apply (collect_compare_zips_classifies left_archive right_archive).
  intros f Hl Hr. simpl in Hl.
  intuition (subst; discriminate).
Defined.

(** ** zip_entry_rollup *)

Lemma rollup_totals (infos : list ZipInfo) :
  Forall (fun i => filename i <> []) infos ->
  forall files dirs total_c total_u : N,
    rollup infos files dirs total_c total_u
    = Ok ((files + N.of_nat (length (file_infos infos)))%N,
          (dirs + N.of_nat (length (dir_infos infos)))%N,
          (total_c + total compress_size (file_infos infos))%N,
          (total_u + total file_size (file_infos infos))%N).
Proof.
  induction 1 as [|i infos Hi _ IH]; intros files dirs total_c total_u.
  - cbn. rewrite !N.add_0_r. reflexivity.
  - cbn [rollup].
    destruct (rev (filename i)) as [|c s] eqn:E.
    { apply (f_equal (@rev ascii)) in E. rewrite rev_involutive in E.
      cbn [rev] in E. congruence. }
    assert (Hends : ends_with_slash (filename i) = Ascii.eqb c "/"%char)
      by (unfold ends_with_slash; rewrite E; reflexivity).
    rewrite !IH. unfold file_infos, dir_infos, total. cbn [List.filter].
    rewrite Hends.
    destruct (Ascii.eqb c "/"%char); cbn [negb length fold_right];
      f_equal; repeat (apply (f_equal2 pair)); lia.
Qed.

Lemma file_dir_infos_length (infos : list ZipInfo) :
  length (file_infos infos) + length (dir_infos infos) = length infos.
Proof.
  unfold file_infos, dir_infos.
  induction infos as [|i infos IH]; [reflexivity|].
  cbn [List.filter]. destruct (ends_with_slash (filename i));
    cbn [negb length]; lia.
Qed.

(** X18. For an archive without an empty entry name, [zip_entry_rollup]
    returns the number of entries whose name does not end with a slash, the
    number of entries whose name does, the total compressed size and the
    total uncompressed size of the former, in this order (the docstring
    names the two sizes the other way round); and the two counts add up to
    the number of entries. *)
Theorem zip_entry_rollup_totals (zipfile : archive) :
  Forall (fun i => filename i <> []) (infolist zipfile) ->
  zip_entry_rollup zipfile
  = Ok (N.of_nat (length (file_infos (infolist zipfile))),
        N.of_nat (length (dir_infos (infolist zipfile))),
        total compress_size (file_infos (infolist zipfile)),
        total file_size (file_infos (infolist zipfile)))
  /\ length (file_infos (infolist zipfile))
     + length (dir_infos (infolist zipfile))
     = length (infolist zipfile).
Proof.
  intros Hnames. split; [|apply file_dir_infos_length].
  unfold zip_entry_rollup. rewrite rollup_totals by exact Hnames.
  rewrite !N.add_0_l. reflexivity.
Qed.

Lemma zip_entry_rollup_totals_witness :
  zip_entry_rollup left_archive
  = Ok (N.of_nat (length (file_infos (infolist left_archive))),
        N.of_nat (length (dir_infos (infolist left_archive))),
        total compress_size (file_infos (infolist left_archive)),
        total file_size (file_infos (infolist left_archive)))
  /\ length (file_infos (infolist left_archive))
     + length (dir_infos (infolist left_archive))
     = length (infolist left_archive).
Proof.
  apply (zip_entry_rollup_totals left_archive).
  repeat constructor; discriminate.
Defined.

(** ** create_section as an accessor *)

(** X8. Whatever [overwrite] is, [create_section] succeeds and leaves the
    name bound to a sub-section, and asking again with [overwrite=False]
    returns that sub-section and changes nothing; with [overwrite=False] on
    a name that is bound already, the first call changes nothing either. *)
Theorem create_section_idempotent (name : option str) (overwrite : bool)
  (self : Manifest) :
  exists self' : Manifest,
    Manifest.create_section name overwrite self = (Ok name, self')
    /\ (exists sect, od_get name_eqb name (sub_sections self') = Some sect)
    /\ Manifest.create_section name false self' = (Ok name, self')
    /\ (overwrite = false ->
        forall sect, od_get name_eqb name (sub_sections self) = Some sect ->
        self' = self).
Proof.
  assert (Hnew : forall m : Manifest,
            exists m',
              (sect <- lift (new_section ManifestSection.primary_key name) ;;
               set_sub name sect ;; ret name) m = (Ok name, m')
              /\ od_get name_eqb name (sub_sections m')
                 = Some [(ManifestSection.primary_key, str_of name)]).
  { intros m. eexists. split; [reflexivity|].
    cbn [sub_sections]. unfold name_eqb.
    apply (@od_get_set_eq (option str) section _). }
  destruct overwrite.
  - destruct (Hnew self) as [self' [Hrun Hget]].
    exists self'. split; [exact Hrun|]. split; [eexists; exact Hget|].
    split; [|discriminate].
    eapply create_section_keeps_existing. exact Hget.
  - destruct (od_get name_eqb name (sub_sections self)) as [sect|] eqn:E.
    + exists self.
      split; [eapply create_section_keeps_existing; exact E|].
      split; [eexists; exact E|].
      split; [eapply create_section_keeps_existing; exact E|].
      reflexivity.
    + destruct (Hnew self) as [self' [Hrun Hget]].
      exists self'. split.
      * unfold Manifest.create_section. rewrite E. exact Hrun.
      * split; [eexists; exact Hget|].
        split; [eapply create_section_keeps_existing; exact Hget|].
        intros _ sect Hsect. discriminate Hsect.
Qed.

(** ** The exceptions of digest_manifest *)

(** The exceptions the writer raises by itself. *)
Lemma write_parts_raises (linesep : option str) :
  forall fuel part kvbuffer stream,
    match fst (write_parts fuel linesep part kvbuffer stream) with
    | Ok _ => True
    | Raise e => e = TypeError
    end.
Proof.
  induction fuel as [|fuel IH]; intros part kvbuffer stream; [exact I|].
  cbn [write_parts]. destruct part as [|c part]; [exact I|].
  destruct linesep as [ls|]; [|reflexivity].
  unfold add_str, read.
  erewrite bind_Ok by reflexivity.
  erewrite bind_Ok by apply write_Some.
  erewrite bind_Ok by apply write_Some.
  apply IH.
Qed.

Lemma write_raises (s : option str) (stream : str) :
  raises_only writer_exn (fst (write s stream)).
Proof. destruct s; [exact I|left; reflexivity]. Qed.

Lemma bind_raises {S A B} (P : exn -> Prop) (c : M S A) (k : A -> M S B)
  (s : S) :
  raises_only P (fst (c s)) ->
  (forall a s', raises_only P (fst (k a s'))) ->
  raises_only P (fst (bind c k s)).
Proof.
  intros Hc Hk. unfold bind.
  destruct (c s) as [[a|e] s']; [apply Hk|exact Hc].
Qed.

Lemma for_each_raises {S A} (P : exn -> Prop) (body : A -> M S unit)
  (l : list A) :
  (forall a s, raises_only P (fst (body a s))) ->
  forall s, raises_only P (fst (for_each body l s)).
Proof.
  intros Hbody. induction l as [|a l IH]; intros s; [exact I|].
  cbn [for_each]. apply bind_raises; [apply Hbody|].
  intros _ s'. apply IH.
Qed.

Lemma write_key_val_raises (key val linesep : option str) (stream : str) :
  raises_only writer_exn (fst (write_key_val key val linesep stream)).
Proof.
  unfold write_key_val.
  destruct (negb ((0 <? length (or_str key []))
                  && (length (or_str key []) <? 69))).
  { right. eexists. eexists. reflexivity. }
  apply bind_raises; [|intros _ s'; apply write_raises].
  destruct (68 <? length (or_str key []) + length (or_str val [])).
  - unfold read.
    apply bind_raises; [exact I|]. intros _ s'.
    pose proof (write_parts_raises linesep
                  (S (length (skipn 69 (skipn 70
                        (or_str key [] ++ py ": " ++ or_str val [])))))
                  (firstn 69 (skipn 70
                     (or_str key [] ++ py ": " ++ or_str val [])))
                  (skipn 69 (skipn 70
                     (or_str key [] ++ py ": " ++ or_str val [])))
                  s') as Hparts.
    destruct (fst (write_parts _ linesep _ _ s')) as [u|e];
      [exact I|left; exact Hparts].
  - apply bind_raises; [exact I|]. intros _ s1.
    apply bind_raises; [exact I|]. intros _ s2. exact I.
Qed.

Lemma store_raises (self : section) (linesep : option str) (stream : str) :
  raises_only writer_exn (fst (ManifestSection.store self linesep stream)).
Proof.
  unfold ManifestSection.store.
  apply bind_raises; [|intros _ s'; apply write_raises].
  apply for_each_raises. intros kv s. apply write_key_val_raises.
Qed.

Lemma getvalue_raises {A} (P : exn -> Prop) (c : M str A) :
  raises_only P (fst (c [])) -> raises_only P (getvalue c).
Proof.
  unfold getvalue. destruct (c []) as [[a|e] s]; intros H; [exact I|exact H].
Qed.

Section DigestExceptions.

Variable os_linesep : str.
Variable hashlib : str -> str -> str.
Variable b64encode : str -> str.

Lemma digest_sub_sections_raises (ls sect_key digest : str)
  (subs : list section) :
  forall h_all self,
    raises_only writer_exn
      (fst (SignatureManifest.digest_sub_sections hashlib b64encode
              ls sect_key digest subs h_all self)).
Proof.
  induction subs as [|s subs IH]; intros h_all self; [exact I|].
  cbn [SignatureManifest.digest_sub_sections].
  pose proof (getvalue_raises writer_exn
                (ManifestSection.store s (Some ls))
                (store_raises s (Some ls) [])) as Hdata.
  fold (ManifestSection.get_data s (Some ls)) in Hdata.
  destruct (ManifestSection.get_data s (Some ls)) as [sub_data|e].
  2:{ exact Hdata. }
  erewrite bind_Ok by reflexivity.
  erewrite bind_Ok by reflexivity.
  apply bind_raises; [|intros _ s'; apply IH].
  unfold on_sub, set_sub, modify. cbn [sub_sections].
  pose proof (@od_get_set_eq (option str) section _) as Hget.
  unfold name_eqb. rewrite Hget.
  unfold ManifestSection.__setitem__.
  destruct (68 <? length sect_key); cbn [fst raises_only].
  - right. eexists. eexists. reflexivity.
  - exact I.
Qed.

(** X11. [digest_manifest] raises [KeyError] exactly for an algorithm name
    that is not one of [MD5], [SHA1], [SHA-256], [SHA-384] and [SHA-512],
    byte for byte (Oracle's [SHA-1] and the names of [hashlib] are refused),
    and then before it looks at the manifest, the signature manifest staying
    as it was. With one of the five names it either succeeds or raises what
    writing a section raises: [TypeError] for a missing line separator or
    [ManifestKeyException] for a key of bad length. *)
Theorem digest_manifest_exceptions (manifest self : Manifest)
  (java_algorithm : str) :
  (~ In java_algorithm
       [py "MD5"; py "SHA1"; py "SHA-256"; py "SHA-384"; py "SHA-512"] ->
   SignatureManifest.digest_manifest os_linesep hashlib b64encode
     manifest java_algorithm self
   = (Raise (KeyError java_algorithm), self))
  /\ (In java_algorithm
        [py "MD5"; py "SHA1"; py "SHA-256"; py "SHA-384"; py "SHA-512"] ->
      raises_only writer_exn
        (fst (SignatureManifest.digest_manifest os_linesep hashlib b64encode
                manifest java_algorithm self))).
Proof.
  split; [apply digest_manifest_unknown_algorithm|].
  intros Hin.
  assert (Halg : exists name,
            od_get str_eqb java_algorithm JAVA_TO_HASHLIB = Some name).
  { cbn [In] in Hin.
    destruct Hin as [<-|[<-|[<-|[<-|[<-|[]]]]]]; eexists; reflexivity. }
  destruct Halg as [name Halg].
  unfold SignatureManifest.digest_manifest. rewrite Halg.
  erewrite bind_Ok by reflexivity.
  pose proof (getvalue_raises writer_exn
                (ManifestSection.store (attrs manifest) (linesep manifest))
                (store_raises (attrs manifest) (linesep manifest) []))
    as Hmain.
  fold (Manifest.get_main_section manifest) in Hmain.
  destruct (Manifest.get_main_section manifest) as [main|e].
  2:{ exact Hmain. }
  erewrite bind_Ok by reflexivity.
  apply bind_raises.
  { unfold on_attrs, ManifestSection.__setitem__.
    destruct (68 <? length _); cbn [fst raises_only];
      [right; eexists; eexists; reflexivity|exact I]. }
  intros _ s1. apply bind_raises; [apply digest_sub_sections_raises|].
  intros h s2. unfold on_attrs, ManifestSection.__setitem__.
  destruct (68 <? length _); cbn [fst raises_only];
    [right; eexists; eexists; reflexivity|exact I].
Qed.

End DigestExceptions.
